(** * Rolling demand features of the taxi-zone pipeline

    A shallow embedding of [Development/trip-level-rolling-features.py]:
    the clean-up of the raw trip records, the sort by zone and pickup
    time, the zone boundaries, the per-zone rolling pickup counts (1h / 6h
    / 24h), the daily aggregation by (date, zone), and the two places
    where the script stops with an exception.  Line numbers are those of
    that script; its sibling [Development/compute_rolling_demand_features.py]
    has the same clean-up, sort and counter.  Further down come the daily
    ride counts of [load_and_aggregate.py], the feature frame and the
    split of [forecast_top10_zones.py] and the zone polygons of
    [build_animated_choropleth.py].

    The input is the raw table that [pd.concat] returns.  Timestamps are
    [int64] nanoseconds and zones and counts are [int32], as in the
    scripts; both are integers of [Z] with the wrap-around of the
    fixed-width type written out.  The NumPy and pandas primitives the
    scripts call are modelled after their documented behaviour in the
    modules [Np] and [Pd]. *)

From stdpp Require Import base list strings sorting.
From Stdlib Require Import ZArith Lia Sorted Permutation.

Open Scope Z_scope.

(** ** Fixed-width integers *)

Module Int.

(** Two's complement value of [z] in a signed integer of [bits] bits. *)
Definition wrap (bits : Z) (z : Z) : Z :=
  (z + 2 ^ (bits - 1)) mod 2 ^ bits - 2 ^ (bits - 1).

Definition int64 (z : Z) : Z := wrap 64 z.
Definition int32 (z : Z) : Z := wrap 32 z.

Definition min_int64 : Z := - 2 ^ 63.
Definition max_int64 : Z := 2 ^ 63 - 1.

Definition in_int64 (z : Z) : Prop := min_int64 <= z <= max_int64.
Definition in_int32 (z : Z) : Prop := - 2 ^ 31 <= z <= 2 ^ 31 - 1.

(** The values of a [datetime64[ns]] that are times: every [int64] but the
    smallest, which is [NaT]. *)
Definition is_timestamp (z : Z) : Prop := min_int64 < z <= max_int64.

(** [a - b] on [int64] operands, as NumPy computes it (silent wrap). *)
Definition sub64 (a b : Z) : Z := int64 (a - b).

End Int.

(** ** Exceptions

    A step of a script either returns a value or raises; [Raise e n] is
    the exception [e] raised by line [n] of the script. *)

Inductive exn : Type := ValueError | TypeError.

Inductive result (A : Type) : Type :=
  | Ok (a : A)
  | Raise (e : exn) (line : nat).

Arguments Ok {A} a.
Arguments Raise {A} e line.

(** ** Stable sorting

    pandas sorts a frame on several columns through a lexicographic indexer,
    and [np.unique] sorts with [argsort(kind="mergesort")]: both sorts are
    stable.  A stable sort has one possible result; it is computed here by
    insertion, every element going in front of the first element of the
    sorted rest that is not smaller than it. *)

Section stable_sorting.
Context {A : Type} (leb : A -> A -> bool).

Fixpoint insert_sorted (x : A) (l : list A) : list A :=
  match l with
  | [] => [x]
  | y :: l' => if leb x y then x :: l else y :: insert_sorted x l'
  end.

Definition stable_sort (l : list A) : list A := foldr insert_sorted [] l.

(** Two elements that the order does not tell apart. *)
Definition tied (x y : A) : Prop := leb x y = true /\ leb y x = true.

(** The elements that open a run of equal neighbours ([eqb] compares an
    element with its predecessor): the mask
    [mask[:1] = True; mask[1:] = aux[1:] != aux[:-1]] of [np.unique], and
    the first row of every group of a sorted frame. *)
Fixpoint run_heads (eqb : A -> A -> bool) (prev : option A) (l : list A) : list A :=
  match l with
  | [] => []
  | x :: l' =>
      let rest := run_heads eqb (Some x) l' in
      match prev with
      | Some p => if eqb p x then rest else x :: rest
      | None => x :: rest
      end
  end.
End stable_sorting.

(** ** NumPy primitives *)

Module Np.

(** The loop of [np.searchsorted(arr, key, side="left")] for one key:
    [while min_idx < max_idx], halve the interval, move [min_idx] past
    [mid_idx] when [arr[mid_idx] < key] and [max_idx] down to it otherwise.
    The interval shrinks at every turn, so [max_idx - min_idx] turns are
    always enough; the result is the pair of bounds at the exit. *)
Fixpoint binsearch_left (fuel : nat) (arr : list Z) (key_val : Z)
    (min_idx max_idx : nat) : nat * nat :=
  match fuel with
  | O => (min_idx, max_idx)
  | S fuel' =>
      if (min_idx <? max_idx)%nat then
        let mid_idx := (min_idx + (max_idx - min_idx) / 2)%nat in
        let mid_val := nth mid_idx arr 0 in
        if mid_val <? key_val
        then binsearch_left fuel' arr key_val (S mid_idx) max_idx
        else binsearch_left fuel' arr key_val min_idx mid_idx
      else (min_idx, max_idx)
  end.

(** The loop over the keys.  NumPy keeps the bounds of the previous search:
    when the new key is larger than the previous one only [max_idx] is
    reset, otherwise [min_idx] restarts at 0 and [max_idx] is widened by
    one. *)
Fixpoint searchsorted_loop (arr : list Z) (keys : list Z)
    (last_key_val : Z) (min_idx max_idx : nat) : list nat :=
  match keys with
  | [] => []
  | key_val :: keys' =>
      let arr_len := length arr in
      let lo := if last_key_val <? key_val then min_idx else O in
      let hi := if last_key_val <? key_val then arr_len
                else if (max_idx <? arr_len)%nat then S max_idx else arr_len in
      let '(lo', hi') := binsearch_left (hi - lo) arr key_val lo hi in
      lo' :: searchsorted_loop arr keys' key_val lo' hi'
  end.

(** [np.searchsorted(arr, keys, side="left")]. *)
Definition searchsorted (arr keys : list Z) : list nat :=
  match keys with
  | [] => []
  | k0 :: _ => searchsorted_loop arr keys k0 O (length arr)
  end.

(** [np.arange(n)]. *)
Definition arange (n : nat) : list Z := map Z.of_nat (seq 0 n).

(** [ar.argsort(kind="mergesort")], each index paired with its value. *)
Definition argsort (ar : list Z) : list (nat * Z) :=
  stable_sort (fun a b => snd a <=? snd b) (zip (seq 0 (length ar)) ar).

(** [np.unique(ar, return_index=True)]: the distinct values of [ar] in
    ascending order, and for each the index of its first occurrence. *)
Definition unique_index (ar : list Z) : list Z * list nat :=
  let perm_aux := argsort ar in
  let heads := run_heads (fun a b => snd a =? snd b) None perm_aux in
  (map snd heads, map fst heads).

(** [np.empty(n, dtype="int32")]: [n] cells holding whatever the memory
    held, [junk] standing for that content. *)
Definition empty (junk : nat -> Z) (n : nat) : list Z :=
  map (fun i => Int.int32 (junk i)) (seq 0 n).

(** [a.min()] and [a.max()]; both raise [ValueError] on an array of size
    zero, which is [None] here. *)
Definition amin (a : list Z) : option Z :=
  match a with
  | [] => None
  | x :: a' => Some (foldr Z.min x a')
  end.

Definition amax (a : list Z) : option Z :=
  match a with
  | [] => None
  | x :: a' => Some (foldr Z.max x a')
  end.

(** The [float64] that stands for the integer [z], as an integer: [z]
    itself up to [2^53] in absolute value, beyond that the nearest number
    with 53 significant bits, a tie going to the even one. *)
Definition float64_of_int (z : Z) : Z :=
  let a := Z.abs z in
  if a <=? 2 ^ 53 then z
  else
    let e := Z.log2 a - 52 in
    let q := a / 2 ^ e in
    let r := a mod 2 ^ e in
    let h := 2 ^ (e - 1) in
    let q' := if r <? h then q
              else if h <? r then q + 1
              else if Z.even q then q else q + 1 in
    Z.sgn z * (q' * 2 ^ e).

(** [a[s:e]] for [0 <= s] and [0 <= e]. *)
Definition slice {A : Type} (s e : nat) (a : list A) : list A :=
  take (e - s) (drop s a).

(** [dst[s:e] = vals] on an [int32] array, for [vals] of length [e - s]:
    the values are cast to [int32] on the way in. *)
Definition set_slice (dst : list Z) (s : nat) (vals : list Z) : list Z :=
  list_inserts s (map Int.int32 vals) dst.

End Np.

(** ** The window lengths, in nanoseconds *)

Definition _ns_1h : Z := 3600000000000.
Definition _ns_6h : Z := 21600000000000.
Definition _ns_24h : Z := 86400000000000.

(** ** Rolling counts of one zone

    The right-hand side of the three assignments in the body of the loop
    over the zones: [_local_idx - np.searchsorted(_t, _t - ns, side="left")]
    for the timestamps [_t] of one zone. *)
Definition rolling_counts (ns : Z) (_t : list Z) : list Z :=
  let _local_idx := Np.arange (length _t) in
  let keys := map (fun x => Int.sub64 x ns) _t in
  zip_with Z.sub _local_idx (map Z.of_nat (Np.searchsorted _t keys)).


(** ** Frames *)

(** A row of the raw table [pd.concat(_dfs, ignore_index=True)]; a missing
    value ([NaT], [NaN]) is [None]. *)
Record raw_trip : Type := {
  raw_pickup_datetime : option Z;
  raw_PULocationID : option Z
}.

(** A row of [_trips] once both fields are present; [label] is the index
    label of the row in its frame. *)
Record trip : Type := {
  label : nat;
  pickup_datetime : Z;
  PULocationID : Z
}.

Module Pd.

(** [pd.concat(..., ignore_index=True)] labels the rows [0 .. n-1]. *)
Definition ignore_index (raw : list raw_trip) : list (nat * raw_trip) :=
  zip (seq 0 (length raw)) raw.

(** [df.dropna(subset=["pickup_datetime", "PULocationID"])]. *)
Definition dropna (df : list (nat * raw_trip)) : list trip :=
  omap (fun '(i, r) =>
          match raw_pickup_datetime r, raw_PULocationID r with
          | Some t, Some z =>
              Some {| label := i; pickup_datetime := t; PULocationID := z |}
          | _, _ => None
          end) df.

(** The dtype of the zone column.  The parquet files hold integers;
    pandas keeps a column of integers as [int64] as long as no value is
    missing, and as [float64] as soon as one is. *)
Inductive dtype : Type := dt_int64 | dt_float64.

Definition zone_dtype (col : list (option Z)) : dtype :=
  if decide (None ∈ col) then dt_float64 else dt_int64.

(** What a column of dtype [d] holds for the integer [z] of the file. *)
Definition column_value (d : dtype) (z : Z) : Z :=
  match d with
  | dt_int64 => z
  | dt_float64 => Np.float64_of_int z
  end.

(** The cast of a value of a column of dtype [d] to [int32]: an [int64]
    wraps around, a [float64] outside the range of [int32] gives the
    smallest [int32]. *)
Definition to_int32 (d : dtype) (v : Z) : Z :=
  match d with
  | dt_int64 => Int.int32 v
  | dt_float64 =>
      if (- 2 ^ 31 <=? v) && (v <=? 2 ^ 31 - 1) then v else - 2 ^ 31
  end.

(** The cast of a value of a column of dtype [d] to [int], which is
    [int64]. *)
Definition to_int64 (d : dtype) (v : Z) : Z :=
  match d with
  | dt_int64 => Int.int64 v
  | dt_float64 =>
      if (Int.min_int64 <=? v) && (v <=? Int.max_int64) then v else Int.min_int64
  end.

(** [df["PULocationID"] = df["PULocationID"].astype("int32")], on a zone
    column of dtype [d]; the rows carry the integers of the file. *)
Definition astype_int32 (d : dtype) (df : list trip) : list trip :=
  map (fun r => {| label := label r;
                   pickup_datetime := pickup_datetime r;
                   PULocationID := to_int32 d (column_value d (PULocationID r)) |}) df.

(** Row order of [sort_values(["PULocationID", "pickup_datetime"])]. *)
Definition trip_leb (a b : trip) : bool :=
  (PULocationID a <? PULocationID b)
  || ((PULocationID a =? PULocationID b)
      && (pickup_datetime a <=? pickup_datetime b)).

Definition sort_values (df : list trip) : list trip := stable_sort trip_leb df.

(** [df.reset_index(drop=True)]. *)
Definition reset_index (df : list trip) : list trip :=
  imap (fun i r => {| label := i;
                      pickup_datetime := pickup_datetime r;
                      PULocationID := PULocationID r |}) df.

(** [series.dt.normalize()] on one timestamp: the midnight of its day.
    On 1677-09-21, the first day pandas can hold, that midnight is below
    the range of [int64] and the call raises [ValueError], which is [None]
    here.  On a column the call raises when it does on one of its
    timestamps: [mapM normalize]. *)
Definition day_ns : Z := 86400000000000.
Definition floor_day (t : Z) : Z := t - t mod day_ns.
Definition normalize (t : Z) : option Z :=
  if Int.min_int64 <=? floor_day t then Some (floor_day t) else None.

End Pd.

(** ** Steps 1 and 2: clean-up and sort *)

(** What the script prints about the number of trips: a text and a
    number for each of its three prints of a row count of [_trips]. *)
Definition report : Type := list (string * Z).

(** Lines 22 to 27: the table is concatenated, its size printed, and the
    rows with a missing field dropped. *)
Definition load_and_clean (raw : list raw_trip) : report * list trip :=
  let _trips := Pd.ignore_index raw in
  let out := [("Total trips loaded"%string, Z.of_nat (length _trips))] in
  let d := Pd.zone_dtype (map raw_PULocationID raw) in
  (out, Pd.astype_int32 d (Pd.dropna _trips)).

(** Line 30. *)
Definition sort_by_zone_and_time (_trips : list trip) : list trip :=
  Pd.reset_index (Pd.sort_values _trips).

(** ** Step 3: zone boundaries and rolling counts *)

Definition _zone_starts (_zone : list Z) : list nat := snd (Np.unique_index _zone).

Definition _zone_ends (_zone : list Z) : list nat :=
  drop 1 (_zone_starts _zone) ++ [length _zone].

Record rolling_arrays : Type := {
  _r1h : list Z;
  _r6h : list Z;
  _r24h : list Z
}.

(** The body of [for _zi in range(len(_zone_starts))]. *)
Definition zone_step (_ts : list Z) (st : rolling_arrays) (se : nat * nat) : rolling_arrays :=
  let '(_s, _e) := se in
  let _t := Np.slice _s _e _ts in
  {| _r1h := Np.set_slice (_r1h st) _s (rolling_counts _ns_1h _t);
     _r6h := Np.set_slice (_r6h st) _s (rolling_counts _ns_6h _t);
     _r24h := Np.set_slice (_r24h st) _s (rolling_counts _ns_24h _t) |}.

(** Lines 36 to 58; [junk1], [junk6] and [junk24] are the contents of the
    three arrays that [np.empty] hands out. *)
Definition rolling_features (junk1 junk6 junk24 : nat -> Z) (_trips : list trip) : rolling_arrays :=
  let _ts := map pickup_datetime _trips in
  let _zone := map PULocationID _trips in
  let n := length _trips in
  fold_left (zone_step _ts)
    (zip (_zone_starts _zone) (_zone_ends _zone))
    {| _r1h := Np.empty junk1 n; _r6h := Np.empty junk6 n; _r24h := Np.empty junk24 n |}.

(** Lines 65 to 67: each line prints the smallest and the largest value of
    one of the three arrays. *)
Definition print_range (line : nat) (a : list Z) : result (Z * Z) :=
  match Np.amin a, Np.amax a with
  | Some lo, Some hi => Ok (lo, hi)
  | _, _ => Raise ValueError line
  end.

Definition print_ranges (r : rolling_arrays) : result unit :=
  match print_range 65 (_r1h r) with
  | Raise e n => Raise e n
  | Ok _ =>
      match print_range 66 (_r6h r) with
      | Raise e n => Raise e n
      | Ok _ =>
          match print_range 67 (_r24h r) with
          | Raise e n => Raise e n
          | Ok _ => Ok tt
          end
      end
  end.

(** A row of [_trips] with its three counts and its date (lines 60 to 72). *)
Record trip_features : Type := {
  tf_pickup_datetime : Z;
  tf_PULocationID : Z;
  rolling_1h : Z;
  rolling_6h : Z;
  rolling_24h : Z;
  date : Z
}.

Definition with_features (_trips : list trip) (r : rolling_arrays) (_date : list Z)
    : list trip_features :=
  imap (fun i row =>
          {| tf_pickup_datetime := pickup_datetime row;
             tf_PULocationID := PULocationID row;
             rolling_1h := nth i (_r1h r) 0;
             rolling_6h := nth i (_r6h r) 0;
             rolling_24h := nth i (_r24h r) 0;
             date := nth i _date 0 |}) _trips.

(** ** Step 4: daily summaries

    The means are floating-point numbers; the reduction of a group to its
    mean and the rounding to two decimals are taken as two functions
    [mean] and [round2] on a type [F] of floats. *)

Definition group_key (r : trip_features) : Z * Z := (date r, tf_PULocationID r).

Definition key_leb (a b : Z * Z) : bool :=
  (a.1 <? b.1) || ((a.1 =? b.1) && (a.2 <=? b.2)).

Definition key_eqb (a b : Z * Z) : bool := (a.1 =? b.1) && (a.2 =? b.2).

(** The keys of [groupby(["date", "PULocationID"], sort=True)]: every
    (date, zone) pair that occurs, once, in ascending order. *)
Definition group_keys (rows : list trip_features) : list (Z * Z) :=
  run_heads key_eqb None (stable_sort key_leb (map group_key rows)).

Definition group (rows : list trip_features) (k : Z * Z) : list trip_features :=
  filter (fun r => group_key r = k) rows.

Definition sum_Z (l : list Z) : Z := foldr Z.add 0 l.

Section daily.
Context {F : Type} (mean : list Z -> F) (round2 : F -> F).

Record daily_row : Type := {
  ds_date : Z;
  zone : Z;
  daily_trips : Z;
  rolling_1h_mean : F;
  rolling_6h_mean : F;
  rolling_24h_mean : F
}.

(** Lines 74 to 89. *)
Definition daily_zone_features (rows : list trip_features) : list daily_row :=
  map (fun k =>
         let g := group rows k in
         {| ds_date := k.1;
            zone := k.2;
            daily_trips := Z.of_nat (length g);
            rolling_1h_mean := round2 (mean (map rolling_1h g));
            rolling_6h_mean := round2 (mean (map rolling_6h g));
            rolling_24h_mean := round2 (mean (map rolling_24h g)) |})
      (group_keys rows).

(** Lines 36 to 104, on the sorted frame: the rolling counts, the line
    that reports them, the three lines that print their ranges, the
    dates, the daily table and its total.  [out] is what has been
    printed about the number of trips so far; the run ends with the daily
    table or with the exception that stopped it. *)
Definition summarise (junk1 junk6 junk24 : nat -> Z) (out : report) (_trips : list trip)
    : report * result (list daily_row) :=
  let r := rolling_features junk1 junk6 junk24 _trips in
  let out := out ++ [("Trip-level rolling features computed for"%string,
                      Z.of_nat (length _trips))] in
  match print_ranges r with
  | Raise e n => (out, Raise e n)
  | Ok _ =>
      match mapM Pd.normalize (map pickup_datetime _trips) with
      | None => (out, Raise ValueError 72)
      | Some _date =>
          let daily := daily_zone_features (with_features _trips r _date) in
          (out ++ [("Total trips"%string, sum_Z (map daily_trips daily))], Ok daily)
      end
  end.

(** The whole script, from the raw table on. *)
Definition pipeline (junk1 junk6 junk24 : nat -> Z) (raw : list raw_trip)
    : report * result (list daily_row) :=
  let '(out, _trips) := load_and_clean raw in
  summarise junk1 junk6 junk24 out (sort_by_zone_and_time _trips).
End daily.

Arguments daily_row : clear implicits.

(** ** Notions used in the statements *)

(** Lexicographic order on pairs, the order of both sorts of the script:
    (zone, pickup time) for the frame, (date, zone) for the daily rows. *)
Definition lex_le (a b : Z * Z) : Prop := a.1 < b.1 \/ (a.1 = b.1 /\ a.2 <= b.2).
Definition lex_lt (a b : Z * Z) : Prop := a.1 < b.1 \/ (a.1 = b.1 /\ a.2 < b.2).

Definition trip_key (r : trip) : Z * Z := (PULocationID r, pickup_datetime r).

(** Number of elements of [a] below [x]. *)
Definition count_lt (x : Z) (a : list Z) : nat :=
  length (filter (fun y => y < x) a).

(** Number of events in front of index [i] whose timestamp is at least
    [lo]. *)
Definition prior_from (lo : Z) (t : list Z) (i : nat) : nat :=
  length (filter (fun y => lo <= y) (take i t)).

(** The configured windows. *)
Definition windows : list Z := [_ns_1h; _ns_6h; _ns_24h].

(** The count the specification describes: the events of the zone whose
    timestamp lies in [(x - w, x]], the event at [x] included. *)
Definition spec_window_count (w : Z) (t : list Z) (x : Z) : nat :=
  length (filter (fun y => x - w < y /\ y <= x) t).

(** The lower bound the specification describes: the smallest index [j]
    with [t[j] >= x], the length of [t] when there is none. *)
Definition spec_lower_bound (x : Z) (t : list Z) : nat :=
  match list_find (fun y => x <= y) t with
  | Some (j, _) => j
  | None => length t
  end.

(** A raw record with both fields present. *)
Definition complete (r : raw_trip) : Prop :=
  is_Some (raw_pickup_datetime r) /\ is_Some (raw_PULocationID r).

(** Number of raw records that the clean-up drops. *)
Definition dropped_rows (raw : list raw_trip) : nat :=
  length (filter (fun r => ~ complete r) raw).

(** Consecutive index ranges [(a, b); (b, c); ...] from [a] up to [c],
    none of them empty. *)
Inductive chain : nat -> list (nat * nat) -> nat -> Prop :=
  | chain_nil a : chain a [] a
  | chain_cons a b rs c :
      (a < b)%nat -> chain b rs c -> chain a ((a, b) :: rs) c.

(** The indices a range covers. *)
Definition range_indices (se : nat * nat) : list nat := seq se.1 (se.2 - se.1).

(** The zone boundaries of a frame. *)
Definition zone_ranges (_trips : list trip) : list (nat * nat) :=
  let _zone := map PULocationID _trips in
  zip (_zone_starts _zone) (_zone_ends _zone).

(** The value in front of position [k] of [l], [prev] in front of the
    first. *)
Definition before (prev : option Z) (l : list Z) (k : nat) : option Z :=
  match k with
  | O => prev
  | S k' => l !! k'
  end.

(** The run heads of [l], numbered from [off], after a value [prev]. *)
Definition heads (off : nat) (prev : option (nat * Z)) (l : list Z) : list nat :=
  map fst (run_heads (fun a b => snd a =? snd b) prev (zip (seq off (length l)) l)).

(** The counts of one zone as they are stored in the [int32] arrays. *)
Definition zone_counts (ns : Z) (_ts : list Z) (se : nat * nat) : list Z :=
  map Int.int32 (rolling_counts ns (Np.slice se.1 se.2 _ts)).

(** The effect of [zone_step] on one of the three arrays. *)
Definition zone_step_array (ns : Z) (_ts : list Z) (r : list Z) (se : nat * nat) : list Z :=
  Np.set_slice r se.1 (rolling_counts ns (Np.slice se.1 se.2 _ts)).

(** ** Further notions

    Number of rows in front of row [g] of a frame that have the zone of
    [row] and a pickup time of at least [lo]. *)
Definition prior_trips (lo : Z) (frame : list trip) (g : nat) (row : trip) : nat :=
  length (filter (fun r => PULocationID r = PULocationID row /\ lo <= pickup_datetime r)
            (take g frame)).

(** The (date, zone) key of a trip, and the number of trips of a table
    that fall on date [d] in zone [z]. *)
Definition day_key (e : trip) : Z * Z := (Pd.floor_day (pickup_datetime e), PULocationID e).

Definition trips_on (d z : Z) (trips : list trip) : nat :=
  length (filter (fun e => Pd.floor_day (pickup_datetime e) = d /\ PULocationID e = z) trips).

(** A pickup time on 1677-09-21, the day whose midnight [int64] cannot
    hold. *)
Definition on_first_day (t : Z) : Prop := Pd.floor_day t < Int.min_int64.

(** ** [load_and_aggregate.py]

    The daily ride counts per zone, straight from the raw table. *)

Record daily_count : Type := {
  dc_date : Z;
  LocationID : Z;
  ride_count : Z
}.

(** Line 28 on one row: the date of a pickup time; a missing pickup time
    has a missing date, and the first day raises as in [Pd.normalize]. *)
Definition raw_date (t : option Z) : option (option Z) :=
  match t with
  | None => Some None
  | Some t' => Some <$> Pd.normalize t'
  end.

(** The group key of a row (line 32) in a table whose zone column has
    dtype [d]; a row whose date or zone is missing has none, and [groupby]
    leaves such a row out. *)
Definition group_key_of (d : Pd.dtype) (row : option Z * option Z) : option (Z * Z) :=
  match row with
  | (Some dt, Some z) => Some (dt, Pd.column_value d z)
  | _ => None
  end.

(** Lines 28 to 38: the dates, then [groupby(["date", "PULocationID"]).size()],
    one row per key in ascending order, the zone then cast with
    [astype(int)]. *)
Definition daily_zone_counts (trips_raw : list raw_trip) : result (list daily_count) :=
  match mapM raw_date (map raw_pickup_datetime trips_raw) with
  | None => Raise ValueError 28
  | Some _date =>
      let d := Pd.zone_dtype (map raw_PULocationID trips_raw) in
      let keys := omap (group_key_of d) (zip _date (map raw_PULocationID trips_raw)) in
      Ok (map (fun k =>
                 {| dc_date := k.1;
                    LocationID := Pd.to_int64 d k.2;
                    ride_count := Z.of_nat (length (filter (fun k' => k' = k) keys)) |})
              (run_heads key_eqb None (stable_sort key_leb keys)))
  end.

(** A raw row whose pickup time is on the first day. *)
Definition pickup_on_first_day (r : raw_trip) : Prop :=
  match raw_pickup_datetime r with
  | Some t => on_first_day t
  | None => False
  end.

(** The group key of a complete raw row, when line 28 raises on no row. *)
Definition raw_day_key (d : Pd.dtype) (r : raw_trip) : option (Z * Z) :=
  match raw_pickup_datetime r, raw_PULocationID r with
  | Some t, Some z => Some (Pd.floor_day t, Pd.column_value d z)
  | _, _ => None
  end.

(** ** [forecast_top10_zones.py]

    The feature frame of one zone and its walk-forward split.  The script
    reads the daily table of the rolling-features script (columns [date],
    [zone], [daily_trips] and the three means).  The calendar accessors of
    pandas and the test for a missing float are parameters. *)

Definition TEST_DAYS : nat := 14.

(** [series.shift(k)]: every value moves [k] rows down, the first [k] rows
    get a missing value. *)
Definition shift (k : nat) (col : list Z) : list (option Z) :=
  take (length col) (replicate k None ++ map Some col).

Section forecast.
Context {F : Type} (isna : F -> bool) (dayofweek day month isoweek : Z -> Z).

Record zone_features : Type := {
zf_daily : daily_row F;
dow : Z;
dom : Z;
zf_month : Z;
woy : Z;
lag_1 : option Z;
lag_7 : option Z;
lag_14 : option Z
}.

(** [df.sort_values("date")].  The rows of one zone have distinct dates,
  and then every sort returns this list. *)
Definition sort_by_date (df : list (daily_row F)) : list (daily_row F) :=
stable_sort (fun a b => ds_date a <=? ds_date b) df.

(** Lines 31 to 40. *)
Definition make_zone_features (df : list (daily_row F)) : list zone_features :=
let df := sort_by_date df in
let trips := map daily_trips df in
imap (fun i r =>
        {| zf_daily := r;
           dow := dayofweek (ds_date r);
           dom := day (ds_date r);
           zf_month := month (ds_date r);
           woy := isoweek (ds_date r);
           lag_1 := mjoin (shift 1 trips !! i);
           lag_7 := mjoin (shift 7 trips !! i);
           lag_14 := mjoin (shift 14 trips !! i) |}) df.

(** A row that [dropna(subset=FEATURE_COLS)] keeps: the calendar columns
  are never missing, the lags and the means may be. *)
Definition has_all_features (r : zone_features) : bool :=
bool_decide (is_Some (lag_1 r)) && bool_decide (is_Some (lag_7 r))
&& bool_decide (is_Some (lag_14 r))
&& negb (isna (rolling_1h_mean (zf_daily r)))
&& negb (isna (rolling_6h_mean (zf_daily r)))
&& negb (isna (rolling_24h_mean (zf_daily r))).

(** Lines 86 and 87: the frame [_zdf] of zone [_z]. *)
Definition zone_frame (daily : list (daily_row F)) (_z : Z) : list zone_features :=
filter (fun r => has_all_features r = true)
  (make_zone_features (filter (fun d => zone d = _z) daily)).

Definition zf_date (r : zone_features) : Z := ds_date (zf_daily r).

(** A daily row whose three means are present. *)
Definition means_present (d : daily_row F) : Prop :=
isna (rolling_1h_mean d) = false
/\ isna (rolling_6h_mean d) = false
/\ isna (rolling_24h_mean d) = false.

(** What the loop does with a zone before it trains: it skips the zone,
  or it splits the frame, or the subtraction of the thirteen days leaves
  the range of a pandas timestamp and raises. *)
Inductive split_result : Type :=
| Skipped
| Split (_train _test : list zone_features)
| OutOfBounds.

(** Lines 89 to 97. *)
Definition walk_forward_split (_zdf : list zone_features) : split_result :=
if (length _zdf <? TEST_DAYS + 15)%nat then Skipped
else
  let _cutoff := foldr Z.max Int.min_int64 (map zf_date _zdf)
                 - Z.of_nat (TEST_DAYS - 1) * Pd.day_ns in
  if bool_decide (Int.is_timestamp _cutoff) then
    let _train := filter (fun r => zf_date r < _cutoff) _zdf in
    let _test := filter (fun r => _cutoff <= zf_date r) _zdf in
    if (length _train <? 10)%nat || (length _test <? 1)%nat then Skipped
    else Split _train _test
  else OutOfBounds.
End forecast.

Arguments zone_features : clear implicits.
Arguments split_result : clear implicits.

(** Forty-five daily rows of zone 132, one per day from 2025-01-01 on, the
    day [i] with [i] trips: the example the statements on the forecast
    frame are tried on. *)
Definition forty_five_days : list (daily_row unit) :=
  map (fun i => {| ds_date := (20089 + Z.of_nat i) * Pd.day_ns;
                   zone := 132;
                   daily_trips := Z.of_nat i;
                   rolling_1h_mean := tt;
                   rolling_6h_mean := tt;
                   rolling_24h_mean := tt |}) (seq 0 45).

(** ** [build_animated_choropleth.py]

    The polygons of the zones, read from the shape records.  A point is a
    pair of floats; nothing here looks inside it. *)

(** A Python [dict] with integer keys: the (key, value) pairs in the order
    of their first insertion.  [d[k] = v] replaces the value of [k] where
    it stands, or adds the pair at the end. *)
Fixpoint dict_set {V : Type} (k : Z) (v : V) (d : list (Z * V)) : list (Z * V) :=
  match d with
  | [] => [(k, v)]
  | (k', v') :: d' =>
      if decide (k = k') then (k, v) :: d' else (k', v') :: dict_set k v d'
  end.

Fixpoint dict_get {V : Type} (k : Z) (d : list (Z * V)) : option V :=
  match d with
  | [] => None
  | (k', v') :: d' => if decide (k = k') then Some v' else dict_get k d'
  end.

(** The [LocationID] of a record: the record has no such field, or the
    field is empty, which the reader returns as [None], or it holds a
    number. *)
Inductive field : Type :=
  | NoField
  | Null
  | Number (z : Z).

#[global] Instance field_eq_dec : EqDecision field.
Proof. solve_decision. Defined.

Section choropleth.
Context {P : Type}.

(** What the loop reads of a shape record: what [rec.get("LocationID", 0)]
  finds in its record, and the points and the parts of its shape. *)
Record shape_record : Type := {
rec_LocationID : field;
shape_points : list P;
shape_parts : list nat
}.

(** Line 31: [int(rec.get("LocationID", 0))].  A record without the field
  gets the default 0, and [int(None)] raises [TypeError]. *)
Definition loc_id (sr : shape_record) : result Z :=
match rec_LocationID sr with
| NoField => Ok 0
| Null => Raise TypeError 31
| Number z => Ok z
end.

(** Lines 33 to 35: the points cut at the starts of the parts. *)
Definition shape_rings (sr : shape_record) : list (list P) :=
let pts := shape_points sr in
let parts := shape_parts sr ++ [length pts] in
map (fun i => Np.slice (nth i parts O) (nth (S i) parts O) pts)
    (seq 0 (length parts - 1)).

(** The body of the loop over the shape records, lines 30 to 37. *)
Definition add_shape (d : list (Z * list (list P))) (sr : shape_record)
  : result (list (Z * list (list P))) :=
match loc_id sr with
| Raise e n => Raise e n
| Ok id =>
    let rings := shape_rings sr in
    match rings with
    | [] => Ok d
    | _ :: _ => Ok (dict_set id rings d)
    end
end.

Fixpoint add_shapes (d : list (Z * list (list P))) (srs : list shape_record)
  : result (list (Z * list (list P))) :=
match srs with
| [] => Ok d
| sr :: srs' =>
    match add_shape d sr with
    | Raise e n => Raise e n
    | Ok d' => add_shapes d' srs'
    end
end.

(** Lines 27 to 37. *)
Definition zone_polygons (srs : list shape_record) : result (list (Z * list (list P))) :=
add_shapes [] srs.

(** The zone a record is stored under, as the record says it. *)
Definition stored_under (id : Z) (sr : shape_record) : Prop :=
rec_LocationID sr = Number id \/ (rec_LocationID sr = NoField /\ id = 0).

#[global] Instance stored_under_dec id sr : Decision (stored_under id sr).
Proof. unfold stored_under. apply _. Defined.
End choropleth.

Arguments shape_record : clear implicits.

(** The (zone, pickup time) of a raw record as the cleaned frame holds
    it, in a table whose zone column has dtype [d]; a record with a
    missing field has none. *)
Definition raw_trip_key (d : Pd.dtype) (r : raw_trip) : option (Z * Z) :=
  match raw_pickup_datetime r, raw_PULocationID r with
  | Some t, Some z => Some (Pd.to_int32 d (Pd.column_value d z), t)
  | _, _ => None
  end.

(** * Proofs *)

(** ** Binary search on a sorted array *)

Lemma count_lt_cons x y a :
  count_lt x (y :: a) = if decide (y < x) then S (count_lt x a) else count_lt x a.
Proof. unfold count_lt. rewrite filter_cons. by destruct (decide (y < x)). Qed.

Lemma count_lt_app x a b : count_lt x (a ++ b) = (count_lt x a + count_lt x b)%nat.
Proof. unfold count_lt. by rewrite filter_app, length_app. Qed.

Lemma count_lt_le_length x a : (count_lt x a <= length a)%nat.
Proof. apply length_filter. Qed.

Lemma count_lt_none x a : Forall (fun y => x <= y) a -> count_lt x a = O.
Proof.
  induction 1 as [|y a Hy _ IH]; [done|].
  rewrite count_lt_cons, IH. destruct (decide (y < x)); [lia|done].
Qed.

Lemma count_lt_all x a : Forall (fun y => y < x) a -> count_lt x a = length a.
Proof.
  induction 1 as [|y a Hy _ IH]; [done|].
  rewrite count_lt_cons, IH. destruct (decide (y < x)); [done|lia].
Qed.

Lemma count_lt_mono x x' a : x <= x' -> (count_lt x a <= count_lt x' a)%nat.
Proof.
  intros Hx. induction a as [|y a IH]; [done|].
  rewrite !count_lt_cons.
  destruct (decide (y < x)), (decide (y < x')); lia.
Qed.

(** In a sorted array the elements below [x] are exactly those in front of
    index [count_lt x a]. *)
Lemma sorted_nth_lt x a j :
  StronglySorted Z.le a -> (j < length a)%nat ->
  nth j a 0 < x <-> (j < count_lt x a)%nat.
Proof.
  intros Hs. revert j. induction Hs as [|y a Hs IH Hy]; intros j Hj; [simpl in Hj; lia|].
  rewrite count_lt_cons. destruct j as [|j]; simpl in *.
  - destruct (decide (y < x)); [lia|].
    split; [lia|]. intros Hlt. exfalso.
    rewrite count_lt_none in Hlt; [lia|].
    eapply Forall_impl; [exact Hy|]. simpl. lia.
  - rewrite IH by lia. destruct (decide (y < x)); [lia|].
    rewrite count_lt_none; [lia|].
    eapply Forall_impl; [exact Hy|]. simpl. lia.
Qed.

Lemma midpoint_bounds (lo hi : nat) :
  (lo < hi)%nat -> (lo <= lo + (hi - lo) / 2 < hi)%nat.
Proof.
  intros H. split; [lia|].
  assert ((hi - lo) / 2 < hi - lo)%nat by (apply Nat.div_lt; lia). lia.
Qed.

Lemma binsearch_left_step fuel arr key lo hi :
  Np.binsearch_left (S fuel) arr key lo hi =
  if (lo <? hi)%nat then
    if nth (lo + (hi - lo) / 2)%nat arr 0 <? key
    then Np.binsearch_left fuel arr key (S (lo + (hi - lo) / 2)) hi
    else Np.binsearch_left fuel arr key lo (lo + (hi - lo) / 2)%nat
  else (lo, hi).
Proof. reflexivity. Qed.

(** The search ends on the number of elements below the key, whatever the
    bounds it starts from, as long as they enclose that number. *)
Lemma binsearch_left_sorted fuel arr key lo hi :
  StronglySorted Z.le arr ->
  (lo <= count_lt key arr <= hi)%nat -> (hi <= length arr)%nat ->
  (hi - lo <= fuel)%nat ->
  Np.binsearch_left fuel arr key lo hi = (count_lt key arr, count_lt key arr).
Proof.
  intros Hs. revert lo hi. induction fuel as [|fuel IH]; intros lo hi HL Hhi Hfuel.
  - simpl. f_equal; lia.
  - rewrite binsearch_left_step.
    destruct (Nat.ltb_spec lo hi) as [Hlt|Hge]; [|f_equal; lia].
    pose proof (midpoint_bounds lo hi Hlt) as Hmid.
    generalize dependent (lo + (hi - lo) / 2)%nat. intros mid Hmid.
    pose proof (sorted_nth_lt key arr mid Hs ltac:(lia)) as Hnth.
    destruct (Z.ltb_spec (nth mid arr 0) key) as [Hk|Hk]; apply IH; lia.
Qed.

(** On any array, sorted or not, the search has left its loop when it
    returns, its two bounds having met: [max_idx - min_idx] turns are
    enough. *)
Lemma binsearch_left_exits fuel arr key lo hi :
  (lo <= hi)%nat -> (hi - lo <= fuel)%nat ->
  (Np.binsearch_left fuel arr key lo hi).1 = (Np.binsearch_left fuel arr key lo hi).2.
Proof.
  revert lo hi. induction fuel as [|fuel IH]; intros lo hi Hle Hfuel.
  - simpl. lia.
  - rewrite binsearch_left_step.
    destruct (Nat.ltb_spec lo hi) as [Hlt|Hge]; [|simpl; lia].
    pose proof (midpoint_bounds lo hi Hlt) as Hmid.
    generalize dependent (lo + (hi - lo) / 2)%nat. intros mid Hmid.
    destruct (nth mid arr 0 <? key); apply IH; lia.
Qed.

Lemma searchsorted_loop_sorted arr keys last lo hi :
  StronglySorted Z.le arr ->
  (lo <= count_lt last arr <= hi)%nat -> (hi <= length arr)%nat ->
  Np.searchsorted_loop arr keys last lo hi = map (fun k => count_lt k arr) keys.
Proof.
  intros Hs. revert last lo hi.
  induction keys as [|k keys IH]; intros last lo hi HL Hhi; [done|].
  cbn [Np.searchsorted_loop map].
  pose proof (count_lt_le_length k arr) as Hk.
  rewrite (binsearch_left_sorted _ arr k) ; try done.
  - f_equal. apply IH; lia.
  - destruct (Z.ltb_spec last k) as [Hlt|Hge].
    + pose proof (count_lt_mono last k arr ltac:(lia)). lia.
    + pose proof (count_lt_mono k last arr Hge).
      destruct (Nat.ltb_spec hi (length arr)); lia.
  - destruct (Z.ltb_spec last k); [lia|].
    destruct (Nat.ltb_spec hi (length arr)); lia.
Qed.

Lemma searchsorted_sorted arr keys :
  StronglySorted Z.le arr ->
  Np.searchsorted arr keys = map (fun k => count_lt k arr) keys.
Proof.
  intros Hs. destruct keys as [|k keys]; [done|].
  unfold Np.searchsorted. apply searchsorted_loop_sorted; [done| |done].
  pose proof (count_lt_le_length k arr). lia.
Qed.

(** ** Rolling counts of one zone *)

Lemma int64_id z : Int.in_int64 z -> Int.int64 z = z.
Proof.
  unfold Int.in_int64, Int.min_int64, Int.max_int64, Int.int64, Int.wrap.
  intros H. change (2 ^ (64 - 1)) with 9223372036854775808 in *.
  change (2 ^ 63) with 9223372036854775808 in *.
  change (2 ^ 64) with 18446744073709551616.
  rewrite Z.mod_small; lia.
Qed.

Lemma int32_id z : Int.in_int32 z -> Int.int32 z = z.
Proof.
  unfold Int.in_int32, Int.int32, Int.wrap.
  intros H. change (2 ^ (32 - 1)) with 2147483648 in *.
  change (2 ^ 31) with 2147483648 in *.
  change (2 ^ 32) with 4294967296.
  rewrite Z.mod_small; lia.
Qed.

Lemma searchsorted_loop_length arr keys last lo hi :
  length (Np.searchsorted_loop arr keys last lo hi) = length keys.
Proof.
  revert last lo hi. induction keys as [|k keys IH]; intros last lo hi; [done|].
  cbn [Np.searchsorted_loop].
  destruct (Np.binsearch_left _ arr k _ _) as [lo' hi'].
  simpl. by rewrite IH.
Qed.

Lemma searchsorted_length arr keys : length (Np.searchsorted arr keys) = length keys.
Proof. destruct keys; [done|]. apply searchsorted_loop_length. Qed.

Lemma arange_length n : length (Np.arange n) = n.
Proof. unfold Np.arange. by rewrite length_map, length_seq. Qed.

Lemma arange_lookup n i : (i < n)%nat -> Np.arange n !! i = Some (Z.of_nat i).
Proof.
  intros Hi. unfold Np.arange. rewrite list_lookup_fmap, lookup_seq_lt by done. done.
Qed.

(** One count per event, sorted timestamps or not. *)
Lemma rolling_counts_length ns t : length (rolling_counts ns t) = length t.
Proof.
  unfold rolling_counts.
  rewrite length_zip_with, arange_length, length_map, searchsorted_length, length_map.
  lia.
Qed.

(** On sorted timestamps the count at index [i] is [i] minus the number of
    timestamps below the (wrapped) left end of the window. *)
Lemma rolling_counts_lookup ns t i x :
  StronglySorted Z.le t -> t !! i = Some x ->
  rolling_counts ns t !! i
  = Some (Z.of_nat i - Z.of_nat (count_lt (Int.sub64 x ns) t)).
Proof.
  intros Hs Hx. unfold rolling_counts.
  rewrite searchsorted_sorted by done.
  rewrite lookup_zip_with.
  rewrite arange_lookup by (by eapply lookup_lt_Some).
  rewrite !list_lookup_fmap, Hx. done.
Qed.

Lemma count_lt_prior lo t i x :
  StronglySorted Z.le t -> t !! i = Some x -> lo <= x ->
  (count_lt lo t + prior_from lo t i = i)%nat.
Proof.
  intros Hs Hx Hlo.
  rewrite <- (take_drop i t) in Hs |- * at 1.
  pose proof (StronglySorted_app_1_r _ _ _ Hs) as Hd.
  rewrite count_lt_app, (count_lt_none lo (drop i t)).
  - unfold count_lt, prior_from.
    pose proof (lookup_lt_Some _ _ _ Hx).
    assert (length (take i t) = i) as Hlen by (rewrite length_take; lia).
    rewrite <- Hlen at 3. clear.
    induction (take i t) as [|y l IH]; [done|].
    rewrite !filter_cons. destruct (decide (y < lo)), (decide (lo <= y)); simpl; lia.
  - rewrite (drop_S _ _ _ Hx) in Hd |- *.
    apply StronglySorted_inv in Hd as [_ Hall].
    constructor; [done|]. eapply Forall_impl; [exact Hall|]. simpl. lia.
Qed.

Lemma count_lt_lower_bound x t :
  StronglySorted Z.le t -> count_lt x t = spec_lower_bound x t.
Proof.
  intros Hs. unfold spec_lower_bound.
  destruct (list_find _ t) as [[j y]|] eqn:Hfind.
  - apply list_find_Some in Hfind as (Hj & Hy & Hbefore).
    rewrite <- (take_drop j t) in Hs |- * at 1.
    rewrite count_lt_app, (count_lt_none x (drop j t)), count_lt_all.
    + pose proof (lookup_lt_Some _ _ _ Hj). rewrite length_take. lia.
    + apply Forall_lookup. intros k z Hk.
      rewrite lookup_take_Some in Hk. destruct Hk as [Hk Hlt].
      specialize (Hbefore k z Hk Hlt). simpl in Hbefore. lia.
    + pose proof (StronglySorted_app_1_r _ _ _ Hs) as Hd.
      rewrite (drop_S _ _ _ Hj) in Hd |- *.
      apply StronglySorted_inv in Hd as [_ Hall].
      constructor; [done|]. eapply Forall_impl; [exact Hall|]. simpl. lia.
  - apply list_find_None in Hfind. apply count_lt_all.
    eapply Forall_impl; [exact Hfind|]. simpl. lia.
Qed.


(** ** The claims on the rolling counts of one zone *)

Lemma prior_from_le lo t i : (prior_from lo t i <= i)%nat.
Proof.
  unfold prior_from.
  etrans; [apply length_filter|]. rewrite length_take. lia.
Qed.

Lemma rolling_counts_prior ns t i x :
  StronglySorted Z.le t -> 0 <= ns -> Int.in_int64 (x - ns) -> t !! i = Some x ->
  rolling_counts ns t !! i = Some (Z.of_nat (prior_from (x - ns) t i)).
Proof.
  intros Hs Hns Hrange Hx.
  rewrite (rolling_counts_lookup ns t i x) by done.
  unfold Int.sub64. rewrite int64_id by done.
  pose proof (count_lt_prior (x - ns) t i x Hs Hx ltac:(lia)).
  f_equal. lia.
Qed.

(** C10, amended.  On sorted timestamps, for a window [ns >= 0] whose left
    end [x - ns] is representable in [int64], the count of the event at
    local index [i] with timestamp [x] is the number of strictly earlier
    events of the zone with a timestamp [>= x - ns]; it lies between 0 and
    [i], and it is 0 for the first event of the zone. *)
Theorem rolling_count_is_prior_events ns t i x :
  StronglySorted Z.le t -> 0 <= ns -> Int.in_int64 (x - ns) -> t !! i = Some x ->
  exists c, rolling_counts ns t !! i = Some c
    /\ c = Z.of_nat (prior_from (x - ns) t i)
    /\ 0 <= c <= Z.of_nat i
    /\ (i = O -> c = 0).
Proof.
  intros Hs Hns Hrange Hx. eexists. split; [by apply rolling_counts_prior|].
  pose proof (prior_from_le (x - ns) t i).
  split; [done|]. split; [lia|]. intros ->. unfold prior_from. by rewrite take_0.
Qed.

Lemma rolling_count_is_prior_events_witness :
  exists c, rolling_counts _ns_1h
      [1735689600000000000; 1735691400000000000; 1735693200000000000] !! 2%nat = Some c
    /\ c = Z.of_nat (prior_from (1735693200000000000 - _ns_1h)
                       [1735689600000000000; 1735691400000000000; 1735693200000000000] 2)
    /\ 0 <= c <= Z.of_nat 2
    /\ (2%nat = O -> c = 0).
Proof.
  apply (rolling_count_is_prior_events _ns_1h
           [1735689600000000000; 1735691400000000000; 1735693200000000000]
           2 1735693200000000000).
  - repeat constructor; lia.
  - unfold _ns_1h. lia.
  - unfold Int.in_int64, Int.min_int64, Int.max_int64, _ns_1h. lia.
  - reflexivity.
Defined.

(** C10 as stated fails where [x - ns] leaves [int64]: the only event of a
    zone, at the first timestamp pandas can hold, gets the count -1. *)
Lemma first_event_count_wraps :
  ~ (forall ns t i x c,
        ns ∈ windows -> StronglySorted Z.le t -> Forall Int.is_timestamp t ->
        t !! i = Some x -> rolling_counts ns t !! i = Some c ->
        c = Z.of_nat (prior_from (x - ns) t i) /\ c <= Z.of_nat i /\ (i = O -> c = 0)).
Proof.
  intros H.
  specialize (H _ns_1h [-9223372036854775807] O (-9223372036854775807) (-1)).
  destruct H as (_ & _ & H0).
  - unfold windows. repeat constructor.
  - repeat constructor.
  - repeat constructor; unfold Int.min_int64, Int.max_int64; lia.
  - reflexivity.
  - vm_compute. reflexivity.
  - specialize (H0 eq_refl). lia.
Qed.

(** C2, amended.  On sorted timestamps, for a window [ns >= 0] whose left
    end [x - ns] is representable in [int64], the count of the event at
    local index [i] with timestamp [x] equals [i - lower_bound(x - ns)],
    [lower_bound] being the smallest index whose timestamp is [>= x - ns],
    and that is the number of events in front of index [i] with a timestamp
    [>= x - ns]: the event itself is not counted and the left end is. *)
Theorem rolling_count_is_index_minus_lower_bound ns t i x :
  StronglySorted Z.le t -> 0 <= ns -> Int.in_int64 (x - ns) -> t !! i = Some x ->
  rolling_counts ns t !! i
    = Some (Z.of_nat i - Z.of_nat (spec_lower_bound (x - ns) t))
  /\ Z.of_nat i - Z.of_nat (spec_lower_bound (x - ns) t)
     = Z.of_nat (prior_from (x - ns) t i).
Proof.
  intros Hs Hns Hrange Hx.
  rewrite <- (count_lt_lower_bound _ _ Hs).
  pose proof (count_lt_prior (x - ns) t i x Hs Hx ltac:(lia)).
  split; [|lia].
  rewrite (rolling_counts_lookup ns t i x) by done.
  unfold Int.sub64. by rewrite int64_id.
Qed.

Lemma rolling_count_is_index_minus_lower_bound_witness :
  rolling_counts _ns_6h [1735689600000000000; 1735700000000000000; 1735720000000000000] !! 2%nat
    = Some (Z.of_nat 2 - Z.of_nat (spec_lower_bound (1735720000000000000 - _ns_6h)
              [1735689600000000000; 1735700000000000000; 1735720000000000000]))
  /\ Z.of_nat 2 - Z.of_nat (spec_lower_bound (1735720000000000000 - _ns_6h)
              [1735689600000000000; 1735700000000000000; 1735720000000000000])
     = Z.of_nat (prior_from (1735720000000000000 - _ns_6h)
              [1735689600000000000; 1735700000000000000; 1735720000000000000] 2).
Proof.
  apply (rolling_count_is_index_minus_lower_bound _ns_6h
           [1735689600000000000; 1735700000000000000; 1735720000000000000]
           2 1735720000000000000).
  - repeat constructor; lia.
  - unfold _ns_6h. lia.
  - unfold Int.in_int64, Int.min_int64, Int.max_int64, _ns_6h. lia.
  - reflexivity.
Defined.

(** C2 as stated fails: the only event of a zone lies in its own window
    [(x - w, x]], yet its count is 0. *)
Lemma window_count_excludes_event :
  ~ (forall ns t i x c,
        ns ∈ windows -> StronglySorted Z.le t -> Forall Int.is_timestamp t ->
        t !! i = Some x -> rolling_counts ns t !! i = Some c ->
        c = Z.of_nat (spec_window_count ns t x)
        /\ c = Z.of_nat i - Z.of_nat (spec_lower_bound (x - ns) t)).
Proof.
  intros H.
  specialize (H _ns_1h [1735689600000000000] O 1735689600000000000 0).
  destruct H as [H _].
  - unfold windows. repeat constructor.
  - repeat constructor.
  - repeat constructor; unfold Int.min_int64, Int.max_int64; lia.
  - reflexivity.
  - vm_compute. reflexivity.
  - vm_compute in H. discriminate H.
Qed.

(** C1.  The counter leaves the event itself out, against what the claim
    and the comment on line 55 of the script ("current trip is included")
    say: in the raw table of one trip, the only event of its zone gets the
    count 0 for each of the three windows, not 1, and 0 is what the three
    arrays hold at the end of the loop. *)
Theorem single_event_count_is_zero :
  let raw :=
    [ {| raw_pickup_datetime := Some 1735689600000000000; raw_PULocationID := Some 132 |} ] in
  let frame := sort_by_zone_and_time (load_and_clean raw).2 in
  map (fun ns => rolling_counts ns (map pickup_datetime frame)) windows = [[0]; [0]; [0]]
  /\ rolling_features (fun _ => 1) (fun _ => 1) (fun _ => 1) frame
     = {| _r1h := [0]; _r6h := [0]; _r24h := [0] |}.
Proof. split; vm_compute; reflexivity. Qed.

(** C3, amended.  On sorted timestamps, for an event whose timestamp [x]
    and whose 24-hour left end [x - 24h] are representable in [int64], the
    three counts are nested: count(1h) <= count(6h) <= count(24h). *)
Theorem rolling_counts_nested t i x :
  StronglySorted Z.le t -> Int.in_int64 x -> Int.in_int64 (x - _ns_24h) ->
  t !! i = Some x ->
  exists c1 c6 c24,
    rolling_counts _ns_1h t !! i = Some c1
    /\ rolling_counts _ns_6h t !! i = Some c6
    /\ rolling_counts _ns_24h t !! i = Some c24
    /\ c1 <= c6 <= c24.
Proof.
  intros Hs Hx0 Hx24 Hx.
  unfold Int.in_int64, Int.min_int64, Int.max_int64 in Hx0, Hx24.
  do 3 eexists.
  rewrite !(rolling_counts_lookup _ t i x) by done.
  repeat split.
  - unfold Int.sub64. rewrite !int64_id
      by (unfold Int.in_int64, Int.min_int64, Int.max_int64, _ns_1h, _ns_6h, _ns_24h in *; lia).
    pose proof (count_lt_mono (x - _ns_6h) (x - _ns_1h) t
                  ltac:(unfold _ns_1h, _ns_6h; lia)). lia.
  - unfold Int.sub64. rewrite !int64_id
      by (unfold Int.in_int64, Int.min_int64, Int.max_int64, _ns_1h, _ns_6h, _ns_24h in *; lia).
    pose proof (count_lt_mono (x - _ns_24h) (x - _ns_6h) t
                  ltac:(unfold _ns_6h, _ns_24h; lia)). lia.
Qed.

Lemma rolling_counts_nested_witness :
  exists c1 c6 c24,
    rolling_counts _ns_1h [1735689600000000000; 1735700000000000000; 1735720000000000000] !! 2%nat = Some c1
    /\ rolling_counts _ns_6h [1735689600000000000; 1735700000000000000; 1735720000000000000] !! 2%nat = Some c6
    /\ rolling_counts _ns_24h [1735689600000000000; 1735700000000000000; 1735720000000000000] !! 2%nat = Some c24
    /\ c1 <= c6 <= c24.
Proof.
  apply (rolling_counts_nested
           [1735689600000000000; 1735700000000000000; 1735720000000000000]
           2 1735720000000000000).
  - repeat constructor; lia.
  - unfold Int.in_int64, Int.min_int64, Int.max_int64. lia.
  - unfold Int.in_int64, Int.min_int64, Int.max_int64, _ns_24h. lia.
  - reflexivity.
Defined.

(** C3 as stated fails where the left end of a longer window leaves
    [int64] and that of a shorter one does not: for the only event of a
    zone, two hours after the first timestamp pandas can hold, the 1-hour
    count is 0 and the 6-hour count is -1. *)
Lemma longer_window_count_wraps :
  ~ (forall t i c1 c6 c24,
        StronglySorted Z.le t -> Forall Int.is_timestamp t ->
        rolling_counts _ns_1h t !! i = Some c1 ->
        rolling_counts _ns_6h t !! i = Some c6 ->
        rolling_counts _ns_24h t !! i = Some c24 ->
        c1 <= c6 <= c24).
Proof.
  intros H.
  specialize (H [-9223364836854775807] O 0 (-1) (-1)).
  assert (0 <= -1 <= -1) as Habs; [|lia].
  apply H.
  - repeat constructor.
  - repeat constructor; unfold Int.min_int64, Int.max_int64; lia.
  - vm_compute. reflexivity.
  - vm_compute. reflexivity.
  - vm_compute. reflexivity.
Qed.

(** C4.  Four events of one zone at 00:00, 00:30, 01:00 and 02:00 of the
    same day ([k] days after the epoch): the 1-hour count of the event at
    01:00 is 2 and that of the event at 02:00 is 1. *)
Theorem one_hour_counts_of_four_events k :
  Int.is_timestamp (k * Pd.day_ns) ->
  Int.is_timestamp (k * Pd.day_ns + 2 * _ns_1h) ->
  let t := [k * Pd.day_ns;
            k * Pd.day_ns + 1800000000000;
            k * Pd.day_ns + _ns_1h;
            k * Pd.day_ns + 2 * _ns_1h] in
  rolling_counts _ns_1h t !! 2%nat = Some 2
  /\ rolling_counts _ns_1h t !! 3%nat = Some 1.
Proof.
  intros Hd Hd2 t.
  unfold Int.is_timestamp, Int.min_int64, Int.max_int64, Pd.day_ns, _ns_1h in *.
  assert (StronglySorted Z.le t) as Hs by (subst t; repeat constructor; lia).
  split.
  - rewrite (rolling_counts_prior _ t 2 (k * 86400000000000 + 3600000000000));
      [|done|lia|unfold Int.in_int64, Int.min_int64, Int.max_int64; lia|done].
    subst t. unfold prior_from. cbn [take].
    rewrite !filter_cons, filter_nil.
    repeat case_decide; try lia. done.
  - rewrite (rolling_counts_prior _ t 3 (k * 86400000000000 + 2 * 3600000000000));
      [|done|lia|unfold Int.in_int64, Int.min_int64, Int.max_int64; lia|done].
    subst t. unfold prior_from. cbn [take].
    rewrite !filter_cons, filter_nil.
    repeat case_decide; try lia. done.
Qed.

Lemma one_hour_counts_of_four_events_witness :
  let t := [20089 * Pd.day_ns;
            20089 * Pd.day_ns + 1800000000000;
            20089 * Pd.day_ns + _ns_1h;
            20089 * Pd.day_ns + 2 * _ns_1h] in
  rolling_counts _ns_1h t !! 2%nat = Some 2
  /\ rolling_counts _ns_1h t !! 3%nat = Some 1.
Proof.
  apply (one_hour_counts_of_four_events 20089);
    unfold Int.is_timestamp, Int.min_int64, Int.max_int64, Pd.day_ns, _ns_1h; lia.
Defined.


(** ** Stable sorting *)

Section stable_sorting_facts.
Context {A : Type} (leb : A -> A -> bool).
Hypothesis leb_total : forall a b, leb a b = true \/ leb b a = true.
Hypothesis leb_trans : forall a b c, leb a b = true -> leb b c = true -> leb a c = true.

Local Abbreviation le := (fun a b : A => leb a b = true).

Lemma insert_sorted_perm x l : insert_sorted leb x l ≡ₚ x :: l.
Proof.
  induction l as [|y l IH]; simpl; [done|].
  destruct (leb x y); [done|]. rewrite IH. apply Permutation_swap.
Qed.

Lemma stable_sort_perm l : stable_sort leb l ≡ₚ l.
Proof.
  induction l as [|x l IH]; simpl; [done|].
  by rewrite insert_sorted_perm, IH.
Qed.

Lemma stable_sort_length l : length (stable_sort leb l) = length l.
Proof. by rewrite stable_sort_perm. Qed.

Lemma insert_sorted_sorted x l :
  StronglySorted le l -> StronglySorted le (insert_sorted leb x l).
Proof.
  induction 1 as [|y l Hs IH Hy]; simpl; [repeat constructor|].
  destruct (leb x y) eqn:Hxy.
  - constructor; [by constructor|].
    constructor; [done|]. eapply Forall_impl; [exact Hy|].
    intros z Hz. by apply (leb_trans x y z).
  - constructor; [done|].
    rewrite insert_sorted_perm. constructor; [|done].
    destruct (leb_total x y) as [H|H]; [congruence|done].
Qed.

Lemma stable_sort_sorted l : StronglySorted le (stable_sort leb l).
Proof.
  induction l as [|x l IH]; simpl; [constructor|]. by apply insert_sorted_sorted.
Qed.

(** Sorting a sorted list changes nothing. *)
Lemma stable_sort_of_sorted l : StronglySorted le l -> stable_sort leb l = l.
Proof.
  induction 1 as [|x l Hs IH Hx]; simpl; [done|].
  rewrite IH. destruct Hx as [|y l Hy _]; simpl; [done|].
  simpl in Hy. by rewrite Hy.
Qed.

(** Stability: the elements that the order does not tell apart from [x]
    keep the order they had in the input. *)
Lemma insert_sorted_stable x y l :
  filter (tied leb x) (insert_sorted leb y l) = filter (tied leb x) (y :: l).
Proof.
  induction l as [|z l IH]; simpl; [done|].
  destruct (leb y z) eqn:Hyz; [done|].
  rewrite filter_cons, IH, !filter_cons.
  destruct (decide (tied leb x z)) as [[Hxz Hzx]|], (decide (tied leb x y)) as [[Hxy Hyx]|];
    try done.
  rewrite (leb_trans y x z) in Hyz; done.
Qed.

Lemma stable_sort_stable x l :
  filter (tied leb x) (stable_sort leb l) = filter (tied leb x) l.
Proof.
  induction l as [|y l IH]; simpl; [done|].
  by rewrite insert_sorted_stable, !filter_cons, IH.
Qed.
End stable_sorting_facts.


(** ** General facts on sorted lists *)

Lemma sorted_lookup {A : Type} (R : A -> A -> Prop) (l : list A) i j a b :
  StronglySorted R l -> (i < j)%nat ->
  l !! i = Some a -> l !! j = Some b -> R a b.
Proof.
  intros Hs Hij Ha Hb.
  rewrite <- (take_drop_middle l i a Ha) in Hs.
  apply StronglySorted_app_1_r, StronglySorted_inv in Hs as [_ Hall].
  rewrite Forall_lookup in Hall. apply (Hall (j - S i)%nat).
  rewrite lookup_drop. rewrite <- Hb. f_equal. lia.
Qed.

Lemma sorted_lookup_le (l : list Z) i j a b :
  StronglySorted Z.le l -> (i <= j)%nat ->
  l !! i = Some a -> l !! j = Some b -> a <= b.
Proof.
  intros Hs Hij Ha Hb.
  destruct (decide (i = j)) as [->|Hne]; [simplify_eq; lia|].
  apply (sorted_lookup Z.le l i j a b); [done|lia|done|done].
Qed.

Lemma sorted_take {A : Type} (R : A -> A -> Prop) (l : list A) n :
  StronglySorted R l -> StronglySorted R (take n l).
Proof. intros Hs. rewrite <- (take_drop n l) in Hs. by apply StronglySorted_app_1_l in Hs. Qed.

Lemma sorted_drop {A : Type} (R : A -> A -> Prop) (l : list A) n :
  StronglySorted R l -> StronglySorted R (drop n l).
Proof. intros Hs. rewrite <- (take_drop n l) in Hs. by apply StronglySorted_app_1_r in Hs. Qed.

Lemma sorted_slice {A : Type} (R : A -> A -> Prop) (l : list A) s e :
  StronglySorted R l -> StronglySorted R (Np.slice s e l).
Proof. intros Hs. unfold Np.slice. by apply sorted_take, sorted_drop. Qed.

(** ** The sort of step 2 *)

Lemma key_leb_spec a b : key_leb a b = true <-> lex_le a b.
Proof.
  unfold key_leb, lex_le.
  rewrite orb_true_iff, andb_true_iff, Z.ltb_lt, Z.eqb_eq, Z.leb_le. done.
Qed.

Lemma key_leb_total a b : key_leb a b = true \/ key_leb b a = true.
Proof. rewrite !key_leb_spec. unfold lex_le. lia. Qed.

Lemma key_leb_trans a b c :
  key_leb a b = true -> key_leb b c = true -> key_leb a c = true.
Proof. rewrite !key_leb_spec. unfold lex_le. lia. Qed.

Lemma trip_leb_key a b : Pd.trip_leb a b = key_leb (trip_key a) (trip_key b).
Proof. reflexivity. Qed.

Lemma sort_values_perm df : Pd.sort_values df ≡ₚ df.
Proof. apply stable_sort_perm. Qed.

Lemma sort_values_sorted df :
  StronglySorted lex_le (map trip_key (Pd.sort_values df)).
Proof.
  apply (StronglySorted_fmap _ (fun a b => Pd.trip_leb a b = true)).
  - intros a b. rewrite trip_leb_key. apply key_leb_spec.
  - apply stable_sort_sorted.
    + intros a b. rewrite !trip_leb_key. apply key_leb_total.
    + intros a b c. rewrite !trip_leb_key. apply key_leb_trans.
Qed.

Lemma reset_index_key df : map trip_key (Pd.reset_index df) = map trip_key df.
Proof.
  unfold Pd.reset_index. change map with (@fmap list _) at 1.
  rewrite fmap_imap. rewrite <- (imap_const trip_key). by apply imap_ext.
Qed.

Lemma reset_index_length df : length (Pd.reset_index df) = length df.
Proof. apply length_imap. Qed.

Lemma sorted_frame_keys df :
  StronglySorted lex_le (map trip_key (sort_by_zone_and_time df)).
Proof. unfold sort_by_zone_and_time. rewrite reset_index_key. apply sort_values_sorted. Qed.

Lemma map_zone_key (df : list trip) : map PULocationID df = map fst (map trip_key df).
Proof. by rewrite map_map. Qed.

Lemma map_time_key (df : list trip) : map pickup_datetime df = map snd (map trip_key df).
Proof. by rewrite map_map. Qed.

Lemma sorted_keys_zone (ks : list (Z * Z)) :
  StronglySorted lex_le ks -> StronglySorted Z.le (map fst ks).
Proof.
  apply StronglySorted_fmap. intros a b. unfold lex_le. lia.
Qed.

(** ** Zone boundaries *)

Lemma zip_seq_sorted (ar : list Z) off :
  StronglySorted Z.le ar ->
  StronglySorted (fun a b : nat * Z => (snd a <=? snd b) = true)
    (zip (seq off (length ar)) ar).
Proof.
  intros Hs. revert off. induction Hs as [|x ar Hs IH Hx]; intros off; simpl; [constructor|].
  constructor; [apply IH|].
  apply Forall_lookup. intros k [j y] Hk.
  apply lookup_zip_with_Some in Hk as (j' & y' & Heq & _ & Hy). simplify_eq. simpl.
  rewrite Forall_lookup in Hx. apply Z.leb_le. by apply (Hx k).
Qed.

Lemma argsort_sorted ar :
  StronglySorted Z.le ar -> Np.argsort ar = zip (seq 0 (length ar)) ar.
Proof. intros Hs. apply stable_sort_of_sorted. by apply zip_seq_sorted. Qed.

Lemma zone_starts_sorted zone :
  StronglySorted Z.le zone -> _zone_starts zone = heads 0 None zone.
Proof.
  intros Hs. unfold _zone_starts, Np.unique_index, heads. simpl.
  by rewrite argsort_sorted.
Qed.

Lemma heads_cons off prev x l :
  heads off prev (x :: l)
  = (if decide (snd <$> prev = Some x) then [] else [off])
    ++ heads (S off) (Some (off, x)) l.
Proof.
  destruct (decide (snd <$> prev = Some x)) as [Heq|Hne];
    unfold heads; simpl; destruct prev as [[j p]|]; simpl in *.
  - simplify_eq. by rewrite Z.eqb_refl.
  - done.
  - destruct (Z.eqb_spec p x); [congruence|done].
  - done.
Qed.

Lemma heads_elem i off prev l :
  i ∈ heads off prev l <->
  exists k x, i = (off + k)%nat /\ l !! k = Some x /\ before (snd <$> prev) l k <> Some x.
Proof.
  revert off prev. induction l as [|y l IH]; intros off prev.
  - unfold heads. simpl. destruct prev; simpl; rewrite elem_of_nil;
      (split; [done|]); intros (k & x & _ & Hk & _); by rewrite lookup_nil in Hk.
  - rewrite heads_cons, elem_of_app, IH. split.
    + intros [Hi|(k & x & -> & Hk & Hb)].
      * destruct (decide (snd <$> prev = Some y)) as [|Hne]; [by apply elem_of_nil in Hi|].
        apply list_elem_of_singleton in Hi as ->.
        exists O, y. split; [lia|]. done.
      * exists (S k), x. split; [lia|]. split; [done|].
        destruct k; simpl in *; done.
    + intros (k & x & -> & Hk & Hb). destruct k as [|k]; simpl in *.
      * left. simplify_eq. rewrite decide_False by done.
        apply list_elem_of_singleton. lia.
      * right. exists k, x. split; [lia|]. split; [done|].
        destruct k; simpl in *; done.
Qed.

Lemma heads_bounds off prev l :
  StronglySorted lt (heads off prev l)
  /\ Forall (fun i => off <= i < off + length l)%nat (heads off prev l).
Proof.
  revert off prev. induction l as [|y l IH]; intros off prev.
  - unfold heads. simpl. split; constructor.
  - rewrite heads_cons. destruct (IH (S off) (Some (off, y))) as [Hs Hb].
    assert (Forall (fun i => off <= i < off + length (y :: l))%nat
              (heads (S off) (Some (off, y)) l)) as Hb'.
    { eapply Forall_impl; [exact Hb|]. simpl. lia. }
    destruct (decide _); simpl; [done|].
    split.
    + constructor; [done|]. eapply Forall_impl; [exact Hb|]. simpl. lia.
    + constructor; [simpl; lia|done].
Qed.

Lemma heads_first off y l : exists hs, heads off None (y :: l) = off :: hs.
Proof. rewrite heads_cons. simpl. eauto. Qed.

(** Consecutive starts, closed by the length of the array, chain up. *)
Lemma starts_chain a hs n :
  StronglySorted lt (a :: hs) -> Forall (fun i => i < n)%nat (a :: hs) ->
  chain a (zip (a :: hs) (hs ++ [n])) n.
Proof.
  revert a. induction hs as [|b hs IH]; intros a Hs Hb; simpl.
  - constructor; [|constructor]. by apply Forall_inv in Hb.
  - apply StronglySorted_inv in Hs as [Hs Ha].
    constructor; [by apply Forall_inv in Ha|].
    apply IH; [done|]. by apply Forall_inv_tail in Hb.
Qed.

Lemma zone_ranges_chain (df : list trip) :
  StronglySorted Z.le (map PULocationID df) ->
  chain 0 (zone_ranges df) (length df).
Proof.
  intros Hs. unfold zone_ranges, _zone_ends.
  rewrite zone_starts_sorted by done. rewrite length_map.
  destruct (map PULocationID df) as [|y zone] eqn:Hz.
  - apply (f_equal length) in Hz. rewrite length_map in Hz. simpl in Hz.
    rewrite Hz. unfold heads. simpl. constructor.
  - destruct (heads_first 0 y zone) as [hs Hhs].
    pose proof (heads_bounds 0 None (y :: zone)) as [Hsorted Hb].
    rewrite Hhs in *. simpl. rewrite drop_0.
    apply (f_equal length) in Hz. rewrite length_map in Hz. rewrite <- Hz in Hb.
    apply starts_chain; [done|]. eapply Forall_impl; [exact Hb|]. simpl. lia.
Qed.

Lemma chain_cover a rs c :
  chain a rs c -> (a <= c)%nat /\ concat (map range_indices rs) = seq a (c - a).
Proof.
  induction 1 as [a|a b rs c Hab _ [Hbc IH]]; simpl.
  - split; [done|]. by rewrite Nat.sub_diag.
  - split; [lia|]. rewrite IH. unfold range_indices. simpl.
    replace (c - a)%nat with ((b - a) + (c - b))%nat by lia.
    rewrite seq_app. do 2 f_equal. lia.
Qed.

Lemma chain_elem a rs c s e :
  chain a rs c -> (s, e) ∈ rs -> (a <= s < e)%nat /\ (e <= c)%nat.
Proof.
  induction 1 as [a|a b rs c Hab Hch IH]; intros Hin.
  - by apply elem_of_nil in Hin.
  - pose proof (chain_cover _ _ _ Hch) as [Hbc _].
    apply elem_of_cons in Hin as [Heq|Hin]; [simplify_eq; lia|].
    specialize (IH Hin). lia.
Qed.

(** A range of [zip starts (starts[1:] ++ [n])] runs from one start to the
    next one, or to [n], with no start in between. *)
Lemma next_start hs n s e :
  StronglySorted lt hs -> Forall (fun i => i < n)%nat hs ->
  (s, e) ∈ zip hs (drop 1 hs ++ [n]) ->
  s ∈ hs /\ (s < e <= n)%nat /\ ((e < n)%nat -> e ∈ hs)
  /\ forall i, i ∈ hs -> (i <= s)%nat \/ (e <= i)%nat.
Proof.
  intros Hs. induction Hs as [|a hs Hs IH Ha]; intros Hb Hin; simpl in Hin.
  - by apply elem_of_nil in Hin.
  - apply Forall_cons in Hb as [Han Hb]. rewrite drop_0 in Hin.
    destruct hs as [|b hs]; simpl in Hin.
    + apply list_elem_of_singleton in Hin. simplify_eq.
      split; [by left|]. split; [lia|]. split; [lia|].
      intros i Hi. apply list_elem_of_singleton in Hi. lia.
    + apply elem_of_cons in Hin as [Heq|Hin].
      * simplify_eq. apply Forall_cons in Ha as [Hab Ha].
        apply Forall_cons in Hb as [Hbn Hb].
        split; [by left|]. split; [lia|]. split; [intros _; right; by left|].
        intros i Hi. apply elem_of_cons in Hi as [->|Hi]; [lia|].
        apply elem_of_cons in Hi as [->|Hi]; [lia|].
        apply StronglySorted_inv in Hs as [_ Hball].
        rewrite Forall_forall in Hball. specialize (Hball i Hi). lia.
      * destruct (IH Hb) as (Hs1 & Hse & He & Hnone); [simpl; by rewrite drop_0|].
        split; [by right|]. split; [done|].
        split; [intros Hlt; right; by apply He|].
        intros i Hi. apply elem_of_cons in Hi as [->|Hi]; [|by apply Hnone].
        rewrite Forall_forall in Ha. specialize (Ha s Hs1). lia.
Qed.

(** In a sorted zone column, a range holds one zone and holds all of it. *)
Lemma zone_range_one_zone (zone : list Z) s e :
  StronglySorted Z.le zone ->
  (s, e) ∈ zip (_zone_starts zone) (_zone_ends zone) ->
  exists z, zone !! s = Some z
    /\ forall i x, zone !! i = Some x -> (x = z <-> (s <= i < e)%nat).
Proof.
  intros Hs Hin. unfold _zone_ends in Hin.
  rewrite zone_starts_sorted in Hin by done.
  pose proof (heads_bounds 0 None zone) as [Hsorted Hb].
  destruct (next_start (heads 0 None zone) (length zone) s e) as (Hs1 & Hse & He & Hnone);
    [done|eapply Forall_impl; [exact Hb|]; simpl; lia|done|].
  assert (forall i, i ∈ heads 0 None zone <->
            exists x, zone !! i = Some x /\ before None zone i <> Some x) as Hheads.
  { intros i. rewrite heads_elem. simpl. split.
    - intros (k & x & -> & Hk & Hx). eauto.
    - intros (x & Hk & Hx). exists i, x. eauto. }
  apply Hheads in Hs1 as (z & Hz & Hzprev).
  exists z. split; [done|].
  assert (forall d, (s + d < e)%nat -> zone !! (s + d)%nat = Some z) as Hrun.
  { induction d as [|d IHd]; intros Hd; [by rewrite Nat.add_0_r|].
    destruct (lookup_lt_is_Some_2 zone (s + S d)) as [x Hx]; [lia|].
    destruct (decide (before None zone (s + S d) = Some x)) as [Heq|Hne].
    - rewrite Nat.add_succ_r in Heq. simpl in Heq. rewrite IHd in Heq by lia.
      by simplify_eq.
    - assert (s + S d ∈ heads 0 None zone)%nat as Hh by (apply Hheads; eauto).
      apply Hnone in Hh. lia. }
  intros i x Hx. split.
  - intros ->. destruct (decide (i < s)%nat) as [Hlt|Hge].
    + exfalso. destruct s as [|s']; [lia|]. simpl in Hzprev.
      destruct (lookup_lt_is_Some_2 zone s') as [y Hy];
        [apply lookup_lt_Some in Hz; lia|].
      pose proof (sorted_lookup_le zone i s' z y Hs ltac:(lia) Hx Hy).
      pose proof (sorted_lookup_le zone s' (S s') y z Hs ltac:(lia) Hy Hz).
      apply Hzprev. rewrite Hy. f_equal. lia.
    + split; [lia|]. destruct (decide (i < e)%nat) as [|Hie]; [done|]. exfalso.
      pose proof (lookup_lt_Some _ _ _ Hx) as Hin'.
      destruct (proj1 (Hheads e) (He ltac:(lia))) as (w & Hw & Hwprev).
      destruct e as [|e']; [lia|]. simpl in Hwprev.
      specialize (Hrun (e' - s)%nat ltac:(lia)).
      replace (s + (e' - s))%nat with e' in Hrun by lia.
      pose proof (sorted_lookup_le zone e' (S e') z w Hs ltac:(lia) Hrun Hw).
      pose proof (sorted_lookup_le zone (S e') i w z Hs ltac:(lia) Hw Hx).
      apply Hwprev. rewrite Hrun. f_equal. lia.
  - intros Hi. specialize (Hrun (i - s)%nat ltac:(lia)).
    replace (s + (i - s))%nat with i in Hrun by lia. congruence.
Qed.


(** ** The loop over the zones *)

Lemma slice_length {A : Type} (l : list A) s e :
  (s <= e <= length l)%nat -> length (Np.slice s e l) = (e - s)%nat.
Proof. intros H. unfold Np.slice. rewrite length_take, length_drop. lia. Qed.

Lemma slice_map {A B : Type} (f : A -> B) (l : list A) s e :
  Np.slice s e (map f l) = map f (Np.slice s e l).
Proof. unfold Np.slice. change map with (@fmap list _). by rewrite fmap_take, fmap_drop. Qed.

Lemma slice_lookup {A : Type} (l : list A) s e i :
  (i < e - s)%nat -> Np.slice s e l !! i = l !! (s + i)%nat.
Proof. intros H. unfold Np.slice. by rewrite lookup_take_lt, lookup_drop. Qed.

Lemma set_slice_spec dst s vals :
  (s + length vals <= length dst)%nat ->
  Np.set_slice dst s vals
  = take s dst ++ map Int.int32 vals ++ drop (s + length vals) dst.
Proof.
  intros Hlen. unfold Np.set_slice.
  rewrite <- (take_drop s dst) at 1.
  assert (length (take s dst) = s) as Hs by (rewrite length_take; lia).
  rewrite <- (Nat.add_0_r s) at 1. rewrite <- Hs at 1.
  rewrite list_inserts_app_r. f_equal.
  rewrite <- (take_drop (length vals) (drop s dst)) at 1.
  rewrite list_inserts_0_r.
  - by rewrite drop_drop.
  - rewrite length_map, length_take, length_drop. lia.
Qed.

Lemma zone_loop_arrays ts rs st :
  _r1h (fold_left (zone_step ts) rs st) = fold_left (zone_step_array _ns_1h ts) rs (_r1h st)
  /\ _r6h (fold_left (zone_step ts) rs st) = fold_left (zone_step_array _ns_6h ts) rs (_r6h st)
  /\ _r24h (fold_left (zone_step ts) rs st) = fold_left (zone_step_array _ns_24h ts) rs (_r24h st).
Proof.
  revert st. induction rs as [|[s e] rs IH]; intros st; [done|].
  cbn [fold_left]. destruct (IH (zone_step ts st (s, e))) as (-> & -> & ->). done.
Qed.

(** Over a chain of ranges the loop writes the counts of each zone, one
    zone after the other, and touches nothing outside the chain. *)
Lemma zone_loop_chain ns ts a rs c r :
  chain a rs c -> (c <= length ts)%nat -> length r = length ts ->
  fold_left (zone_step_array ns ts) rs r
  = take a r ++ concat (map (zone_counts ns ts) rs) ++ drop c r.
Proof.
  intros Hch. revert r. induction Hch as [a|a b rs c Hab Hch IH]; intros r Hc Hr; simpl.
  - by rewrite take_drop.
  - pose proof (chain_cover _ _ _ Hch) as [Hbc _].
    assert (length (rolling_counts ns (Np.slice a b ts)) = (b - a)%nat) as Hv.
    { rewrite rolling_counts_length. apply slice_length. lia. }
    unfold zone_step_array at 2. simpl.
    rewrite set_slice_spec by (rewrite Hv; lia).
    rewrite Hv. replace (a + (b - a))%nat with b by lia.
    rewrite IH; [|done|rewrite !length_app, length_map, length_take, length_drop, Hv; lia].
    unfold zone_counts at 2. simpl.
    set (V := map Int.int32 (rolling_counts ns (Np.slice a b ts))).
    assert (length (take a r ++ V) = b) as HPV.
    { subst V. rewrite length_app, length_take, length_map, Hv. lia. }
    rewrite (app_assoc (take a r) V (drop b r)).
    rewrite take_app_length' by done.
    rewrite drop_app_ge by lia. rewrite HPV, drop_drop.
    replace (b + (c - b))%nat with c by lia.
    by rewrite <- !app_assoc.
Qed.

Lemma empty_length junk n : length (Np.empty junk n) = n.
Proof. unfold Np.empty. by rewrite length_map, length_seq. Qed.

Lemma zone_loop_length ns ts rs r :
  length (fold_left (zone_step_array ns ts) rs r) = length r.
Proof.
  revert r. induction rs as [|se rs IH]; intros r; [done|].
  simpl. rewrite IH. unfold zone_step_array, Np.set_slice. apply length_inserts.
Qed.

(** The loop changes the length of no array: on every frame, sorted or
    not, the three arrays have one cell per row. *)
Lemma rolling_features_length junk1 junk6 junk24 (df : list trip) :
  let r := rolling_features junk1 junk6 junk24 df in
  length (_r1h r) = length df
  /\ length (_r6h r) = length df
  /\ length (_r24h r) = length df.
Proof.
  intros r. subst r. unfold rolling_features.
  destruct (zone_loop_arrays (map pickup_datetime df)
              (zip (_zone_starts (map PULocationID df))
                   (_zone_ends (map PULocationID df)))
              {| _r1h := Np.empty junk1 (length df);
                 _r6h := Np.empty junk6 (length df);
                 _r24h := Np.empty junk24 (length df) |}) as (-> & -> & ->).
  simpl. by rewrite !zone_loop_length, !empty_length.
Qed.

Lemma rolling_arrays_eq (a b : rolling_arrays) :
  _r1h a = _r1h b -> _r6h a = _r6h b -> _r24h a = _r24h b -> a = b.
Proof. destruct a, b. simpl. by intros -> -> ->. Qed.

(** On a frame sorted by zone the three arrays are the counts of the
    zones, one zone after the other: every cell that [np.empty] handed out
    has been overwritten. *)
Lemma rolling_features_sorted junk1 junk6 junk24 (df : list trip) :
  StronglySorted Z.le (map PULocationID df) ->
  let ts := map pickup_datetime df in
  let r := rolling_features junk1 junk6 junk24 df in
  _r1h r = concat (map (zone_counts _ns_1h ts) (zone_ranges df))
  /\ _r6h r = concat (map (zone_counts _ns_6h ts) (zone_ranges df))
  /\ _r24h r = concat (map (zone_counts _ns_24h ts) (zone_ranges df)).
Proof.
  intros Hs ts r. subst r. unfold rolling_features.
  fold ts. fold (zone_ranges df).
  pose proof (zone_ranges_chain df Hs) as Hch.
  assert (length ts = length df) as Hts by (subst ts; apply length_map).
  destruct (zone_loop_arrays ts (zone_ranges df)
              {| _r1h := Np.empty junk1 (length df);
                 _r6h := Np.empty junk6 (length df);
                 _r24h := Np.empty junk24 (length df) |}) as (-> & -> & ->).
  simpl.
  rewrite !(zone_loop_chain _ ts 0 (zone_ranges df) (length df))
    by (try done; rewrite ?empty_length; lia).
  rewrite !take_0, !drop_ge, !app_nil_r by (rewrite empty_length; lia).
  done.
Qed.

Lemma rolling_features_junk j1 j6 j24 k1 k6 k24 (df : list trip) :
  StronglySorted Z.le (map PULocationID df) ->
  rolling_features j1 j6 j24 df = rolling_features k1 k6 k24 df.
Proof.
  intros Hs.
  destruct (rolling_features_sorted j1 j6 j24 df Hs) as (H1 & H6 & H24).
  destruct (rolling_features_sorted k1 k6 k24 df Hs) as (K1 & K6 & K24).
  apply rolling_arrays_eq; congruence.
Qed.

Lemma sorted_frame_zone df :
  StronglySorted Z.le (map PULocationID (sort_by_zone_and_time df)).
Proof. rewrite map_zone_key. apply sorted_keys_zone, sorted_frame_keys. Qed.

Lemma sorted_keys_time (ks : list (Z * Z)) z :
  StronglySorted lex_le ks -> Forall (fun k => k.1 = z) ks ->
  StronglySorted Z.le (map snd ks).
Proof.
  induction 1 as [|k ks Hs IH Hk]; intros Hz; simpl; [constructor|].
  apply Forall_cons in Hz as [Hkz Hz].
  constructor; [by apply IH|].
  apply Forall_fmap. rewrite Forall_forall in Hk, Hz |- *.
  intros k' Hin. specialize (Hk k' Hin). specialize (Hz k' Hin).
  unfold lex_le in Hk. simpl. lia.
Qed.

(** The timestamps of every zone range of a frame sorted by (zone, time)
    are sorted. *)
Lemma zone_slice_sorted (df : list trip) s e :
  StronglySorted lex_le (map trip_key df) -> (s, e) ∈ zone_ranges df ->
  StronglySorted Z.le (Np.slice s e (map pickup_datetime df)).
Proof.
  intros Hs Hin.
  pose proof (sorted_keys_zone _ Hs) as Hz. rewrite <- map_zone_key in Hz.
  destruct (zone_range_one_zone _ s e Hz Hin) as (z & _ & Hrange).
  pose proof (chain_elem _ _ _ s e (zone_ranges_chain df Hz) Hin) as [Hse He].
  rewrite map_time_key, slice_map.
  apply (sorted_keys_time _ z); [by apply sorted_slice|].
  apply Forall_lookup. intros i k Hk.
  assert (i < e - s)%nat as Hi.
  { apply lookup_lt_Some in Hk. rewrite slice_length in Hk; [done|].
    rewrite length_map. lia. }
  rewrite slice_lookup in Hk by done.
  apply (Hrange (s + i)%nat); [|lia].
  rewrite map_zone_key. change map with (@fmap list _) in *.
  by rewrite list_lookup_fmap, Hk.
Qed.


(** ** From the counts of a zone to the cells of the arrays *)

Lemma concat_chain_lookup {A : Type} (f : nat * nat -> list A) a rs c s e g :
  chain a rs c ->
  (forall se, se ∈ rs -> length (f se) = (se.2 - se.1)%nat) ->
  (s, e) ∈ rs -> (s <= g < e)%nat ->
  concat (map f rs) !! (g - a)%nat = f (s, e) !! (g - s)%nat.
Proof.
  intros Hch. induction Hch as [a|a b rs c Hab Hch IH]; intros Hlen Hin Hg.
  - by apply elem_of_nil in Hin.
  - simpl. pose proof (Hlen (a, b) ltac:(by left)) as Hab'. simpl in Hab'.
    apply elem_of_cons in Hin as [Heq|Hin].
    + simplify_eq. rewrite lookup_app_l by lia. done.
    + pose proof (chain_elem _ _ _ s e Hch Hin) as [Hs He].
      rewrite lookup_app_r by lia. rewrite Hab'.
      replace (g - a - (b - a))%nat with (g - b)%nat by lia.
      apply IH; [|done|done]. intros se Hse. apply Hlen. by right.
Qed.

Lemma zone_counts_length ns (ts : list Z) s e :
  (s <= e <= length ts)%nat -> length (zone_counts ns ts (s, e)) = (e - s)%nat.
Proof.
  intros H. unfold zone_counts. simpl.
  rewrite length_map, rolling_counts_length. by apply slice_length.
Qed.

(** The cell of a row holds, cast to [int32], the count that the row gets
    within its zone. *)
Lemma rolling_features_cell junk1 junk6 junk24 (df : list trip) s e g :
  StronglySorted Z.le (map PULocationID df) ->
  (s, e) ∈ zone_ranges df -> (s <= g < e)%nat ->
  let ts := map pickup_datetime df in
  let r := rolling_features junk1 junk6 junk24 df in
  _r1h r !! g = Int.int32 <$> rolling_counts _ns_1h (Np.slice s e ts) !! (g - s)%nat
  /\ _r6h r !! g = Int.int32 <$> rolling_counts _ns_6h (Np.slice s e ts) !! (g - s)%nat
  /\ _r24h r !! g = Int.int32 <$> rolling_counts _ns_24h (Np.slice s e ts) !! (g - s)%nat.
Proof.
  intros Hz Hin Hg ts r.
  destruct (rolling_features_sorted junk1 junk6 junk24 df Hz) as (H1 & H6 & H24).
  fold ts r in H1, H6, H24. rewrite H1, H6, H24.
  pose proof (zone_ranges_chain df Hz) as Hch.
  assert (forall ns se, se ∈ zone_ranges df ->
            length (zone_counts ns ts se) = (se.2 - se.1)%nat) as Hlen.
  { intros ns [s' e'] Hse. pose proof (chain_elem _ _ _ s' e' Hch Hse).
    apply zone_counts_length. subst ts. rewrite length_map. simpl. lia. }
  rewrite <- (Nat.sub_0_r g) at 1 3 5.
  rewrite !(concat_chain_lookup _ 0 _ _ s e g Hch) by (try done; apply Hlen).
  unfold zone_counts. simpl. by rewrite !list_lookup_fmap.
Qed.

Lemma prior_from_mono lo lo' t i :
  lo <= lo' -> (prior_from lo' t i <= prior_from lo t i)%nat.
Proof.
  intros Hlo. unfold prior_from. induction (take i t) as [|y l IH]; [done|].
  rewrite !filter_cons. destruct (decide (lo' <= y)), (decide (lo <= y)); simpl; lia.
Qed.

Lemma index_in_zone_range (df : list trip) g :
  StronglySorted Z.le (map PULocationID df) -> (g < length df)%nat ->
  exists s e, (s, e) ∈ zone_ranges df /\ (s <= g < e)%nat.
Proof.
  intros Hz Hg.
  destruct (chain_cover _ _ _ (zone_ranges_chain df Hz)) as [_ Hcover].
  assert (g ∈ concat (map range_indices (zone_ranges df))) as Hin.
  { rewrite Hcover. apply elem_of_seq. lia. }
  apply list_elem_of_In, in_concat in Hin as (l & Hl & Hgl).
  apply in_map_iff in Hl as ([s e] & <- & Hse).
  exists s, e. split; [by apply list_elem_of_In|].
  unfold range_indices in Hgl. simpl in Hgl. apply in_seq in Hgl. lia.
Qed.

(** End to end: in the frame of step 2, as long as it has at most [2^31]
    rows, the three cells of a row whose timestamp [x] and 24-hour left end
    are representable hold the numbers of earlier rows of its zone from
    [x - 1h], [x - 6h] and [x - 24h] on, and these are nested. *)
Lemma rolling_arrays_cells junk1 junk6 junk24 (raw : list raw_trip) g row :
  let frame := sort_by_zone_and_time (load_and_clean raw).2 in
  let r := rolling_features junk1 junk6 junk24 frame in
  Z.of_nat (length frame) <= 2 ^ 31 ->
  frame !! g = Some row ->
  Int.in_int64 (pickup_datetime row) ->
  Int.in_int64 (pickup_datetime row - _ns_24h) ->
  exists s e t,
    (s, e) ∈ zone_ranges frame /\ (s <= g < e)%nat
    /\ t = Np.slice s e (map pickup_datetime frame)
    /\ _r1h r !! g = Some (Z.of_nat (prior_from (pickup_datetime row - _ns_1h) t (g - s)))
    /\ _r6h r !! g = Some (Z.of_nat (prior_from (pickup_datetime row - _ns_6h) t (g - s)))
    /\ _r24h r !! g = Some (Z.of_nat (prior_from (pickup_datetime row - _ns_24h) t (g - s)))
    /\ (prior_from (pickup_datetime row - _ns_1h) t (g - s)
        <= prior_from (pickup_datetime row - _ns_6h) t (g - s)
        <= prior_from (pickup_datetime row - _ns_24h) t (g - s))%nat.
Proof.
  intros frame r Hlen Hrow Hx Hx24.
  pose proof (sorted_frame_zone (load_and_clean raw).2) as Hz. fold frame in Hz.
  pose proof (lookup_lt_Some _ _ _ Hrow) as Hg.
  destruct (index_in_zone_range frame g Hz Hg) as (s & e & Hin & Hse).
  pose proof (chain_elem _ _ _ s e (zone_ranges_chain frame Hz) Hin) as [_ He].
  exists s, e, (Np.slice s e (map pickup_datetime frame)).
  split; [done|]. split; [done|]. split; [done|].
  set (t := Np.slice s e (map pickup_datetime frame)).
  assert (StronglySorted Z.le t) as Hs.
  { apply zone_slice_sorted; [apply sorted_frame_keys|done]. }
  assert (t !! (g - s)%nat = Some (pickup_datetime row)) as Ht.
  { subst t. rewrite slice_lookup by lia. replace (s + (g - s))%nat with g by lia.
    change map with (@fmap list _). by rewrite list_lookup_fmap, Hrow. }
  destruct (rolling_features_cell junk1 junk6 junk24 frame s e g Hz Hin Hse)
    as (H1 & H6 & H24).
  fold r t in H1, H6, H24.
  unfold Int.in_int64, Int.min_int64, Int.max_int64 in Hx, Hx24.
  assert (forall ns, 0 <= ns <= _ns_24h ->
            Int.int32 <$> rolling_counts ns t !! (g - s)%nat
            = Some (Z.of_nat (prior_from (pickup_datetime row - ns) t (g - s)))) as Hcell.
  { intros ns Hns. rewrite (rolling_counts_prior ns t (g - s) (pickup_datetime row));
      [|done|lia|unfold Int.in_int64, Int.min_int64, Int.max_int64; lia|done].
    simpl. f_equal. apply int32_id.
    pose proof (prior_from_le (pickup_datetime row - ns) t (g - s)).
    unfold Int.in_int32. lia. }
  rewrite H1, H6, H24, !Hcell by (unfold _ns_1h, _ns_6h, _ns_24h; lia).
  do 3 (split; [done|]).
  split; apply prior_from_mono; unfold _ns_1h, _ns_6h, _ns_24h; lia.
Qed.

(** The slice of a concatenation over consecutive ranges. *)
Lemma slice_concat_chain {A : Type} (f : nat * nat -> list A) rs c s e :
  chain 0 rs c ->
  (forall se, se ∈ rs -> length (f se) = (se.2 - se.1)%nat) ->
  (s, e) ∈ rs ->
  Np.slice s e (concat (map f rs)) = f (s, e).
Proof.
  intros Hch Hlen Hin.
  pose proof (chain_elem _ _ _ s e Hch Hin) as [Hs He].
  pose proof (Hlen _ Hin) as Hf. simpl in Hf.
  apply list_eq. intros i.
  destruct (decide (i < e - s)%nat) as [Hi|Hi].
  - rewrite slice_lookup by done.
    rewrite <- (Nat.sub_0_r (s + i)).
    rewrite (concat_chain_lookup f 0 rs c s e (s + i)) by (try done; lia).
    f_equal. lia.
  - rewrite (lookup_ge_None_2 (f (s, e))) by lia.
    apply lookup_ge_None_2. unfold Np.slice. rewrite length_take. lia.
Qed.


(** ** The claims on the sort and on the zone boundaries *)

Lemma tied_trip_key x y : tied Pd.trip_leb x y <-> trip_key y = trip_key x.
Proof.
  unfold tied. rewrite !trip_leb_key, !key_leb_spec. unfold lex_le.
  destruct (trip_key x) as [zx tx], (trip_key y) as [zy ty]. simpl.
  split; [intros H; f_equal; lia|intros H; simplify_eq; lia].
Qed.



(** C6.  For every list of events, the sort of step 2 permutes them, puts
    them in ascending order of (zone, pickup time) and keeps the events of
    equal zone and time in their input order; resetting the index only
    relabels the rows.  The zone ranges of the sorted frame, taken in
    order, cover the indices [0 .. n-1] once each, and a range holds the
    events of one zone and all of them. *)
Theorem partitioner_sorts_and_covers (df : list trip) :
  let frame := sort_by_zone_and_time df in
  Pd.sort_values df ≡ₚ df
  /\ map trip_key frame = map trip_key (Pd.sort_values df)
  /\ StronglySorted lex_le (map trip_key frame)
  /\ (forall k, filter (fun r => trip_key r = k) (Pd.sort_values df)
                = filter (fun r => trip_key r = k) df)
  /\ concat (map range_indices (zone_ranges frame)) = seq 0 (length frame)
  /\ (forall s e, (s, e) ∈ zone_ranges frame ->
        (s < e <= length frame)%nat
        /\ exists z, forall i r, frame !! i = Some r ->
             (PULocationID r = z <-> (s <= i < e)%nat)).
Proof.
  intros frame.
  pose proof (sorted_frame_zone df) as Hz. fold frame in Hz.
  pose proof (zone_ranges_chain frame Hz) as Hch.
  split; [apply sort_values_perm|].
  split; [apply reset_index_key|].
  split; [apply sorted_frame_keys|].
  split.
  { intros [z t].
    set (x := {| label := O; pickup_datetime := t; PULocationID := z |}).
    trans (filter (tied Pd.trip_leb x) (Pd.sort_values df)).
    { apply list_filter_iff. intros r. symmetry. apply tied_trip_key. }
    trans (filter (tied Pd.trip_leb x) df).
    { apply stable_sort_stable.
      intros a b c. rewrite !trip_leb_key. apply key_leb_trans. }
    apply list_filter_iff. intros r. apply tied_trip_key. }
  split.
  { destruct (chain_cover _ _ _ Hch) as [_ ->]. by rewrite Nat.sub_0_r. }
  intros s e Hin.
  pose proof (chain_elem _ _ _ s e Hch Hin) as [Hse He].
  split; [lia|].
  destruct (zone_range_one_zone _ s e Hz Hin) as (z & _ & Hrange).
  exists z. intros i r Hr. apply Hrange.
  change map with (@fmap list _). by rewrite list_lookup_fmap, Hr.
Qed.

Lemma partitioner_sorts_and_covers_witness :
  let frame :=
    sort_by_zone_and_time
      [ {| label := 0; pickup_datetime := 1735693200000000000; PULocationID := 132 |};
        {| label := 1; pickup_datetime := 1735691400000000000; PULocationID := 79 |};
        {| label := 2; pickup_datetime := 1735689600000000000; PULocationID := 132 |} ] in
  (1 < 3 <= length frame)%nat
  /\ exists z, forall i r, frame !! i = Some r ->
       (PULocationID r = z <-> (1 <= i < 3)%nat).
Proof.
  apply (partitioner_sorts_and_covers
           [ {| label := 0; pickup_datetime := 1735693200000000000; PULocationID := 132 |};
             {| label := 1; pickup_datetime := 1735691400000000000; PULocationID := 79 |};
             {| label := 2; pickup_datetime := 1735689600000000000; PULocationID := 132 |} ]).
  vm_compute. repeat constructor.
Defined.


(** ** Grouping by (date, zone) *)

Lemma key_eqb_spec a b : key_eqb a b = true <-> a = b.
Proof.
  unfold key_eqb. rewrite andb_true_iff, !Z.eqb_eq.
  destruct a, b. simpl. split; [intros []; congruence|intros H; by simplify_eq].
Qed.

Lemma lex_le_lt a b : lex_le a b -> a <> b -> lex_lt a b.
Proof.
  unfold lex_le, lex_lt. destruct a as [a1 a2], b as [b1 b2]. simpl.
  intros H Hne. assert (a1 <> b1 \/ a2 <> b2) by (destruct (decide (a1 = b1)); [right; congruence|by left]).
  lia.
Qed.

Lemma lex_lt_le_trans a b c : lex_lt a b -> lex_le b c -> lex_lt a c.
Proof. unfold lex_le, lex_lt. lia. Qed.

Lemma lex_lt_irrefl a : ~ lex_lt a a.
Proof. unfold lex_lt. lia. Qed.

(** The run heads of a sorted list of keys: the same keys, each one once,
    in strictly ascending order. *)
Lemma run_heads_keys prev l :
  StronglySorted lex_le l ->
  (forall p, prev = Some p -> Forall (lex_le p) l) ->
  StronglySorted lex_lt (run_heads key_eqb prev l)
  /\ (forall k, k ∈ run_heads key_eqb prev l <-> k ∈ l /\ prev <> Some k)
  /\ (forall p, prev = Some p -> Forall (lex_lt p) (run_heads key_eqb prev l)).
Proof.
  intros Hs. revert prev. induction Hs as [|x l Hs IH Hx]; intros prev Hprev.
  - simpl. split; [constructor|]. split; [|by constructor].
    intros k. rewrite elem_of_nil. tauto.
  - destruct (IH (Some x)) as (Hsorted & Hmem & Hgt).
    { intros p Hp. by simplify_eq. }
    specialize (Hgt x eq_refl).
    assert (forall k, k ∈ l -> k <> x -> lex_lt x k) as Hstrict.
    { intros k Hk Hne. rewrite Forall_forall in Hx. apply lex_le_lt; [by apply Hx|done]. }
    cbn [run_heads].
    destruct prev as [p|].
    + specialize (Hprev p eq_refl). apply Forall_cons in Hprev as [Hpx Hpl].
      destruct (key_eqb p x) eqn:Heq.
      * apply key_eqb_spec in Heq as ->.
        split; [done|]. split.
        -- intros k. rewrite Hmem, elem_of_cons. split.
           ++ intros [Hk Hne]. split; [by right|]. congruence.
           ++ intros [[->|Hk] Hne]; [done|]. split; [done|]. congruence.
        -- intros p Hp. by simplify_eq.
      * assert (p <> x) as Hne.
        { intros ->. assert (key_eqb x x = true) by by apply key_eqb_spec. congruence. }
        pose proof (lex_le_lt p x Hpx Hne) as Hlt.
        split; [by constructor|]. split.
        -- intros k. rewrite !elem_of_cons, Hmem. split.
           ++ intros [->|[Hk Hkx]]; [split; [by left|congruence]|].
              split; [by right|]. intros Hpk. simplify_eq.
              assert (k <> x) as Hkx' by congruence.
              specialize (Hstrict k Hk Hkx').
              unfold lex_lt, lex_le in *. lia.
           ++ intros [[->|Hk] Hpk]; [by left|].
              destruct (decide (k = x)) as [->|]; [by left|]. right. split; [done|congruence].
        -- intros p' Hp'. simplify_eq. constructor; [done|].
           eapply Forall_impl; [exact Hgt|]. intros k Hk.
           unfold lex_lt in *. lia.
    + split; [by constructor|]. split; [|done].
      intros k. rewrite !elem_of_cons, Hmem. split.
      * intros [->|[Hk _]]; [by split; [left|]|]. by split; [right|].
      * intros [[->|Hk] _]; [by left|].
        destruct (decide (k = x)) as [->|]; [by left|]. right. split; [done|congruence].
Qed.

Lemma sorted_impl {A : Type} (R1 R2 : A -> A -> Prop) (l : list A) :
  (forall x y, R1 x y -> R2 x y) -> StronglySorted R1 l -> StronglySorted R2 l.
Proof.
  intros HR. induction 1 as [|x l Hs IH Hx]; constructor; [done|].
  eapply Forall_impl; [exact Hx|]. apply HR.
Qed.

Lemma sorted_group_keys rows :
  StronglySorted lex_le (stable_sort key_leb (map group_key rows)).
Proof.
  apply (sorted_impl (fun a b => key_leb a b = true)).
  - intros a b. apply key_leb_spec.
  - apply stable_sort_sorted; [apply key_leb_total|apply key_leb_trans].
Qed.

Lemma group_keys_sorted rows : StronglySorted lex_lt (group_keys rows).
Proof. unfold group_keys. apply run_heads_keys; [apply sorted_group_keys|done]. Qed.

Lemma group_keys_elem rows k : k ∈ group_keys rows <-> k ∈ map group_key rows.
Proof.
  unfold group_keys.
  destruct (run_heads_keys None _ (sorted_group_keys rows)) as (_ & Hmem & _); [done|].
  rewrite Hmem. rewrite stable_sort_perm. split; [by intros []|by intros; split].
Qed.

Lemma sorted_lt_NoDup (l : list (Z * Z)) : StronglySorted lex_lt l -> NoDup l.
Proof.
  induction 1 as [|x l Hs IH Hx]; constructor; [|done].
  intros Hin. rewrite Forall_forall in Hx. by apply (lex_lt_irrefl x), Hx.
Qed.

Lemma group_keys_NoDup rows : NoDup (group_keys rows).
Proof. apply sorted_lt_NoDup, group_keys_sorted. Qed.

(** ** Sums over the groups *)

Lemma sum_Z_app l1 l2 : sum_Z (l1 ++ l2) = sum_Z l1 + sum_Z l2.
Proof. induction l1 as [|x l1 IH]; simpl; [done|]. rewrite IH. lia. Qed.

Lemma sum_Z_zero {A : Type} (f : A -> Z) (l : list A) :
  (forall x, x ∈ l -> f x = 0) -> sum_Z (map f l) = 0.
Proof.
  induction l as [|x l IH]; intros H; simpl; [done|].
  rewrite H by (by left). rewrite IH; [done|]. intros y Hy. apply H. by right.
Qed.

(** Over a list of distinct keys, a sum of terms that vanish off [k0]
    picks the term of [k0]. *)
Lemma sum_Z_pick (f : Z * Z -> Z) (k0 : Z * Z) (ks : list (Z * Z)) :
  NoDup ks -> k0 ∈ ks ->
  sum_Z (map (fun k => if decide (k0 = k) then f k else 0) ks) = f k0.
Proof.
  induction 1 as [|k ks Hk Hnd IH]; intros Hin; [by apply elem_of_nil in Hin|].
  simpl. destruct (decide (k0 = k)) as [->|Hne].
  - rewrite sum_Z_zero; [lia|]. intros k' Hk'.
    destruct (decide (k = k')) as [->|]; done.
  - apply elem_of_cons in Hin as [|Hin]; [done|]. rewrite IH by done. lia.
Qed.

(** Every row falls in the group of its key, and in no other: the sizes of
    the groups selected by [P] add up to the number of rows whose key
    satisfies [P]. *)
Lemma group_sizes_sum (P : Z * Z -> Prop) `{!forall k, Decision (P k)}
    (ks : list (Z * Z)) (rows : list trip_features) :
  NoDup ks -> (forall r, r ∈ rows -> group_key r ∈ ks) ->
  sum_Z (map (fun k => if decide (P k) then Z.of_nat (length (group rows k)) else 0) ks)
  = Z.of_nat (length (filter (fun r => P (group_key r)) rows)).
Proof.
  intros Hnd. induction rows as [|r rows IH]; intros Hin.
  - apply sum_Z_zero. intros k _. by destruct (decide (P k)).
  - rewrite filter_cons.
    transitivity
      (sum_Z (map (fun k => if decide (group_key r = k)
                            then (if decide (P k) then 1 else 0) else 0) ks)
       + sum_Z (map (fun k => if decide (P k)
                              then Z.of_nat (length (group rows k)) else 0) ks)).
    + clear IH Hin Hnd. induction ks as [|k ks IHks]; simpl; [done|].
      rewrite IHks. unfold group at 1. rewrite filter_cons. fold (group rows k).
      destruct (decide (group_key r = k)), (decide (P k)); simpl; lia.
    + rewrite IH by (intros r' Hr'; apply Hin; by right).
      rewrite (sum_Z_pick (fun k => if decide (P k) then 1 else 0) (group_key r))
        by (try done; apply Hin; by left).
      destruct (decide (P (group_key r))); simpl; lia.
Qed.

(** ** Sorted keys *)

Lemma sorted_keys (l : list (Z * Z)) : StronglySorted lex_le (stable_sort key_leb l).
Proof.
  apply (sorted_impl (fun a b => key_leb a b = true)).
  - intros a b. apply key_leb_spec.
  - apply stable_sort_sorted; [apply key_leb_total|apply key_leb_trans].
Qed.

Lemma lex_le_antisym a b : lex_le a b -> lex_le b a -> a = b.
Proof.
  unfold lex_le. destruct a as [a1 a2], b as [b1 b2]. simpl.
  intros H1 H2. f_equal; lia.
Qed.

(** Sorting keys forgets the order they came in. *)
Lemma stable_sort_keys_perm (l1 l2 : list (Z * Z)) :
  l1 ≡ₚ l2 -> stable_sort key_leb l1 = stable_sort key_leb l2.
Proof.
  intros Hp. apply (StronglySorted_unique_strong lex_le).
  - intros a b _ _. apply lex_le_antisym.
  - apply sorted_keys.
  - apply sorted_keys.
  - by rewrite !stable_sort_perm.
Qed.


(** ** The daily summaries *)

Lemma sum_Z_filter {A : Type} (f : A -> Z) (P : A -> Prop) `{!forall x, Decision (P x)}
    (l : list A) :
  sum_Z (map f (filter P l)) = sum_Z (map (fun x => if decide (P x) then f x else 0) l).
Proof.
  induction l as [|x l IH]; [done|].
  rewrite filter_cons. simpl. destruct (decide (P x)); simpl; rewrite IH; lia.
Qed.

Lemma filter_length_map {A : Type} (f : A -> Z) (z : Z) (l : list A) :
  length (filter (fun x => f x = z) l) = length (filter (fun y => y = z) (map f l)).
Proof.
  induction l as [|x l IH]; [done|].
  simpl. rewrite !filter_cons. destruct (decide (f x = z)); simpl; by rewrite IH.
Qed.

Lemma with_features_zone df r dates :
  map tf_PULocationID (with_features df r dates) = map PULocationID df.
Proof.
  unfold with_features. change map with (@fmap list _).
  rewrite fmap_imap. rewrite <- (imap_const PULocationID). by apply imap_ext.
Qed.

Lemma sorted_frame_zone_perm df :
  map PULocationID (sort_by_zone_and_time df) ≡ₚ map PULocationID df.
Proof.
  rewrite !map_zone_key. unfold sort_by_zone_and_time.
  rewrite reset_index_key. change map with (@fmap list _).
  by rewrite sort_values_perm.
Qed.

Section daily_facts.
Context {F : Type} (mean : list Z -> F) (round2 : F -> F).

Lemma daily_rows_keys rows :
  map (fun d => (ds_date d, zone d)) (daily_zone_features mean round2 rows)
  = group_keys rows.
Proof.
  unfold daily_zone_features. rewrite map_map. simpl.
  rewrite <- (map_id (group_keys rows)) at 2. apply map_ext. by intros [].
Qed.

Lemma daily_trips_of_zone rows z :
  sum_Z (map daily_trips
           (filter (fun d => zone d = z) (daily_zone_features mean round2 rows)))
  = Z.of_nat (length (filter (fun r => tf_PULocationID r = z) rows)).
Proof.
  rewrite sum_Z_filter. unfold daily_zone_features. rewrite map_map. simpl.
  rewrite (group_sizes_sum (fun k => k.2 = z)).
  - done.
  - apply group_keys_NoDup.
  - intros r Hr. apply group_keys_elem. change map with (@fmap list _).
    apply list_elem_of_fmap. eauto.
Qed.

Lemma daily_trips_total rows :
  sum_Z (map daily_trips (daily_zone_features mean round2 rows))
  = Z.of_nat (length rows).
Proof.
  unfold daily_zone_features. rewrite map_map. simpl.
  pose proof (group_sizes_sum (fun _ => True) (group_keys rows) rows
                (group_keys_NoDup rows)) as Hsum.
  simpl in Hsum. rewrite Hsum.
  - f_equal. f_equal. clear. induction rows as [|r rows IH]; [done|].
    rewrite filter_cons. simpl. by rewrite IH.
  - intros r Hr. apply group_keys_elem. change map with (@fmap list _).
    apply list_elem_of_fmap. eauto.
Qed.
End daily_facts.


(** ** The clean-up *)

Lemma elem_of_zip_seq {A : Type} (l : list A) i x :
  (i, x) ∈ zip (seq 0 (length l)) l <-> l !! i = Some x.
Proof.
  rewrite list_elem_of_lookup. split.
  - intros [j Hj]. apply lookup_zip_with_Some in Hj as (i' & x' & Heq & Hi & Hx).
    simplify_eq. apply lookup_seq in Hi as [-> _]. done.
  - intros Hx. exists i. apply lookup_zip_with_Some. exists i, x.
    split; [done|]. split; [|done]. apply lookup_seq. split; [done|].
    by eapply lookup_lt_Some.
Qed.

Lemma dropna_elem df e :
  e ∈ Pd.dropna df <->
  exists r z, (label e, r) ∈ df
    /\ raw_pickup_datetime r = Some (pickup_datetime e)
    /\ raw_PULocationID r = Some z /\ PULocationID e = z.
Proof.
  unfold Pd.dropna. rewrite list_elem_of_omap. split.
  - intros ([i r] & Hin & Hf).
    destruct (raw_pickup_datetime r) as [t|] eqn:Ht; [|done].
    destruct (raw_PULocationID r) as [z|] eqn:Hz; [|done].
    simplify_eq. simpl. eauto 10.
  - intros (r & z & Hin & Ht & Hz & Hez). exists (label e, r). split; [done|].
    rewrite Ht, Hz. destruct e. simpl in *. by simplify_eq.
Qed.

Lemma dropna_cons i t z df :
  Pd.dropna ((i, {| raw_pickup_datetime := t; raw_PULocationID := z |}) :: df)
  = match t, z with
    | Some t', Some z' =>
        {| label := i; pickup_datetime := t'; PULocationID := z' |} :: Pd.dropna df
    | _, _ => Pd.dropna df
    end.
Proof. by destruct t, z. Qed.

Lemma dropna_length (raw : list raw_trip) off :
  length (Pd.dropna (zip (seq off (length raw)) raw)) = length (filter complete raw).
Proof.
  revert off. induction raw as [|[t z] raw IH]; intros off; [done|].
  cbn [length seq zip zip_with]. rewrite dropna_cons, filter_cons.
  destruct (decide (complete {| raw_pickup_datetime := t; raw_PULocationID := z |}))
    as [[[t' Ht] [z' Hz]]|Hn]; simpl in *.
  - subst. simpl. by rewrite IH.
  - destruct t as [t'|], z as [z'|]; try done.
    exfalso. apply Hn. split; simpl; eauto.
Qed.

Lemma filter_complement_length {A : Type} (P : A -> Prop) `{!forall x, Decision (P x)}
    (l : list A) :
  (length (filter P l) + length (filter (fun x => ~ P x) l) = length l)%nat.
Proof.
  induction l as [|x l IH]; [done|].
  rewrite !filter_cons. destruct (decide (P x)), (decide (~ P x)); simpl; try lia; done.
Qed.

Lemma load_and_clean_eq raw :
  (load_and_clean raw).2
  = Pd.astype_int32 (Pd.zone_dtype (map raw_PULocationID raw))
      (Pd.dropna (Pd.ignore_index raw)).
Proof. reflexivity. Qed.

Lemma load_and_clean_length raw :
  (length (load_and_clean raw).2 + dropped_rows raw = length raw)%nat.
Proof.
  rewrite load_and_clean_eq.
  unfold dropped_rows, Pd.astype_int32, Pd.ignore_index.
  rewrite length_map, dropna_length.
  apply filter_complement_length.
Qed.

Lemma int32_range z : Int.in_int32 (Int.int32 z).
Proof.
  unfold Int.in_int32, Int.int32, Int.wrap.
  change (2 ^ (32 - 1)) with 2147483648. change (2 ^ 31) with 2147483648.
  change (2 ^ 32) with 4294967296.
  pose proof (Z.mod_pos_bound (z + 2147483648) 4294967296 ltac:(lia)). lia.
Qed.

Lemma to_int32_range d v : Int.in_int32 (Pd.to_int32 d v).
Proof.
  destruct d; simpl; [apply int32_range|].
  unfold Int.in_int32.
  destruct (- 2 ^ 31 <=? v) eqn:Hlo; destruct (v <=? 2 ^ 31 - 1) eqn:Hhi; simpl; lia.
Qed.

Lemma float64_of_small z : Z.abs z <= 2 ^ 53 -> Np.float64_of_int z = z.
Proof.
  intros Hz. unfold Np.float64_of_int.
  by rewrite (proj2 (Z.leb_le _ _) Hz).
Qed.

(** A zone that fits an [int32] goes through the column and the cast
    unchanged, whatever the dtype of the column. *)
Lemma cast_of_int32 d z :
  Int.in_int32 z -> Pd.column_value d z = z /\ Pd.to_int32 d (Pd.column_value d z) = z.
Proof.
  intros Hz. unfold Int.in_int32 in Hz.
  destruct d; simpl.
  - split; [done|]. by apply int32_id.
  - rewrite float64_of_small by lia. split; [done|].
    rewrite (proj2 (Z.leb_le _ _)), (proj2 (Z.leb_le _ _)); [done|lia|lia].
Qed.

Lemma load_and_clean_elem raw e :
  e ∈ (load_and_clean raw).2 <->
  exists r z, raw !! label e = Some r
    /\ raw_pickup_datetime r = Some (pickup_datetime e)
    /\ raw_PULocationID r = Some z
    /\ PULocationID e
       = Pd.to_int32 (Pd.zone_dtype (map raw_PULocationID raw))
           (Pd.column_value (Pd.zone_dtype (map raw_PULocationID raw)) z).
Proof.
  rewrite load_and_clean_eq.
  unfold Pd.astype_int32, Pd.ignore_index.
  change map with (@fmap list _). rewrite list_elem_of_fmap. split.
  - intros (e0 & -> & He0). apply dropna_elem in He0 as (r & z & Hin & Ht & Hz & Hez).
    apply elem_of_zip_seq in Hin. exists r, z. simpl. by rewrite Hez.
  - intros (r & z & Hr & Ht & Hz & Hez).
    exists {| label := label e; pickup_datetime := pickup_datetime e; PULocationID := z |}.
    split; [destruct e; simpl in *; by rewrite Hez|].
    apply dropna_elem. exists r, z. simpl. by rewrite elem_of_zip_seq.
Qed.

Lemma sort_by_zone_and_time_length df : length (sort_by_zone_and_time df) = length df.
Proof.
  unfold sort_by_zone_and_time, Pd.sort_values.
  by rewrite reset_index_length, stable_sort_length.
Qed.

Lemma with_features_length df r dates : length (with_features df r dates) = length df.
Proof. apply length_imap. Qed.

(** ** The run of the script and its exceptions *)

Lemma load_and_clean_nil raw :
  (load_and_clean raw).2 = [] <-> Forall (fun r => ~ complete r) raw.
Proof.
  split.
  - intros Hnil. apply Forall_lookup. intros i r Hr [[t Ht] [z Hz]].
    set (d := Pd.zone_dtype (map raw_PULocationID raw)).
    assert ({| label := i; pickup_datetime := t;
               PULocationID := Pd.to_int32 d (Pd.column_value d z) |}
              ∈ (load_and_clean raw).2) as Hin.
    { apply load_and_clean_elem. exists r, z. done. }
    rewrite Hnil in Hin. by apply elem_of_nil in Hin.
  - intros Hall. destruct ((load_and_clean raw).2) as [|e l] eqn:Hl; [done|].
    assert (e ∈ (load_and_clean raw).2) as Hin by (rewrite Hl; by left).
    apply load_and_clean_elem in Hin as (r & z & Hr & Ht & Hz & _).
    rewrite Forall_lookup in Hall. exfalso. apply (Hall _ r Hr). split; eauto.
Qed.

Lemma normalize_some t : ~ on_first_day t -> Pd.normalize t = Some (Pd.floor_day t).
Proof.
  unfold on_first_day, Pd.normalize. intros Ht.
  by rewrite (proj2 (Z.leb_le _ _)) by lia.
Qed.

Lemma normalize_none t : on_first_day t -> Pd.normalize t = None.
Proof.
  unfold on_first_day, Pd.normalize. intros Ht.
  by rewrite (proj2 (Z.leb_gt _ _)) by lia.
Qed.

(** [normalize] on a column: it returns the midnights when no timestamp
    of the column is on the first day, and raises when one is. *)
Lemma normalize_column_ok ts :
  Forall (fun t => ~ on_first_day t) ts ->
  mapM Pd.normalize ts = Some (map Pd.floor_day ts).
Proof.
  induction 1 as [|t ts Ht _ IH]; [done|].
  cbn. by rewrite normalize_some, IH.
Qed.

Lemma normalize_column_raise ts :
  Exists on_first_day ts -> mapM Pd.normalize ts = None.
Proof.
  induction 1 as [t ts Ht|t ts _ IH].
  - cbn. by rewrite normalize_none.
  - cbn. rewrite IH. by destruct (Pd.normalize t).
Qed.

Lemma first_day_dec ts :
  Forall (fun t => ~ on_first_day t) ts \/ Exists on_first_day ts.
Proof.
  induction ts as [|t ts [IH|IH]].
  - left. constructor.
  - destruct (decide (Pd.floor_day t < Int.min_int64)) as [Ht|Ht].
    + right. by left.
    + left. by constructor.
  - right. by right.
Qed.

(** The three lines that print the ranges raise on an empty frame, line 65
    first, and on no other. *)
Lemma print_ranges_frame junk1 junk6 junk24 (df : list trip) :
  print_ranges (rolling_features junk1 junk6 junk24 df)
  = match df with
    | [] => Raise ValueError 65
    | _ :: _ => Ok tt
    end.
Proof.
  destruct (rolling_features_length junk1 junk6 junk24 df) as (H1 & H6 & H24).
  destruct (rolling_features junk1 junk6 junk24 df) as [a b c]. simpl in *.
  unfold print_ranges, print_range. simpl.
  destruct df as [|x df]; destruct a, b, c; simpl in *; try done.
Qed.

Lemma with_features_dated df r :
  with_features df r (map Pd.floor_day (map pickup_datetime df))
  = imap (fun i row =>
            {| tf_pickup_datetime := pickup_datetime row;
               tf_PULocationID := PULocationID row;
               rolling_1h := nth i (_r1h r) 0;
               rolling_6h := nth i (_r6h r) 0;
               rolling_24h := nth i (_r24h r) 0;
               date := Pd.floor_day (pickup_datetime row) |}) df.
Proof.
  unfold with_features. apply imap_ext. intros i row Hrow. f_equal.
  apply nth_lookup_Some with (d := 0).
  change map with (@fmap list _). by rewrite !list_lookup_fmap, Hrow.
Qed.

Lemma with_features_keys df r :
  map group_key (with_features df r (map Pd.floor_day (map pickup_datetime df)))
  = map day_key df.
Proof.
  rewrite with_features_dated. change map with (@fmap list _).
  rewrite fmap_imap. rewrite <- (imap_const day_key). by apply imap_ext.
Qed.

Lemma sorted_frame_day_keys df :
  map day_key (sort_by_zone_and_time df) ≡ₚ map day_key df.
Proof.
  assert (forall l : list trip,
            map day_key l = map (fun k : Z * Z => (Pd.floor_day k.2, k.1)) (map trip_key l))
    as Hkey by (intros l; by rewrite map_map).
  rewrite !Hkey. unfold sort_by_zone_and_time. rewrite reset_index_key.
  change map with (@fmap list _). by rewrite sort_values_perm.
Qed.

Lemma sorted_frame_times df :
  map pickup_datetime (sort_by_zone_and_time df) ≡ₚ map pickup_datetime df.
Proof.
  rewrite !map_time_key. unfold sort_by_zone_and_time. rewrite reset_index_key.
  change map with (@fmap list _). by rewrite sort_values_perm.
Qed.

Section run.
Context {F : Type} (mean : list Z -> F) (round2 : F -> F).

(** The daily table of a frame whose dates exist. *)
Local Abbreviation daily_of junk1 junk6 junk24 df :=
  (daily_zone_features mean round2
     (with_features df (rolling_features junk1 junk6 junk24 df)
        (map Pd.floor_day (map pickup_datetime df)))).

Local Abbreviation computed_for df :=
  ("Trip-level rolling features computed for"%string, Z.of_nat (length df)).

Lemma summarise_empty junk1 junk6 junk24 out :
  summarise mean round2 junk1 junk6 junk24 out []
  = (out ++ [computed_for (@nil trip)], Raise ValueError 65).
Proof. unfold summarise. by rewrite print_ranges_frame. Qed.

Lemma summarise_first_day junk1 junk6 junk24 out df :
  df <> [] -> Exists on_first_day (map pickup_datetime df) ->
  summarise mean round2 junk1 junk6 junk24 out df
  = (out ++ [computed_for df], Raise ValueError 72).
Proof.
  intros Hne Hex. unfold summarise. rewrite print_ranges_frame.
  destruct df as [|x df]; [done|]. by rewrite normalize_column_raise.
Qed.

Lemma summarise_ok junk1 junk6 junk24 out df :
  df <> [] -> Forall (fun t => ~ on_first_day t) (map pickup_datetime df) ->
  summarise mean round2 junk1 junk6 junk24 out df
  = ((out ++ [computed_for df]) ++ [("Total trips"%string, Z.of_nat (length df))],
     Ok (daily_of junk1 junk6 junk24 df)).
Proof.
  intros Hne Hall. unfold summarise. rewrite print_ranges_frame.
  destruct df as [|x df]; [done|]. rewrite normalize_column_ok by done.
  by rewrite daily_trips_total, with_features_length.
Qed.

(** A run that returns went through lines 65 and 72. *)
Lemma summarise_returns junk1 junk6 junk24 out df daily :
  (summarise mean round2 junk1 junk6 junk24 out df).2 = Ok daily ->
  df <> []
  /\ Forall (fun t => ~ on_first_day t) (map pickup_datetime df)
  /\ daily = daily_of junk1 junk6 junk24 df.
Proof.
  intros Hrun. destruct df as [|x df].
  { by rewrite summarise_empty in Hrun. }
  destruct (first_day_dec (map pickup_datetime (x :: df))) as [Hall|Hex].
  - rewrite summarise_ok in Hrun by done. simpl in Hrun. by simplify_eq.
  - rewrite summarise_first_day in Hrun by done. done.
Qed.

Lemma pipeline_eq junk1 junk6 junk24 raw :
  pipeline mean round2 junk1 junk6 junk24 raw
  = summarise mean round2 junk1 junk6 junk24
      [("Total trips loaded"%string, Z.of_nat (length raw))]
      (sort_by_zone_and_time (load_and_clean raw).2).
Proof.
  unfold pipeline.
  change (load_and_clean raw)
    with ([("Total trips loaded"%string, Z.of_nat (length (Pd.ignore_index raw)))],
          (load_and_clean raw).2).
  cbv beta iota. unfold Pd.ignore_index. by rewrite length_zip, length_seq, Nat.min_id.
Qed.

Lemma pipeline_returns junk1 junk6 junk24 raw daily :
  (pipeline mean round2 junk1 junk6 junk24 raw).2 = Ok daily ->
  let frame := sort_by_zone_and_time (load_and_clean raw).2 in
  (load_and_clean raw).2 <> []
  /\ Forall (fun e => ~ on_first_day (pickup_datetime e)) (load_and_clean raw).2
  /\ daily = daily_of junk1 junk6 junk24 frame.
Proof.
  rewrite pipeline_eq. intros Hrun frame.
  apply summarise_returns in Hrun as (Hne & Hall & Hd). fold frame in Hne, Hall, Hd.
  split; [|split; [|done]].
  - intros Hnil. apply Hne. subst frame. by rewrite Hnil.
  - subst frame. rewrite sorted_frame_times in Hall.
    rewrite Forall_forall in Hall. apply Forall_forall. intros e He. apply Hall.
    change map with (@fmap list _). apply list_elem_of_fmap. eauto.
Qed.
Local Abbreviation loaded raw :=
  ("Total trips loaded"%string, Z.of_nat (length raw)).
Local Abbreviation kept raw :=
  ("Trip-level rolling features computed for"%string,
   Z.of_nat (length (load_and_clean raw).2)).

(** The three ways the script ends. *)
Lemma pipeline_no_rows junk1 junk6 junk24 raw :
  (load_and_clean raw).2 = [] ->
  pipeline mean round2 junk1 junk6 junk24 raw
  = ([loaded raw; kept raw], Raise ValueError 65).
Proof. intros Hnil. rewrite pipeline_eq, Hnil. apply summarise_empty. Qed.

Lemma pipeline_first_day junk1 junk6 junk24 raw :
  (load_and_clean raw).2 <> [] ->
  Exists (fun e => on_first_day (pickup_datetime e)) (load_and_clean raw).2 ->
  pipeline mean round2 junk1 junk6 junk24 raw
  = ([loaded raw; kept raw], Raise ValueError 72).
Proof.
  intros Hne Hex. rewrite pipeline_eq, summarise_first_day.
  - by rewrite sort_by_zone_and_time_length.
  - intros Hnil. apply (f_equal length) in Hnil.
    rewrite sort_by_zone_and_time_length in Hnil. by apply nil_length_inv in Hnil.
  - rewrite sorted_frame_times. apply Exists_exists in Hex as (e & He & Hfirst).
    apply Exists_exists. exists (pickup_datetime e). split; [|done].
    change map with (@fmap list _). apply list_elem_of_fmap. eauto.
Qed.

Lemma pipeline_ok junk1 junk6 junk24 raw :
  (load_and_clean raw).2 <> [] ->
  Forall (fun e => ~ on_first_day (pickup_datetime e)) (load_and_clean raw).2 ->
  pipeline mean round2 junk1 junk6 junk24 raw
  = ([loaded raw; kept raw;
      ("Total trips"%string, Z.of_nat (length (load_and_clean raw).2))],
     Ok (daily_of junk1 junk6 junk24 (sort_by_zone_and_time (load_and_clean raw).2))).
Proof.
  intros Hne Hall. rewrite pipeline_eq, summarise_ok.
  - by rewrite sort_by_zone_and_time_length.
  - intros Hnil. apply (f_equal length) in Hnil.
    rewrite sort_by_zone_and_time_length in Hnil. by apply nil_length_inv in Hnil.
  - rewrite sorted_frame_times. apply Forall_forall. intros t Ht.
    change map with (@fmap list _) in Ht. apply list_elem_of_fmap in Ht as (e & -> & He).
    rewrite Forall_forall in Hall. by apply Hall.
Qed.

Lemma first_day_rows_dec (df : list trip) :
  Forall (fun e => ~ on_first_day (pickup_datetime e)) df
  \/ Exists (fun e => on_first_day (pickup_datetime e)) df.
Proof.
  induction df as [|e df [IH|IH]].
  - left. constructor.
  - destruct (decide (Pd.floor_day (pickup_datetime e) < Int.min_int64)) as [Ht|Ht].
    + right. by left.
    + left. by constructor.
  - right. by right.
Qed.
End run.

(** ** The claims on the clean-up *)

(** C7, amended.  The clean-up keeps exactly the raw records that have
    both a pickup time and a zone, and returns for each of them an event
    with that pickup time and with that zone cast to [int32], which is the
    zone itself whenever it fits an [int32]; the records it drops are
    [dropped_rows raw] in number.  That number is not printed: the script
    prints the number of rows before the clean-up, the number of rows
    after it and, when the run reaches its end, that number once more. *)
Theorem clean_up_keeps_complete_rows {F : Type} (mean : list Z -> F) (round2 : F -> F)
    (junk1 junk6 junk24 : nat -> Z) (raw : list raw_trip) :
  let _trips := (load_and_clean raw).2 in
  let d := Pd.zone_dtype (map raw_PULocationID raw) in
  let run := pipeline mean round2 junk1 junk6 junk24 raw in
  (forall i r, raw !! i = Some r ->
     (complete r <-> exists e, e ∈ _trips /\ label e = i))
  /\ (forall e, e ∈ _trips ->
        exists r z, raw !! label e = Some r
          /\ raw_pickup_datetime r = Some (pickup_datetime e)
          /\ raw_PULocationID r = Some z
          /\ PULocationID e = Pd.to_int32 d (Pd.column_value d z)
          /\ Int.in_int32 (PULocationID e)
          /\ (Int.in_int32 z -> PULocationID e = z))
  /\ (length _trips + dropped_rows raw = length raw)%nat
  /\ run.1
     = [("Total trips loaded"%string, Z.of_nat (length raw));
        ("Trip-level rolling features computed for"%string,
         Z.of_nat (length raw) - Z.of_nat (dropped_rows raw))]
       ++ match run.2 with
          | Ok _ => [("Total trips"%string,
                      Z.of_nat (length raw) - Z.of_nat (dropped_rows raw))]
          | Raise _ _ => []
          end.
Proof.
  intros _trips d run. subst _trips run.
  pose proof (load_and_clean_length raw) as Hlen.
  split; [|split; [|split; [done|]]].
  - intros i r Hr. split.
    + intros [[t Ht] [z Hz]].
      exists {| label := i; pickup_datetime := t;
                PULocationID := Pd.to_int32 d (Pd.column_value d z) |}.
      split; [|done]. apply load_and_clean_elem. exists r, z. done.
    + intros (e & He & <-). apply load_and_clean_elem in He as (r' & z & Hr' & Ht & Hz & _).
      rewrite Hr in Hr'. simplify_eq. split; eauto.
  - intros e He. apply load_and_clean_elem in He as (r & z & Hr & Ht & Hz & Hez).
    fold d in Hez. exists r, z. do 4 (split; [done|]). rewrite Hez.
    split; [apply to_int32_range|]. intros Hfit. by apply cast_of_int32.
  - assert (Z.of_nat (length raw) - Z.of_nat (dropped_rows raw)
            = Z.of_nat (length (load_and_clean raw).2)) as -> by lia.
    destruct (decide ((load_and_clean raw).2 = [])) as [Hnil|Hne].
    { by rewrite pipeline_no_rows. }
    destruct (first_day_rows_dec (load_and_clean raw).2) as [Hall|Hex].
    + by rewrite pipeline_ok.
    + by rewrite pipeline_first_day.
Qed.

Lemma clean_up_keeps_complete_rows_witness :
  complete {| raw_pickup_datetime := Some 1735689600000000000; raw_PULocationID := Some 132 |}
  <-> exists e,
        e ∈ (load_and_clean
               [ {| raw_pickup_datetime := Some 1735689600000000000; raw_PULocationID := Some 132 |};
                 {| raw_pickup_datetime := None; raw_PULocationID := Some 132 |} ]).2
        /\ label e = O.
Proof.
  apply (proj1 (clean_up_keeps_complete_rows (fun _ : list Z => tt) (fun u => u)
                  (fun _ => 0) (fun _ => 0) (fun _ => 0)
                  [ {| raw_pickup_datetime := Some 1735689600000000000; raw_PULocationID := Some 132 |};
                    {| raw_pickup_datetime := None; raw_PULocationID := Some 132 |} ])).
  reflexivity.
Defined.

(** C7 as stated fails on its last part: of eight raw records of which
    five lack a field, the script prints 8, 3 and 3, never 5. *)
Lemma dropped_count_is_not_printed :
  ~ (forall (F : Type) (mean : list Z -> F) (round2 : F -> F)
            (junk1 junk6 junk24 : nat -> Z) (raw : list raw_trip),
        (forall i r, raw !! i = Some r ->
           (complete r <-> exists e, e ∈ (load_and_clean raw).2 /\ label e = i))
        /\ exists text,
             (text, Z.of_nat (dropped_rows raw))
               ∈ (pipeline mean round2 junk1 junk6 junk24 raw).1).
Proof.
  intros H.
  set (raw :=
         [ {| raw_pickup_datetime := Some 1735689600000000000; raw_PULocationID := Some 132 |};
           {| raw_pickup_datetime := None; raw_PULocationID := Some 132 |};
           {| raw_pickup_datetime := None; raw_PULocationID := Some 79 |};
           {| raw_pickup_datetime := Some 1735691400000000000; raw_PULocationID := Some 132 |};
           {| raw_pickup_datetime := Some 1735693200000000000; raw_PULocationID := None |};
           {| raw_pickup_datetime := None; raw_PULocationID := None |};
           {| raw_pickup_datetime := Some 1735693200000000000; raw_PULocationID := Some 132 |};
           {| raw_pickup_datetime := Some 1735696800000000000; raw_PULocationID := None |} ]).
  destruct (H unit (fun _ => tt) (fun u => u) (fun _ => 0) (fun _ => 0) (fun _ => 0) raw)
    as [_ [text Hin]].
  assert ((pipeline (fun _ : list Z => tt) (fun u => u)
             (fun _ => 0) (fun _ => 0) (fun _ => 0) raw).1
          = [("Total trips loaded"%string, 8);
             ("Trip-level rolling features computed for"%string, 3);
             ("Total trips"%string, 3)]) as Hout by (vm_compute; reflexivity).
  assert (Z.of_nat (dropped_rows raw) = 5) as Hd by (vm_compute; reflexivity).
  rewrite Hout, Hd in Hin.
  rewrite !elem_of_cons, elem_of_nil in Hin.
  destruct Hin as [Hin|[Hin|[Hin|[]]]]; discriminate Hin.
Qed.

(** ** The claims on the daily summaries *)

(** C8.  When the script reaches its end, for every zone, the
    [daily_trips] of the daily rows of that zone add up to the number of
    events of that zone that the clean-up returned: the grouping by
    (date, zone) loses no event and counts none twice. *)
Theorem daily_trips_sum_per_zone {F : Type} (mean : list Z -> F) (round2 : F -> F)
    (junk1 junk6 junk24 : nat -> Z) (raw : list raw_trip) (daily : list (daily_row F))
    (z : Z) :
  (pipeline mean round2 junk1 junk6 junk24 raw).2 = Ok daily ->
  sum_Z (map daily_trips (filter (fun d => zone d = z) daily))
  = Z.of_nat (length (filter (fun e => PULocationID e = z) (load_and_clean raw).2)).
Proof.
  intros Hrun. apply pipeline_returns in Hrun as (_ & _ & ->).
  rewrite daily_trips_of_zone.
  rewrite (filter_length_map tf_PULocationID), with_features_zone.
  rewrite (filter_length_map PULocationID).
  by rewrite sorted_frame_zone_perm.
Qed.

Lemma daily_trips_sum_per_zone_witness :
  let raw :=
    [ {| raw_pickup_datetime := Some 1735693200000000000; raw_PULocationID := Some 132 |};
      {| raw_pickup_datetime := Some 1735691400000000000; raw_PULocationID := Some 79 |};
      {| raw_pickup_datetime := None; raw_PULocationID := Some 132 |};
      {| raw_pickup_datetime := Some 1735779600000000000; raw_PULocationID := Some 132 |} ] in
  let daily :=
    [ {| ds_date := 1735689600000000000; zone := 79; daily_trips := 1;
         rolling_1h_mean := tt; rolling_6h_mean := tt; rolling_24h_mean := tt |};
      {| ds_date := 1735689600000000000; zone := 132; daily_trips := 1;
         rolling_1h_mean := tt; rolling_6h_mean := tt; rolling_24h_mean := tt |};
      {| ds_date := 1735776000000000000; zone := 132; daily_trips := 1;
         rolling_1h_mean := tt; rolling_6h_mean := tt; rolling_24h_mean := tt |} ] in
  sum_Z (map daily_trips (filter (fun d => zone d = 132) daily))
  = Z.of_nat (length (filter (fun e => PULocationID e = 132) (load_and_clean raw).2)).
Proof.
  intros raw daily.
  apply (daily_trips_sum_per_zone (fun _ : list Z => tt) (fun u => u)
           (fun _ => 0) (fun _ => 0) (fun _ => 0) raw daily 132).
  vm_compute. reflexivity.
Defined.

(** The frame after the sort and the reset of the index is the same
    whichever order the sort leaves equal rows in: it is fixed by the
    (zone, pickup time) pairs of the rows. *)
Lemma insert_sorted_keys (x : trip) (l : list trip) :
  map trip_key (insert_sorted Pd.trip_leb x l)
  = insert_sorted key_leb (trip_key x) (map trip_key l).
Proof.
  induction l as [|y l IH]; [done|].
  simpl. rewrite <- trip_leb_key.
  destruct (Pd.trip_leb x y); simpl; [done|]. by rewrite IH.
Qed.

Lemma sort_values_keys (df : list trip) :
  map trip_key (Pd.sort_values df) = stable_sort key_leb (map trip_key df).
Proof.
  unfold Pd.sort_values. induction df as [|x df IH]; [done|].
  simpl. by rewrite insert_sorted_keys, IH.
Qed.

Lemma reset_index_of_keys (df : list trip) :
  Pd.reset_index df
  = imap (fun i k => {| label := i; pickup_datetime := k.2; PULocationID := k.1 |})
         (map trip_key df).
Proof.
  unfold Pd.reset_index. change map with (@fmap list _).
  rewrite imap_fmap. by apply imap_ext.
Qed.

Lemma sorted_frame_unique (df sorted : list trip) :
  sorted ≡ₚ df -> StronglySorted lex_le (map trip_key sorted) ->
  Pd.reset_index sorted = sort_by_zone_and_time df.
Proof.
  intros Hp Hs. unfold sort_by_zone_and_time.
  rewrite !reset_index_of_keys. f_equal.
  apply (StronglySorted_unique_strong lex_le); [|done|apply sort_values_sorted|].
  - intros a b _ _. apply lex_le_antisym.
  - change map with (@fmap list _). by rewrite Hp, sort_values_perm.
Qed.

(** C9.  Two runs of the script on the same raw table end the same way,
    with the same exception or with the same daily rows, and print the
    same counts, whatever the arrays of [np.empty] held at the start of
    each run and in whatever order the sort of each run left the trips of
    equal zone and pickup time.  The rows of a run that returns come in
    strictly ascending order of (date, zone). *)
Theorem pipeline_deterministic {F : Type} (mean : list Z -> F) (round2 : F -> F)
    (raw : list raw_trip) (sorted1 sorted2 : list trip)
    (j1 j6 j24 k1 k6 k24 : nat -> Z) :
  let out := (load_and_clean raw).1 in
  let run1 := summarise mean round2 j1 j6 j24 out (Pd.reset_index sorted1) in
  let run2 := summarise mean round2 k1 k6 k24 out (Pd.reset_index sorted2) in
  sorted1 ≡ₚ (load_and_clean raw).2 -> StronglySorted lex_le (map trip_key sorted1) ->
  sorted2 ≡ₚ (load_and_clean raw).2 -> StronglySorted lex_le (map trip_key sorted2) ->
  run1 = run2
  /\ run1 = pipeline mean round2 j1 j6 j24 raw
  /\ forall daily, run1.2 = Ok daily ->
       StronglySorted lex_lt (map (fun d => (ds_date d, zone d)) daily).
Proof.
  intros out run1 run2 Hp1 Hs1 Hp2 Hs2. subst run1 run2.
  rewrite (sorted_frame_unique _ _ Hp1 Hs1), (sorted_frame_unique _ _ Hp2 Hs2).
  split; [|split].
  - unfold summarise.
    by rewrite (rolling_features_junk j1 j6 j24 k1 k6 k24) by apply sorted_frame_zone.
  - unfold pipeline, out. by destruct (load_and_clean raw).
  - intros daily Hrun. apply summarise_returns in Hrun as (_ & _ & ->).
    rewrite daily_rows_keys. apply group_keys_sorted.
Qed.

Lemma pipeline_deterministic_witness :
  let raw :=
    [ {| raw_pickup_datetime := Some 1735693200000000000; raw_PULocationID := Some 132 |};
      {| raw_pickup_datetime := Some 1735691400000000000; raw_PULocationID := Some 79 |};
      {| raw_pickup_datetime := Some 1735693200000000000; raw_PULocationID := Some 132 |} ] in
  let sorted1 :=
    [ {| label := 1; pickup_datetime := 1735691400000000000; PULocationID := 79 |};
      {| label := 0; pickup_datetime := 1735693200000000000; PULocationID := 132 |};
      {| label := 2; pickup_datetime := 1735693200000000000; PULocationID := 132 |} ] in
  let sorted2 :=
    [ {| label := 1; pickup_datetime := 1735691400000000000; PULocationID := 79 |};
      {| label := 2; pickup_datetime := 1735693200000000000; PULocationID := 132 |};
      {| label := 0; pickup_datetime := 1735693200000000000; PULocationID := 132 |} ] in
  let out := (load_and_clean raw).1 in
  let run1 := summarise (fun _ : list Z => tt) (fun u => u)
                (fun _ => 0) (fun _ => 0) (fun _ => 0) out (Pd.reset_index sorted1) in
  let run2 := summarise (fun _ : list Z => tt) (fun u => u)
                (fun _ => 5) (fun _ => 6) (fun _ => 7) out (Pd.reset_index sorted2) in
  run1 = run2
  /\ run1 = pipeline (fun _ : list Z => tt) (fun u => u)
              (fun _ => 0) (fun _ => 0) (fun _ => 0) raw
  /\ forall daily, run1.2 = Ok daily ->
       StronglySorted lex_lt (map (fun d => (ds_date d, zone d)) daily).
Proof.
  intros raw sorted1 sorted2.
  apply (pipeline_deterministic (fun _ : list Z => tt) (fun u => u) raw sorted1 sorted2
           (fun _ => 0) (fun _ => 0) (fun _ => 0) (fun _ => 5) (fun _ => 6) (fun _ => 7)).
  - vm_compute. apply Permutation_swap.
  - unfold lex_le. repeat (apply SSorted_cons || apply SSorted_nil || apply Forall_cons_2
                           || apply Forall_nil_2); simpl; lia.
  - vm_compute. etrans; [apply Permutation_skip, Permutation_swap|apply Permutation_swap].
  - unfold lex_le. repeat (apply SSorted_cons || apply SSorted_nil || apply Forall_cons_2
                           || apply Forall_nil_2); simpl; lia.
Defined.


(** * Further properties of the rolling counts *)

(** ** What the counter returns on any input *)

Lemma binsearch_left_range fuel arr key lo hi :
  (lo <= hi)%nat ->
  (lo <= (Np.binsearch_left fuel arr key lo hi).1 <= hi)%nat
  /\ (lo <= (Np.binsearch_left fuel arr key lo hi).2 <= hi)%nat.
Proof.
  revert lo hi. induction fuel as [|fuel IH]; intros lo hi Hle.
  - simpl. lia.
  - rewrite binsearch_left_step.
    destruct (Nat.ltb_spec lo hi) as [Hlt|Hge]; [|simpl; lia].
    pose proof (midpoint_bounds lo hi Hlt) as Hmid.
    generalize dependent (lo + (hi - lo) / 2)%nat. intros mid Hmid.
    destruct (nth mid arr 0 <? key).
    + destruct (IH (S mid) hi ltac:(lia)). lia.
    + destruct (IH lo mid ltac:(lia)). lia.
Qed.

Lemma searchsorted_loop_range arr keys last lo hi :
  (lo <= length arr)%nat -> (hi <= length arr)%nat ->
  Forall (fun j => j <= length arr)%nat (Np.searchsorted_loop arr keys last lo hi).
Proof.
  revert last lo hi. induction keys as [|k keys IH]; intros last lo hi Hlo Hhi; [constructor|].
  cbn [Np.searchsorted_loop].
  set (lo0 := if last <? k then lo else O).
  set (hi0 := if last <? k then length arr
              else if (hi <? length arr)%nat then S hi else length arr).
  assert (lo0 <= hi0 <= length arr)%nat as Hb.
  { subst lo0 hi0. destruct (last <? k); [lia|].
    destruct (Nat.ltb_spec hi (length arr)); lia. }
  pose proof (binsearch_left_range (hi0 - lo0) arr k lo0 hi0 ltac:(lia)) as [H1 H2].
  destruct (Np.binsearch_left (hi0 - lo0) arr k lo0 hi0) as [lo' hi']. simpl in *.
  constructor; [lia|]. apply IH; lia.
Qed.

Lemma searchsorted_range arr keys :
  Forall (fun j => j <= length arr)%nat (Np.searchsorted arr keys).
Proof.
  destruct keys as [|k keys]; [constructor|].
  apply searchsorted_loop_range; lia.
Qed.

(** Whatever the timestamps of a zone - unsorted, or so early that the
    subtraction wraps - the count of the event at local index [i] lies
    between [i - length] and [i]. *)
Theorem rolling_count_range ns t i c :
  rolling_counts ns t !! i = Some c ->
  Z.of_nat i - Z.of_nat (length t) <= c <= Z.of_nat i.
Proof.
  unfold rolling_counts. intros Hc.
  apply lookup_zip_with_Some in Hc as (a & b & -> & Ha & Hb).
  pose proof (lookup_lt_Some _ _ _ Ha) as Hi. rewrite arange_length in Hi.
  rewrite arange_lookup in Ha by done. simplify_eq.
  rewrite list_lookup_fmap in Hb.
  destruct (Np.searchsorted t _ !! i) as [j|] eqn:Hj; [|done]. simpl in Hb. simplify_eq.
  pose proof (searchsorted_range t (map (fun x => Int.sub64 x ns) t)) as Hall.
  rewrite Forall_lookup in Hall. specialize (Hall i j Hj). simpl in Hall. lia.
Qed.

Lemma rolling_count_range_witness :
  Z.of_nat 1 - Z.of_nat (length [1735693200000000000; -9223372036854775807]) <= -1
  <= Z.of_nat 1.
Proof.
  apply (rolling_count_range _ns_24h [1735693200000000000; -9223372036854775807] 1 (-1)).
  vm_compute. reflexivity.
Defined.

(** ** The window slides *)

(** Of two consecutive events of a zone with the same timestamp the second
    counts the first: its count is one more, for every window, also where
    the subtraction wraps. *)
Theorem tied_events_count_each_other ns t i x :
  StronglySorted Z.le t -> t !! i = Some x -> t !! S i = Some x ->
  exists c, rolling_counts ns t !! i = Some c
    /\ rolling_counts ns t !! S i = Some (c + 1).
Proof.
  intros Hs Hi HSi. eexists. split; [by apply rolling_counts_lookup|].
  rewrite (rolling_counts_lookup ns t (S i) x) by done. f_equal. lia.
Qed.

Lemma tied_events_count_each_other_witness :
  exists c,
    rolling_counts _ns_1h
      [1735689600000000000; 1735691400000000000; 1735691400000000000] !! 1%nat = Some c
    /\ rolling_counts _ns_1h
         [1735689600000000000; 1735691400000000000; 1735691400000000000] !! 2%nat
       = Some (c + 1).
Proof.
  apply (tied_events_count_each_other _ns_1h
           [1735689600000000000; 1735691400000000000; 1735691400000000000]
           1 1735691400000000000).
  - repeat constructor; lia.
  - reflexivity.
  - reflexivity.
Defined.

(** From one event of a zone to the next the count grows by one at most:
    the next event counts the one before it and loses the events that have
    left the window. *)
Theorem rolling_count_grows_by_one_at_most ns t i x y :
  StronglySorted Z.le t -> 0 <= ns ->
  t !! i = Some x -> t !! S i = Some y ->
  Int.in_int64 (x - ns) -> Int.in_int64 (y - ns) ->
  exists c c', rolling_counts ns t !! i = Some c
    /\ rolling_counts ns t !! S i = Some c'
    /\ 0 <= c' <= c + 1.
Proof.
  intros Hs Hns Hi HSi Hx Hy.
  pose proof (sorted_lookup_le t i (S i) x y Hs ltac:(lia) Hi HSi) as Hxy.
  exists (Z.of_nat (prior_from (x - ns) t i)), (Z.of_nat (prior_from (y - ns) t (S i))).
  split; [by apply rolling_counts_prior|]. split; [by apply rolling_counts_prior|].
  pose proof (count_lt_prior (x - ns) t i x Hs Hi ltac:(lia)).
  pose proof (count_lt_prior (y - ns) t (S i) y Hs HSi ltac:(lia)).
  pose proof (count_lt_mono (x - ns) (y - ns) t ltac:(lia)). lia.
Qed.

Lemma rolling_count_grows_by_one_at_most_witness :
  exists c c',
    rolling_counts _ns_1h
      [1735689600000000000; 1735691400000000000; 1735696800000000000] !! 1%nat = Some c
    /\ rolling_counts _ns_1h
         [1735689600000000000; 1735691400000000000; 1735696800000000000] !! 2%nat = Some c'
    /\ 0 <= c' <= c + 1.
Proof.
  apply (rolling_count_grows_by_one_at_most _ns_1h
           [1735689600000000000; 1735691400000000000; 1735696800000000000]
           1 1735691400000000000 1735696800000000000).
  - repeat constructor; lia.
  - unfold _ns_1h. lia.
  - reflexivity.
  - reflexivity.
  - unfold Int.in_int64, Int.min_int64, Int.max_int64, _ns_1h. lia.
  - unfold Int.in_int64, Int.min_int64, Int.max_int64, _ns_1h. lia.
Defined.

Lemma prior_from_none lo t i :
  Forall (fun y => y < lo) (take i t) -> prior_from lo t i = O.
Proof.
  unfold prior_from. induction 1 as [|y l Hy _ IH]; [done|].
  rewrite filter_cons. destruct (decide (lo <= y)); [lia|done].
Qed.

Lemma prior_from_all lo t i :
  (i <= length t)%nat -> Forall (fun y => lo <= y) (take i t) -> prior_from lo t i = i.
Proof.
  intros Hi Hall. unfold prior_from.
  assert (length (take i t) = i) as Hlen by (rewrite length_take; lia).
  rewrite <- Hlen at 2. clear Hlen Hi.
  induction Hall as [|y l Hy _ IH]; [done|].
  rewrite filter_cons. destruct (decide (lo <= y)); [simpl; by rewrite IH|lia].
Qed.

(** An event that comes more than a window after the event before it, in
    its zone, gets the count 0. *)
Theorem rolling_count_after_a_gap ns t i p x :
  StronglySorted Z.le t -> 0 <= ns -> Int.in_int64 (x - ns) ->
  t !! i = Some p -> t !! S i = Some x -> p < x - ns ->
  rolling_counts ns t !! S i = Some 0.
Proof.
  intros Hs Hns Hr Hp Hx Hgap.
  rewrite (rolling_counts_prior ns t (S i) x) by done.
  rewrite prior_from_none; [done|].
  apply Forall_lookup. intros j y Hj.
  apply lookup_take_Some in Hj as [Hj Hlt].
  pose proof (sorted_lookup_le t j i y p Hs ltac:(lia) Hj Hp). lia.
Qed.

Lemma rolling_count_after_a_gap_witness :
  rolling_counts _ns_1h
    [1735689600000000000; 1735691400000000000; 1735696800000000000] !! 2%nat = Some 0.
Proof.
  apply (rolling_count_after_a_gap _ns_1h
           [1735689600000000000; 1735691400000000000; 1735696800000000000]
           1 1735691400000000000 1735696800000000000).
  - repeat constructor; lia.
  - unfold _ns_1h. lia.
  - unfold Int.in_int64, Int.min_int64, Int.max_int64, _ns_1h. lia.
  - reflexivity.
  - reflexivity.
  - unfold _ns_1h. lia.
Defined.

(** In a sorted zone, an event whose window is not negative, has a left
    end representable in [int64] and reaches back to the first event of
    the zone counts every event before it: its count is its local
    index. *)
Theorem rolling_count_of_a_full_window ns t i x0 x :
  StronglySorted Z.le t -> 0 <= ns -> Int.in_int64 (x - ns) ->
  t !! O = Some x0 -> t !! i = Some x -> x - ns <= x0 ->
  rolling_counts ns t !! i = Some (Z.of_nat i).
Proof.
  intros Hs Hns Hr H0 Hx Hfull.
  rewrite (rolling_counts_prior ns t i x) by done.
  rewrite prior_from_all; [done|by apply lookup_lt_Some, Nat.lt_le_incl in Hx|].
  apply Forall_lookup. intros j y Hj.
  apply lookup_take_Some in Hj as [Hj Hlt].
  pose proof (sorted_lookup_le t 0 j x0 y Hs ltac:(lia) H0 Hj). lia.
Qed.

Lemma rolling_count_of_a_full_window_witness :
  rolling_counts _ns_24h
    [1735689600000000000; 1735691400000000000; 1735696800000000000] !! 2%nat
  = Some (Z.of_nat 2).
Proof.
  apply (rolling_count_of_a_full_window _ns_24h
           [1735689600000000000; 1735691400000000000; 1735696800000000000]
           2 1735689600000000000 1735696800000000000).
  - repeat constructor; lia.
  - unfold _ns_24h. lia.
  - unfold Int.in_int64, Int.min_int64, Int.max_int64, _ns_24h. lia.
  - reflexivity.
  - reflexivity.
  - unfold _ns_24h. lia.
Defined.

(** ** Moving the clock *)

Lemma count_lt_shift k d t :
  count_lt (k + d) (map (fun x => x + d) t) = count_lt k t.
Proof.
  induction t as [|y t IH]; [done|].
  simpl. rewrite !count_lt_cons, IH.
  destruct (decide (y + d < k + d)), (decide (y < k)); lia.
Qed.

(** The counts depend on the differences of the timestamps only: moving
    all the events of a zone by the same [d] changes no count, as long as
    no left end of a window leaves [int64] before or after the move. *)
Theorem rolling_counts_shift ns d t :
  StronglySorted Z.le t ->
  Forall (fun x => Int.in_int64 (x - ns) /\ Int.in_int64 (x + d - ns)) t ->
  rolling_counts ns (map (fun x => x + d) t) = rolling_counts ns t.
Proof.
  intros Hs Hr. apply list_eq. intros i.
  destruct (t !! i) as [x|] eqn:Hx.
  - rewrite Forall_lookup in Hr. destruct (Hr i x Hx) as [Hr1 Hr2].
    rewrite (rolling_counts_lookup ns t i x) by done.
    rewrite (rolling_counts_lookup ns _ i (x + d)).
    + unfold Int.sub64. rewrite !int64_id by done.
      replace (x + d - ns) with (x - ns + d) by lia. by rewrite count_lt_shift.
    + apply (StronglySorted_fmap _ Z.le Z.le); [intros; lia|done].
    + change map with (@fmap list _). by rewrite list_lookup_fmap, Hx.
  - apply lookup_ge_None in Hx.
    rewrite !lookup_ge_None_2; [done|..]; rewrite rolling_counts_length, ?length_map; lia.
Qed.

Lemma rolling_counts_shift_witness :
  rolling_counts _ns_6h
    (map (fun x => x + 86400000000000)
       [1735689600000000000; 1735700000000000000; 1735720000000000000])
  = rolling_counts _ns_6h [1735689600000000000; 1735700000000000000; 1735720000000000000].
Proof.
  apply (rolling_counts_shift _ns_6h 86400000000000
           [1735689600000000000; 1735700000000000000; 1735720000000000000]).
  - repeat constructor; lia.
  - repeat constructor;
      unfold Int.in_int64, Int.min_int64, Int.max_int64, _ns_6h; lia.
Defined.

(** ** The arrays of the whole frame *)

Lemma filter_length_none {A : Type} (P : A -> Prop) `{!forall x, Decision (P x)}
    (l : list A) :
  Forall (fun x => ~ P x) l -> length (filter P l) = O.
Proof.
  induction 1 as [|x l Hx _ IH]; [done|].
  rewrite filter_cons. by destruct (decide (P x)).
Qed.

Lemma filter_length_iff {A : Type} (P Q : A -> Prop)
    `{!forall x, Decision (P x)} `{!forall x, Decision (Q x)} (l : list A) :
  Forall (fun x => P x <-> Q x) l -> length (filter P l) = length (filter Q l).
Proof.
  induction 1 as [|x l Hx _ IH]; [done|].
  rewrite !filter_cons. destruct (decide (P x)), (decide (Q x)); simpl; tauto || lia.
Qed.

Lemma filter_length_fmap {A : Type} (f : A -> Z) (lo : Z) (l : list A) :
  length (filter (fun y => lo <= y) (map f l))
  = length (filter (fun r => lo <= f r) l).
Proof.
  induction l as [|x l IH]; [done|].
  simpl. rewrite !filter_cons. destruct (decide (lo <= f x)); simpl; by rewrite IH.
Qed.

(** Within its zone range, the events in front of a row are the rows of
    its zone in front of it in the frame. *)
Lemma prior_from_slice lo (frame : list trip) s e g row :
  (forall i r, frame !! i = Some r ->
     (PULocationID r = PULocationID row <-> (s <= i < e)%nat)) ->
  (s <= g < e)%nat -> (e <= length frame)%nat ->
  prior_from lo (Np.slice s e (map pickup_datetime frame)) (g - s)
  = prior_trips lo frame g row.
Proof.
  intros Hzone Hg He. unfold prior_from, prior_trips, Np.slice.
  rewrite take_take. replace ((g - s) `min` (e - s))%nat with (g - s)%nat by lia.
  change map with (@fmap list _). rewrite <- fmap_drop, <- fmap_take.
  change (@fmap list _) with (@map). rewrite filter_length_fmap.
  replace g with (s + (g - s))%nat at 2 by lia.
  rewrite <- take_take_drop, filter_app, length_app.
  rewrite (filter_length_none _ (take s frame)).
  - simpl. apply filter_length_iff. apply Forall_lookup. intros j r Hj.
    apply lookup_take_Some in Hj as [Hj Hlt]. rewrite lookup_drop in Hj.
    pose proof (proj2 (Hzone _ r Hj) ltac:(lia)). tauto.
  - apply Forall_lookup. intros j r Hj.
    apply lookup_take_Some in Hj as [Hj Hlt].
    intros [Hz _]. apply (Hzone j r Hj) in Hz. lia.
Qed.

(** End to end.  In the frame that step 2 builds from any raw table, as
    long as it has at most [2^31] rows, the three cells of a row whose
    pickup time [x] and whose [x - 24h] are representable in [int64] hold
    the numbers of rows in front of it with its zone and a pickup time of
    at least [x - 1h], [x - 6h] and [x - 24h]. *)
Theorem rolling_arrays_count_prior_trips junk1 junk6 junk24 (raw : list raw_trip) g row :
  let frame := sort_by_zone_and_time (load_and_clean raw).2 in
  let r := rolling_features junk1 junk6 junk24 frame in
  Z.of_nat (length frame) <= 2 ^ 31 ->
  frame !! g = Some row ->
  Int.in_int64 (pickup_datetime row) ->
  Int.in_int64 (pickup_datetime row - _ns_24h) ->
  _r1h r !! g = Some (Z.of_nat (prior_trips (pickup_datetime row - _ns_1h) frame g row))
  /\ _r6h r !! g = Some (Z.of_nat (prior_trips (pickup_datetime row - _ns_6h) frame g row))
  /\ _r24h r !! g = Some (Z.of_nat (prior_trips (pickup_datetime row - _ns_24h) frame g row)).
Proof.
  intros frame r Hlen Hrow Hx Hx24.
  destruct (rolling_arrays_cells junk1 junk6 junk24 raw g row Hlen Hrow Hx Hx24)
    as (s & e & t & Hin & Hg & -> & H1 & H6 & H24 & _).
  fold frame r in Hin, H1, H6, H24.
  pose proof (sorted_frame_zone (load_and_clean raw).2) as Hz. fold frame in Hz.
  pose proof (chain_elem _ _ _ s e (zone_ranges_chain frame Hz) Hin) as [_ He].
  destruct (zone_range_one_zone _ s e Hz Hin) as (z & _ & Hrange).
  assert (forall i r0, frame !! i = Some r0 ->
            (PULocationID r0 = PULocationID row <-> (s <= i < e)%nat)) as Hzone.
  { assert (forall i r0, frame !! i = Some r0 ->
              map PULocationID frame !! i = Some (PULocationID r0)) as Hmap.
    { intros i r0 Hr0. change map with (@fmap list _).
      by rewrite list_lookup_fmap, Hr0. }
    intros i r0 Hr0.
    pose proof (proj2 (Hrange g _ (Hmap g row Hrow)) Hg) as ->.
    apply Hrange. by apply Hmap. }
  rewrite H1, H6, H24, !(prior_from_slice _ frame s e g row) by done.
  done.
Qed.

Lemma rolling_arrays_count_prior_trips_witness :
  let raw :=
    [ {| raw_pickup_datetime := Some 1735693200000000000; raw_PULocationID := Some 132 |};
      {| raw_pickup_datetime := Some 1735691400000000000; raw_PULocationID := Some 79 |};
      {| raw_pickup_datetime := Some 1735689600000000000; raw_PULocationID := Some 132 |} ] in
  let frame := sort_by_zone_and_time (load_and_clean raw).2 in
  let row := {| label := 2; pickup_datetime := 1735693200000000000; PULocationID := 132 |} in
  let r := rolling_features (fun _ => 7) (fun _ => 7) (fun _ => 7) frame in
  _r1h r !! 2%nat = Some (Z.of_nat (prior_trips (pickup_datetime row - _ns_1h) frame 2 row))
  /\ _r6h r !! 2%nat = Some (Z.of_nat (prior_trips (pickup_datetime row - _ns_6h) frame 2 row))
  /\ _r24h r !! 2%nat = Some (Z.of_nat (prior_trips (pickup_datetime row - _ns_24h) frame 2 row)).
Proof.
  intros raw frame row r.
  apply (rolling_arrays_count_prior_trips (fun _ => 7) (fun _ => 7) (fun _ => 7) raw 2 row).
  - vm_compute. discriminate.
  - vm_compute. reflexivity.
  - unfold Int.in_int64, Int.min_int64, Int.max_int64. simpl. lia.
  - unfold Int.in_int64, Int.min_int64, Int.max_int64, _ns_24h. simpl. lia.
Defined.

(** The three arrays have one cell per row of the frame, and the loop over
    the zones writes every one of them: nothing of what [np.empty] handed
    out is left in the arrays of the frame of step 2. *)
Theorem rolling_arrays_fully_written (raw : list raw_trip) (j1 j6 j24 k1 k6 k24 : nat -> Z) :
  let frame := sort_by_zone_and_time (load_and_clean raw).2 in
  let r := rolling_features j1 j6 j24 frame in
  length (_r1h r) = length frame
  /\ length (_r6h r) = length frame
  /\ length (_r24h r) = length frame
  /\ r = rolling_features k1 k6 k24 frame.
Proof.
  intros frame r. subst r. unfold rolling_features at 1 2 3.
  destruct (zone_loop_arrays (map pickup_datetime frame)
              (zip (_zone_starts (map PULocationID frame))
                   (_zone_ends (map PULocationID frame)))
              {| _r1h := Np.empty j1 (length frame);
                 _r6h := Np.empty j6 (length frame);
                 _r24h := Np.empty j24 (length frame) |}) as (-> & -> & ->).
  simpl. rewrite !zone_loop_length, !empty_length.
  do 3 (split; [done|]).
  apply rolling_features_junk, sorted_frame_zone.
Qed.

(** ** The cells of a zone depend on that zone alone *)

Lemma filter_all {A : Type} (P : A -> Prop) `{!forall x, Decision (P x)} (l : list A) :
  Forall P l -> filter P l = l.
Proof.
  induction 1 as [|x l Hx _ IH]; [done|].
  rewrite filter_cons, decide_True by done. by rewrite IH.
Qed.

Lemma filter_none {A : Type} (P : A -> Prop) `{!forall x, Decision (P x)} (l : list A) :
  Forall (fun x => ~ P x) l -> filter P l = [].
Proof. intros Hl. by apply length_zero_iff_nil, filter_length_none. Qed.

(** A predicate that holds exactly on the positions [s .. e-1] of a list
    filters out that block. *)
Lemma filter_block {A : Type} (P : A -> Prop) `{!forall x, Decision (P x)}
    (l : list A) s e :
  (forall i x, l !! i = Some x -> (P x <-> (s <= i < e)%nat)) ->
  (s <= e <= length l)%nat ->
  filter P l = Np.slice s e l.
Proof.
  intros HP Hse.
  rewrite <- (take_drop s l) at 1.
  rewrite <- (take_drop (e - s) (drop s l)) at 1.
  rewrite !filter_app, filter_none, filter_all, filter_none; [by rewrite app_nil_r| | |].
  - apply Forall_lookup. intros i x Hx.
    rewrite lookup_drop, lookup_drop in Hx. rewrite (HP _ x Hx). lia.
  - apply Forall_lookup. intros i x Hx.
    apply lookup_take_Some in Hx as [Hx Hi]. rewrite lookup_drop in Hx.
    apply (HP _ x Hx). lia.
  - apply Forall_lookup. intros i x Hx.
    apply lookup_take_Some in Hx as [Hx Hi]. rewrite (HP _ x Hx). lia.
Qed.

Lemma zone_times_of_keys (l : list trip) z :
  map pickup_datetime (filter (fun r => PULocationID r = z) l)
  = map snd (filter (fun k : Z * Z => k.1 = z) (map trip_key l)).
Proof.
  induction l as [|r l IH]; [done|].
  simpl. rewrite !filter_cons. simpl.
  destruct (decide (PULocationID r = z)); simpl; by rewrite IH.
Qed.

(** The cells of a zone are the counts of the pickup times of that zone,
    put in ascending order, and of nothing else: the trips of the other
    zones, and the order in which the raw table lists the trips, have no
    part in them. *)
Theorem zone_cells_depend_on_zone_only junk1 junk6 junk24 (raw : list raw_trip) s e :
  let frame := sort_by_zone_and_time (load_and_clean raw).2 in
  let r := rolling_features junk1 junk6 junk24 frame in
  (s, e) ∈ zone_ranges frame ->
  exists z,
    map PULocationID frame !! s = Some z
    /\ let t := stable_sort Z.leb
                  (map pickup_datetime
                     (filter (fun x => PULocationID x = z) (load_and_clean raw).2)) in
       Np.slice s e (_r1h r) = map Int.int32 (rolling_counts _ns_1h t)
       /\ Np.slice s e (_r6h r) = map Int.int32 (rolling_counts _ns_6h t)
       /\ Np.slice s e (_r24h r) = map Int.int32 (rolling_counts _ns_24h t).
Proof.
  intros frame r Hin.
  pose proof (sorted_frame_zone (load_and_clean raw).2) as Hz. fold frame in Hz.
  pose proof (zone_ranges_chain frame Hz) as Hch.
  pose proof (chain_elem _ _ _ s e Hch Hin) as [Hs He].
  destruct (zone_range_one_zone _ s e Hz Hin) as (z & Hzs & Hrange).
  exists z. split; [done|]. intros t.
  assert (Np.slice s e (map pickup_datetime frame) = t) as Ht.
  { apply (StronglySorted_unique_strong Z.le).
    - intros; lia.
    - apply zone_slice_sorted; [apply sorted_frame_keys|done].
    - subst t. apply (sorted_impl (fun a b => (a <=? b) = true)).
      + intros a b. apply Z.leb_le.
      + apply stable_sort_sorted; intros a b; rewrite ?Z.leb_le; lia.
    - subst t. rewrite stable_sort_perm, slice_map.
      rewrite <- (filter_block (fun x => PULocationID x = z) frame s e); [|
        intros i x Hx; apply Hrange; change map with (@fmap list _);
        by rewrite list_lookup_fmap, Hx|lia].
      rewrite !zone_times_of_keys. subst frame. unfold sort_by_zone_and_time.
      rewrite reset_index_key. change map with (@fmap list _).
      by rewrite sort_values_perm. }
  destruct (rolling_features_sorted junk1 junk6 junk24 frame Hz) as (H1 & H6 & H24).
  fold r in H1, H6, H24. rewrite H1, H6, H24.
  assert (forall ns se, se ∈ zone_ranges frame ->
            length (zone_counts ns (map pickup_datetime frame) se)
            = (se.2 - se.1)%nat) as Hlen.
  { intros ns [s' e'] Hse. pose proof (chain_elem _ _ _ s' e' Hch Hse).
    apply zone_counts_length. rewrite length_map. simpl. lia. }
  rewrite !(slice_concat_chain _ _ (length frame) s e Hch) by (try done; apply Hlen).
  unfold zone_counts. simpl. by rewrite Ht.
Qed.

Lemma zone_cells_depend_on_zone_only_witness :
  let raw :=
    [ {| raw_pickup_datetime := Some 1735693200000000000; raw_PULocationID := Some 132 |};
      {| raw_pickup_datetime := Some 1735691400000000000; raw_PULocationID := Some 79 |};
      {| raw_pickup_datetime := Some 1735689600000000000; raw_PULocationID := Some 132 |} ] in
  let frame := sort_by_zone_and_time (load_and_clean raw).2 in
  let r := rolling_features (fun _ => 7) (fun _ => 7) (fun _ => 7) frame in
  exists z,
    map PULocationID frame !! 1%nat = Some z
    /\ let t := stable_sort Z.leb
                  (map pickup_datetime
                     (filter (fun x => PULocationID x = z) (load_and_clean raw).2)) in
       Np.slice 1 3 (_r1h r) = map Int.int32 (rolling_counts _ns_1h t)
       /\ Np.slice 1 3 (_r6h r) = map Int.int32 (rolling_counts _ns_6h t)
       /\ Np.slice 1 3 (_r24h r) = map Int.int32 (rolling_counts _ns_24h t).
Proof.
  intros raw frame r.
  apply (zone_cells_depend_on_zone_only (fun _ => 7) (fun _ => 7) (fun _ => 7) raw 1 3).
  vm_compute. repeat constructor.
Defined.


(** * Further properties of the clean-up and of the daily summaries *)

Lemma dropna_labels (raw : list raw_trip) off :
  StronglySorted lt (map label (Pd.dropna (zip (seq off (length raw)) raw)))
  /\ Forall (fun i => off <= i < off + length raw)%nat
       (map label (Pd.dropna (zip (seq off (length raw)) raw))).
Proof.
  revert off. induction raw as [|[t z] raw IH]; intros off; [split; constructor|].
  cbn [length seq zip zip_with]. rewrite dropna_cons.
  destruct (IH (S off)) as [Hs Hb].
  assert (Forall (fun i => off <= i < off + S (length raw))%nat
            (map label (Pd.dropna (zip (seq (S off) (length raw)) raw)))) as Hb'.
  { eapply Forall_impl; [exact Hb|]. simpl. lia. }
  destruct t as [t|], z as [z|]; try done.
  simpl. split.
  - constructor; [done|]. eapply Forall_impl; [exact Hb|]. simpl. lia.
  - constructor; [simpl; lia|done].
Qed.

(** The clean-up keeps the raw records in their order: the index labels of
    the rows it returns are strictly increasing positions of the raw
    table. *)
Theorem clean_up_keeps_order (raw : list raw_trip) :
  StronglySorted lt (map label (load_and_clean raw).2)
  /\ Forall (fun i => i < length raw)%nat (map label (load_and_clean raw).2).
Proof.
  rewrite load_and_clean_eq.
  unfold Pd.astype_int32, Pd.ignore_index. rewrite map_map. simpl.
  destruct (dropna_labels raw 0) as [Hs Hb]. split; [done|].
  eapply Forall_impl; [exact Hb|]. simpl. lia.
Qed.

Lemma group_keys_nil rows : group_keys rows = [] <-> rows = [].
Proof.
  split.
  - intros Hnil. destruct rows as [|r rows]; [done|].
    assert (group_key r ∈ group_keys (r :: rows)) as Hin.
    { apply group_keys_elem. simpl. by left. }
    rewrite Hnil in Hin. by apply elem_of_nil in Hin.
  - by intros ->.
Qed.

(** How the script ends.  It stops at line 65 with a [ValueError] exactly
    when the clean-up keeps no row, that is when no raw record has both
    its fields; it stops at line 72 with a [ValueError] exactly when the
    clean-up keeps a row whose pickup time is on the first day; in every
    other case it reaches its end, and then the daily table has a row. *)
Theorem script_ends_three_ways {F : Type} (mean : list Z -> F) (round2 : F -> F)
    (junk1 junk6 junk24 : nat -> Z) (raw : list raw_trip) :
  let _trips := (load_and_clean raw).2 in
  let run := pipeline mean round2 junk1 junk6 junk24 raw in
  (run.2 = Raise ValueError 65 <-> Forall (fun r => ~ complete r) raw)
  /\ (run.2 = Raise ValueError 72
      <-> Exists (fun e => on_first_day (pickup_datetime e)) _trips)
  /\ ((exists daily, run.2 = Ok daily)
      <-> _trips <> [] /\ Forall (fun e => ~ on_first_day (pickup_datetime e)) _trips)
  /\ (forall daily, run.2 = Ok daily -> daily <> []).
Proof.
  intros _trips run. subst _trips run. rewrite <- load_and_clean_nil.
  destruct (decide ((load_and_clean raw).2 = [])) as [Hnil|Hne].
  { rewrite pipeline_no_rows by done. cbn [snd]. rewrite Hnil.
    split; [done|]. split; [by rewrite Exists_nil|].
    split; [split; [by intros [? ?]|by intros [? _]]|done]. }
  destruct (first_day_rows_dec (load_and_clean raw).2) as [Hall|Hex].
  - rewrite pipeline_ok by done. cbn [snd].
    split; [done|]. split; [|split].
    + split; [done|]. intros Hex. apply Exists_exists in Hex as (e & He & Hfirst).
      rewrite Forall_forall in Hall. by destruct (Hall e He).
    + split; [done|]. intros _. by eexists.
    + intros daily Hd. simplify_eq. unfold daily_zone_features.
      intros Hd. apply map_eq_nil, group_keys_nil in Hd.
      apply (f_equal length) in Hd.
      rewrite with_features_length, sort_by_zone_and_time_length in Hd.
      by apply nil_length_inv in Hd.
  - rewrite pipeline_first_day by done. cbn [snd].
    split; [done|]. split; [done|]. split; [|done].
    split; [by intros [? ?]|]. intros [_ Hall].
    apply Exists_exists in Hex as (e & He & Hfirst).
    rewrite Forall_forall in Hall. by destruct (Hall e He).
Qed.

Lemma script_ends_three_ways_witness :
  (pipeline (fun _ : list Z => tt) (fun u => u) (fun _ => 0) (fun _ => 0) (fun _ => 0)
     [ {| raw_pickup_datetime := None; raw_PULocationID := Some 132 |} ]).2
  = Raise ValueError 65.
Proof.
  apply (proj1 (script_ends_three_ways (fun _ : list Z => tt) (fun u => u)
                  (fun _ => 0) (fun _ => 0) (fun _ => 0)
                  [ {| raw_pickup_datetime := None; raw_PULocationID := Some 132 |} ])).
  apply Forall_cons_2; [|apply Forall_nil_2].
  intros [[t Ht] _]. discriminate Ht.
Defined.

Lemma filter_length_map_eq {A B : Type} `{EqDecision B} (f : A -> B) (k : B) (l : list A) :
  length (filter (fun x => f x = k) l) = length (filter (fun y => y = k) (map f l)).
Proof.
  induction l as [|x l IH]; [done|].
  simpl. rewrite !filter_cons. destruct (decide (f x = k)); simpl; by rewrite IH.
Qed.

Lemma group_size_trips (junk1 junk6 junk24 : nat -> Z) (raw : list raw_trip) k :
  let frame := sort_by_zone_and_time (load_and_clean raw).2 in
  length (group (with_features frame (rolling_features junk1 junk6 junk24 frame)
                   (map Pd.floor_day (map pickup_datetime frame))) k)
  = trips_on k.1 k.2 (load_and_clean raw).2.
Proof.
  intros frame. subst frame. unfold group, trips_on.
  rewrite (filter_length_map_eq group_key), with_features_keys, sorted_frame_day_keys.
  rewrite <- (filter_length_map_eq day_key).
  apply filter_length_iff, Forall_forall. intros e _. unfold day_key.
  destruct k as [d z]. simpl. split; [intros H; by simplify_eq|intros [-> ->]; done].
Qed.

(** When the script reaches its end, each daily row counts the trips of
    its zone on its date, at least one; every trip that came through the
    clean-up has the row of its date and zone; and no two rows share a
    date and a zone. *)
Theorem daily_row_counts_its_trips {F : Type} (mean : list Z -> F) (round2 : F -> F)
    (junk1 junk6 junk24 : nat -> Z) (raw : list raw_trip) (daily : list (daily_row F)) :
  let _trips := (load_and_clean raw).2 in
  (pipeline mean round2 junk1 junk6 junk24 raw).2 = Ok daily ->
  (forall d, d ∈ daily ->
     daily_trips d = Z.of_nat (trips_on (ds_date d) (zone d) _trips)
     /\ 1 <= daily_trips d)
  /\ (forall e, e ∈ _trips ->
        exists d, d ∈ daily
          /\ ds_date d = Pd.floor_day (pickup_datetime e) /\ zone d = PULocationID e)
  /\ NoDup (map (fun d => (ds_date d, zone d)) daily).
Proof.
  intros _trips Hrun. subst _trips. apply pipeline_returns in Hrun as (_ & _ & ->).
  split; [|split; [|rewrite daily_rows_keys; apply group_keys_NoDup]].
  - unfold daily_zone_features. change map with (@fmap list _) at 1.
    intros d Hd. apply list_elem_of_fmap in Hd as (k & -> & Hk).
    cbn [daily_trips ds_date zone].
    rewrite group_size_trips. split; [done|].
    apply group_keys_elem in Hk. rewrite with_features_keys in Hk.
    rewrite <- (group_size_trips junk1 junk6 junk24). cbv zeta.
    change map with (@fmap list _) in Hk.
    apply list_elem_of_fmap in Hk as (e & -> & He).
    unfold group.
    rewrite (filter_length_map_eq group_key), with_features_keys.
    change map with (@fmap list _).
    assert (day_key e ∈ filter (fun y => y = day_key e)
              (day_key <$> sort_by_zone_and_time (load_and_clean raw).2)) as Hin.
    { apply list_elem_of_filter. split; [done|]. by apply list_elem_of_fmap_2. }
    destruct (filter _ _); [by apply elem_of_nil in Hin|]. simpl. lia.
  - intros e He.
    set (frame := sort_by_zone_and_time (load_and_clean raw).2).
    set (rows := with_features frame _ _).
    assert (day_key e ∈ group_keys rows) as Hk.
    { apply group_keys_elem. subst rows frame.
      rewrite with_features_keys, sorted_frame_day_keys.
      change map with (@fmap list _). by apply list_elem_of_fmap_2. }
    unfold daily_zone_features. change map with (@fmap list _) at 1.
    eexists. split; [apply list_elem_of_fmap; eexists; split; [reflexivity|exact Hk]|].
    done.
Qed.

Lemma daily_row_counts_its_trips_witness :
  let raw :=
    [ {| raw_pickup_datetime := Some 1735693200000000000; raw_PULocationID := Some 132 |};
      {| raw_pickup_datetime := Some 1735691400000000000; raw_PULocationID := Some 79 |};
      {| raw_pickup_datetime := Some 1735689600000000000; raw_PULocationID := Some 132 |} ] in
  let daily :=
    [ {| ds_date := 1735689600000000000; zone := 79; daily_trips := 1;
         rolling_1h_mean := tt; rolling_6h_mean := tt; rolling_24h_mean := tt |};
      {| ds_date := 1735689600000000000; zone := 132; daily_trips := 2;
         rolling_1h_mean := tt; rolling_6h_mean := tt; rolling_24h_mean := tt |} ] in
  NoDup (map (fun d => (ds_date d, zone d)) daily).
Proof.
  intros raw daily.
  apply (daily_row_counts_its_trips (fun _ : list Z => tt) (fun u => u)
           (fun _ => 0) (fun _ => 0) (fun _ => 0) raw daily).
  vm_compute. reflexivity.
Defined.

(** The second way to stop, on the first timestamp pandas can hold. *)
Lemma first_day_trip_stops_at_line_72 :
  pipeline (fun _ : list Z => tt) (fun u => u) (fun _ => 0) (fun _ => 0) (fun _ => 0)
    [ {| raw_pickup_datetime := Some (-9223372036854775807); raw_PULocationID := Some 132 |} ]
  = ([("Total trips loaded"%string, 1);
      ("Trip-level rolling features computed for"%string, 1)],
     Raise ValueError 72).
Proof. vm_compute. reflexivity. Qed.


(** * The daily ride counts of [load_and_aggregate.py] *)

Lemma distinct_keys (l : list (Z * Z)) :
  StronglySorted lex_lt (run_heads key_eqb None (stable_sort key_leb l))
  /\ forall k, k ∈ run_heads key_eqb None (stable_sort key_leb l) <-> k ∈ l.
Proof.
  destruct (run_heads_keys None _ (sorted_keys l)) as (Hs & Hmem & _); [done|].
  split; [done|]. intros k. rewrite Hmem, stable_sort_perm.
  split; [by intros []|by intros; split].
Qed.

(** Over distinct keys that cover a list, the numbers of occurrences add up
    to the length of the list. *)
Lemma key_counts_sum (ks l : list (Z * Z)) :
  NoDup ks -> (forall k, k ∈ l -> k ∈ ks) ->
  sum_Z (map (fun k => Z.of_nat (length (filter (fun k' => k' = k) l))) ks)
  = Z.of_nat (length l).
Proof.
  intros Hnd. induction l as [|x l IH]; intros Hin.
  - apply sum_Z_zero. done.
  - transitivity
      (sum_Z (map (fun k => if decide (x = k) then 1 else 0) ks)
       + sum_Z (map (fun k => Z.of_nat (length (filter (fun k' => k' = k) l))) ks)).
    + clear IH Hin Hnd. induction ks as [|k ks IHks]; simpl; [done|].
      rewrite IHks, filter_cons. destruct (decide (x = k)); simpl; lia.
    + rewrite IH by (intros k Hk; apply Hin; by right).
      rewrite (sum_Z_pick (fun _ => 1) x) by (try done; apply Hin; by left).
      simpl. lia.
Qed.

Lemma raw_keys_length d raw :
  length (omap (raw_day_key d) raw) = length (filter complete raw).
Proof.
  induction raw as [|[t z] raw IH]; [done|].
  rewrite filter_cons. cbn [omap list_omap]. unfold raw_day_key at 1. simpl.
  destruct (decide (complete {| raw_pickup_datetime := t; raw_PULocationID := z |}))
    as [[[t' Ht] [z' Hz]]|Hn]; simpl in *.
  - subst. simpl. f_equal. apply IH.
  - destruct t as [t'|], z as [z'|]; try apply IH.
    exfalso. apply Hn. split; simpl; eauto.
Qed.

(** Line 28 on the column of the pickup times. *)
Lemma raw_dates_ok raw :
  Forall (fun r => ~ pickup_on_first_day r) raw ->
  mapM raw_date (map raw_pickup_datetime raw)
  = Some (map (fun r => Pd.floor_day <$> raw_pickup_datetime r) raw).
Proof.
  induction 1 as [|[t z] raw Ht _ IH]; [done|].
  cbn. cbn in IH. rewrite IH. unfold pickup_on_first_day in Ht. simpl in Ht.
  destruct t as [t|]; simpl; [|done]. by rewrite normalize_some.
Qed.

Lemma raw_dates_raise raw :
  Exists pickup_on_first_day raw -> mapM raw_date (map raw_pickup_datetime raw) = None.
Proof.
  induction 1 as [[t z] raw Ht|[t z] raw _ IH].
  - unfold pickup_on_first_day in Ht. simpl in Ht. destruct t as [t|]; [|done].
    cbn. by rewrite normalize_none.
  - cbn. cbn in IH. rewrite IH. by destruct (raw_date t).
Qed.

Lemma raw_first_day_dec raw :
  Forall (fun r => ~ pickup_on_first_day r) raw \/ Exists pickup_on_first_day raw.
Proof.
  induction raw as [|r raw [IH|IH]].
  - left. constructor.
  - assert (pickup_on_first_day r \/ ~ pickup_on_first_day r) as [Hr|Hr].
    { unfold pickup_on_first_day, on_first_day.
      destruct (raw_pickup_datetime r) as [t|]; [|right; tauto].
      destruct (decide (Pd.floor_day t < Int.min_int64)); [by left|by right]. }
    + right. by left.
    + left. by constructor.
  - right. by right.
Qed.

Lemma raw_group_keys d raw :
  omap (group_key_of d)
    (zip (map (fun r => Pd.floor_day <$> raw_pickup_datetime r) raw)
         (map raw_PULocationID raw))
  = omap (raw_day_key d) raw.
Proof.
  induction raw as [|[t z] raw IH]; [done|].
  cbn. cbn in IH. rewrite IH. unfold raw_day_key at 2. simpl.
  by destruct t, z.
Qed.

(** The table of a run that returns, and the run that raises. *)
Lemma daily_zone_counts_ok raw :
  Forall (fun r => ~ pickup_on_first_day r) raw ->
  let d := Pd.zone_dtype (map raw_PULocationID raw) in
  let keys := omap (raw_day_key d) raw in
  daily_zone_counts raw
  = Ok (map (fun k =>
               {| dc_date := k.1;
                  LocationID := Pd.to_int64 d k.2;
                  ride_count := Z.of_nat (length (filter (fun k' => k' = k) keys)) |})
            (run_heads key_eqb None (stable_sort key_leb keys))).
Proof.
  intros Hall d keys. unfold daily_zone_counts.
  rewrite raw_dates_ok by done. fold d. by rewrite raw_group_keys.
Qed.

Lemma daily_zone_counts_raise raw :
  Exists pickup_on_first_day raw -> daily_zone_counts raw = Raise ValueError 28.
Proof. intros Hex. unfold daily_zone_counts. by rewrite raw_dates_raise. Qed.

(** The daily ride counts.  The script stops at line 28 with a
    [ValueError] exactly when a raw row has its pickup time on the first
    day.  Otherwise it returns a table that leaves out the raw rows that
    lack a pickup time or a zone, and only those: the counts add up to the
    number of complete rows, and no count is 0. *)
Theorem daily_zone_counts_total (trips_raw : list raw_trip) :
  match daily_zone_counts trips_raw with
  | Raise e n =>
      e = ValueError /\ n = 28%nat /\ Exists pickup_on_first_day trips_raw
  | Ok counts =>
      Forall (fun r => ~ pickup_on_first_day r) trips_raw
      /\ sum_Z (map ride_count counts)
         = Z.of_nat (length trips_raw) - Z.of_nat (dropped_rows trips_raw)
      /\ Forall (fun c => 1 <= ride_count c) counts
  end.
Proof.
  destruct (raw_first_day_dec trips_raw) as [Hall|Hex];
    [|by rewrite daily_zone_counts_raise].
  rewrite daily_zone_counts_ok by done.
  set (d := Pd.zone_dtype (map raw_PULocationID trips_raw)).
  destruct (distinct_keys (omap (raw_day_key d) trips_raw)) as [Hs Hmem].
  split; [done|]. split.
  - rewrite map_map. simpl.
    rewrite key_counts_sum; [|by apply sorted_lt_NoDup|intros k Hk; by apply Hmem].
    rewrite raw_keys_length.
    pose proof (filter_complement_length complete trips_raw).
    unfold dropped_rows. lia.
  - apply Forall_fmap, Forall_forall. intros k Hk. simpl.
    apply Hmem in Hk.
    assert (k ∈ filter (fun k' => k' = k) (omap (raw_day_key d) trips_raw)) as Hin
      by (by apply list_elem_of_filter).
    destruct (filter _ _); [by apply elem_of_nil in Hin|]. simpl. lia.
Qed.

Lemma to_int64_of_int32 d z : Int.in_int32 z -> Pd.to_int64 d z = z.
Proof.
  unfold Int.in_int32. intros Hz. destruct d; simpl.
  - apply int64_id. unfold Int.in_int64, Int.min_int64, Int.max_int64. lia.
  - unfold Int.min_int64, Int.max_int64.
    rewrite (proj2 (Z.leb_le _ _)), (proj2 (Z.leb_le _ _)); [done|lia|lia].
Qed.

Lemma clean_day_keys d (raw : list raw_trip) off :
  Forall (fun r => forall z, raw_PULocationID r = Some z -> Int.in_int32 z) raw ->
  map day_key (Pd.astype_int32 d (Pd.dropna (zip (seq off (length raw)) raw)))
  = omap (raw_day_key d) raw.
Proof.
  intros Hall. revert off. induction Hall as [|[t z] raw Hz _ IH]; intros off; [done|].
  cbn [length seq zip zip_with]. rewrite dropna_cons.
  cbn [omap list_omap]. unfold raw_day_key at 1. simpl.
  destruct t as [t|], z as [z|]; try apply IH.
  specialize (IH (S off)). unfold Pd.astype_int32 in *.
  cbn [map]. rewrite IH. unfold day_key at 1.
  cbn [pickup_datetime PULocationID].
  destruct (cast_of_int32 d z) as [-> ->]; [by apply Hz|done].
Qed.

(** The two scripts agree on the daily counts: when both run to their end
    on the same raw table, every zone of which fits an [int32], the (date,
    zone, count) columns of the daily table of the rolling-features script
    are the rows of the daily ride counts, in the same order. *)
Theorem daily_tables_agree {F : Type} (mean : list Z -> F) (round2 : F -> F)
    (junk1 junk6 junk24 : nat -> Z) (raw : list raw_trip)
    (daily : list (daily_row F)) (counts : list daily_count) :
  Forall (fun r => forall z, raw_PULocationID r = Some z -> Int.in_int32 z) raw ->
  (pipeline mean round2 junk1 junk6 junk24 raw).2 = Ok daily ->
  daily_zone_counts raw = Ok counts ->
  map (fun d => (ds_date d, zone d, daily_trips d)) daily
  = map (fun c => (dc_date c, LocationID c, ride_count c)) counts.
Proof.
  intros Hz Hrun Hcounts.
  apply pipeline_returns in Hrun as (_ & _ & ->).
  destruct (raw_first_day_dec raw) as [Hall|Hex];
    [|by rewrite daily_zone_counts_raise in Hcounts].
  rewrite daily_zone_counts_ok in Hcounts by done. simplify_eq.
  set (d := Pd.zone_dtype (map raw_PULocationID raw)).
  assert (map day_key (load_and_clean raw).2 = omap (raw_day_key d) raw) as Hkeys.
  { rewrite load_and_clean_eq. by apply clean_day_keys. }
  unfold daily_zone_features, group_keys.
  rewrite with_features_keys.
  rewrite (map_map _ (fun d : daily_row F => (ds_date d, zone d, daily_trips d))).
  rewrite (map_map _ (fun c : daily_count => (dc_date c, LocationID c, ride_count c))).
  rewrite (stable_sort_keys_perm _ _ (sorted_frame_day_keys (load_and_clean raw).2)).
  rewrite Hkeys.
  apply map_ext_in. intros [dt z] Hk. cbn [fst snd ds_date zone daily_trips
                                           dc_date LocationID ride_count].
  apply list_elem_of_In in Hk. apply (proj1 (proj2 (distinct_keys _) _)) in Hk.
  rewrite group_size_trips. cbn [fst snd].
  assert (Pd.to_int64 d z = z) as ->.
  { apply to_int64_of_int32. rewrite <- Hkeys in Hk. change map with (@fmap list _) in Hk.
    apply list_elem_of_fmap in Hk as (e & He & Hin). unfold day_key in He. simplify_eq.
    apply load_and_clean_elem in Hin as (_ & z0 & _ & _ & _ & ->).
    apply to_int32_range. }
  do 2 f_equal. unfold trips_on. rewrite <- Hkeys.
  rewrite <- (filter_length_map_eq day_key).
  apply filter_length_iff, Forall_forall. intros e _. unfold day_key.
  split; [intros [-> ->]; done|intros H; by simplify_eq].
Qed.

Lemma daily_tables_agree_witness :
  let raw :=
    [ {| raw_pickup_datetime := Some 1735693200000000000; raw_PULocationID := Some 132 |};
      {| raw_pickup_datetime := None; raw_PULocationID := Some 132 |};
      {| raw_pickup_datetime := Some 1735691400000000000; raw_PULocationID := Some 79 |};
      {| raw_pickup_datetime := Some 1735776000000000000; raw_PULocationID := None |};
      {| raw_pickup_datetime := Some 1735689600000000000; raw_PULocationID := Some 132 |} ] in
  let daily :=
    [ {| ds_date := 1735689600000000000; zone := 79; daily_trips := 1;
         rolling_1h_mean := tt; rolling_6h_mean := tt; rolling_24h_mean := tt |};
      {| ds_date := 1735689600000000000; zone := 132; daily_trips := 2;
         rolling_1h_mean := tt; rolling_6h_mean := tt; rolling_24h_mean := tt |} ] in
  let counts :=
    [ {| dc_date := 1735689600000000000; LocationID := 79; ride_count := 1 |};
      {| dc_date := 1735689600000000000; LocationID := 132; ride_count := 2 |} ] in
  map (fun d => (ds_date d, zone d, daily_trips d)) daily
  = map (fun c => (dc_date c, LocationID c, ride_count c)) counts.
Proof.
  intros raw daily counts.
  apply (daily_tables_agree (fun _ : list Z => tt) (fun u => u)
           (fun _ => 0) (fun _ => 0) (fun _ => 0) raw daily counts).
  - subst raw.
    repeat (apply Forall_cons_2;
      [intros z Hz; simpl in Hz; simplify_eq; unfold Int.in_int32; lia|]).
    apply Forall_nil_2.
  - vm_compute. reflexivity.
  - vm_compute. reflexivity.
Defined.


(** * The feature frame and the split of [forecast_top10_zones.py] *)

Lemma shift_length k col : length (shift k col) = length col.
Proof.
  unfold shift. rewrite length_take, length_app, length_replicate, length_map. lia.
Qed.

Lemma shift_lookup k col i :
  (i < length col)%nat ->
  mjoin (shift k col !! i) = if decide (k <= i)%nat then col !! (i - k)%nat else None.
Proof.
  intros Hi. unfold shift. rewrite lookup_take_lt by done.
  destruct (decide (k <= i)%nat) as [Hk|Hk].
  - rewrite lookup_app_r by (rewrite length_replicate; lia).
    rewrite length_replicate. change map with (@fmap list _).
    rewrite list_lookup_fmap. by destruct (col !! (i - k)%nat).
  - rewrite lookup_app_l by (rewrite length_replicate; lia).
    by rewrite lookup_replicate_2 by lia.
Qed.

(** A frame in ascending order of a key splits, at any threshold of the
    key, into the rows below it followed by the rows from it on. *)
Lemma sorted_filter_split {A : Type} (f : A -> Z) (c : Z) (l : list A) :
  StronglySorted Z.le (map f l) ->
  filter (fun x => f x < c) l ++ filter (fun x => c <= f x) l = l.
Proof.
  induction l as [|x l IH]; intros Hs; [done|].
  simpl in Hs. apply StronglySorted_inv in Hs as [Hs Hx].
  rewrite !filter_cons. destruct (decide (f x < c)) as [Hlt|Hge].
  - rewrite decide_False by lia. simpl. f_equal. by apply IH.
  - rewrite decide_True by lia.
    change map with (@fmap list _) in Hx. rewrite Forall_fmap in Hx.
    assert (filter (fun y => f y < c) l = []) as Hnil.
    { apply length_zero_iff_nil, filter_length_none.
      eapply Forall_impl; [exact Hx|]. simpl. lia. }
    specialize (IH Hs). rewrite Hnil in IH |- *. simpl in *. by f_equal.
Qed.

Lemma foldr_max_ge (lo : Z) (l : list Z) :
  lo <= foldr Z.max lo l /\ Forall (fun d => d <= foldr Z.max lo l) l.
Proof.
  induction l as [|x l [IH1 IH2]]; simpl; [split; [lia|constructor]|].
  split; [lia|]. constructor; [lia|].
  eapply Forall_impl; [exact IH2|]. simpl. lia.
Qed.

Lemma foldr_max_elem (lo : Z) (l : list Z) :
  l <> [] -> Forall (fun d => lo <= d) l -> foldr Z.max lo l ∈ l.
Proof.
  induction l as [|x l IH]; intros Hne Hall; [done|].
  apply Forall_cons in Hall as [Hx Hall]. simpl.
  destruct l as [|y l].
  - simpl. rewrite Z.max_l by lia. by left.
  - specialize (IH ltac:(done) Hall).
    destruct (Z.max_spec x (foldr Z.max lo (y :: l))) as [[_ ->]|[_ ->]];
      [by right|by left].
Qed.

(** Distinct midnights within thirteen days of one another: fourteen at
    most. *)
Lemma distinct_days_in_a_fortnight (lo : Z) (l : list Z) :
  NoDup l ->
  Forall (fun d => d mod Pd.day_ns = 0 /\ lo <= d <= lo + 13 * Pd.day_ns) l ->
  lo mod Pd.day_ns = 0 ->
  (length l <= 14)%nat.
Proof.
  intros Hnd Hall Hlo.
  set (g := fun d => Z.to_nat ((d - lo) / Pd.day_ns)).
  assert (forall d, d ∈ l -> d = lo + Z.of_nat (g d) * Pd.day_ns /\ (g d < 14)%nat) as Hg.
  { intros d Hd. rewrite Forall_forall in Hall. destruct (Hall d Hd) as [Hm Hr].
    subst g. simpl. unfold Pd.day_ns in *.
    assert ((d - lo) mod 86400000000000 = 0) as Hdm.
    { rewrite Zminus_mod, Hm, Hlo. done. }
    pose proof (Z.div_mod (d - lo) 86400000000000 ltac:(lia)) as Hdiv.
    rewrite Hdm in Hdiv.
    assert (0 <= (d - lo) / 86400000000000 < 14) by lia.
    split; [lia|lia]. }
  assert (NoDup (g <$> l)) as Hnd'.
  { apply NoDup_fmap_2_strong; [|done]. intros x y Hx Hy Heq.
    destruct (Hg x Hx) as [Hx' _]. destruct (Hg y Hy) as [Hy' _]. congruence. }
  assert (g <$> l ⊆+ seq 0 14) as Hsub.
  { apply NoDup_submseteq; [done|]. intros n Hn.
    apply list_elem_of_fmap in Hn as (d & -> & Hd).
    apply elem_of_seq. destruct (Hg d Hd). lia. }
  apply submseteq_length in Hsub. by rewrite length_fmap, length_seq in Hsub.
Qed.

Section forecast_facts.
Context {F : Type} (isna : F -> bool) (dayofweek day month isoweek : Z -> Z).

Local Abbreviation features := (make_zone_features dayofweek day month isoweek).
Local Abbreviation frame_of := (zone_frame isna dayofweek day month isoweek).

Lemma make_zone_features_length (df : list (daily_row F)) :
length (features df) = length df.
Proof.
unfold make_zone_features, sort_by_date. by rewrite length_imap, stable_sort_length.
Qed.

Lemma make_zone_features_daily (df : list (daily_row F)) :
map zf_daily (features df) = sort_by_date df.
Proof.
unfold make_zone_features. change map with (@fmap list _).
rewrite fmap_imap.
transitivity (imap (const id) (sort_by_date df)); [by apply imap_ext|].
by rewrite imap_const, list_fmap_id.
Qed.

(** The lags are positional: the lag of [k] of the row at position [i] of
  the date-sorted frame of a zone is the trip count of the row [k]
  positions earlier, and it is missing in the first [k] rows. *)
Lemma make_zone_features_lags (df : list (daily_row F)) i r :
features df !! i = Some r ->
let trips := map daily_trips (sort_by_date df) in
sort_by_date df !! i = Some (zf_daily r)
/\ lag_1 r = (if decide (1 <= i)%nat then trips !! (i - 1)%nat else None)
/\ lag_7 r = (if decide (7 <= i)%nat then trips !! (i - 7)%nat else None)
/\ lag_14 r = (if decide (14 <= i)%nat then trips !! (i - 14)%nat else None).
Proof.
intros Hr trips. unfold make_zone_features in Hr.
rewrite list_lookup_imap in Hr.
destruct (sort_by_date df !! i) as [d|] eqn:Hd; [|done]. simpl in Hr. simplify_eq.
simpl. fold trips.
assert (i < length trips)%nat as Hi.
{ subst trips. rewrite length_map. by eapply lookup_lt_Some. }
by rewrite !shift_lookup by done.
Qed.

(** A filter that holds from position [k] on and nowhere before drops the
  first [k] elements. *)
Lemma filter_from_position {A : Type} (P : A -> Prop) `{!forall x, Decision (P x)}
  (l : list A) k :
(forall i x, l !! i = Some x -> (P x <-> (k <= i)%nat)) ->
filter P l = drop k l.
Proof.
revert k. induction l as [|x l IH]; intros k Hk; [by rewrite drop_nil|].
rewrite filter_cons.
pose proof (Hk O x eq_refl) as H0.
destruct k as [|k].
- rewrite decide_True by (apply H0; lia). simpl. f_equal.
  rewrite (IH O); [done|]. intros i y Hy.
  pose proof (Hk (S i) y Hy) as HS. split; [lia|]. intros _. apply HS. lia.
- rewrite decide_False by (rewrite H0; lia). simpl.
  apply IH. intros i y Hy. rewrite (Hk (S i) y Hy). lia.
Qed.

Lemma zone_frame_drop (daily : list (daily_row F)) z :
Forall (means_present isna) (filter (fun d => zone d = z) daily) ->
frame_of daily z = drop 14 (features (filter (fun d => zone d = z) daily)).
Proof.
intros Hmeans. unfold zone_frame.
set (rows := filter (fun d => zone d = z) daily) in *.
apply filter_from_position. intros i r Hr.
pose proof (lookup_lt_Some _ _ _ Hr) as Hi. rewrite make_zone_features_length in Hi.
destruct (make_zone_features_lags rows i r Hr) as (Hd & H1 & H7 & H14).
assert (means_present isna (zf_daily r)) as (Hm1 & Hm6 & Hm24).
{ assert (zf_daily r ∈ rows) as Hin.
  { unfold sort_by_date in Hd. rewrite <- (stable_sort_perm (fun a b => ds_date a <=? ds_date b)).
    by eapply list_elem_of_lookup_2. }
  rewrite Forall_forall in Hmeans. by apply Hmeans. }
assert (length (map daily_trips (sort_by_date rows)) = length rows) as Hlen.
{ unfold sort_by_date. by rewrite length_map, stable_sort_length. }
unfold has_all_features. rewrite Hm1, Hm6, Hm24, H1, H7, H14. simpl.
rewrite !andb_true_r, !andb_true_iff, !bool_decide_eq_true.
split.
- intros [[_ _] Hl]. destruct (decide (14 <= i)%nat); [done|]. by destruct Hl.
- intros Hk. rewrite !decide_True by lia.
  repeat split; apply lookup_lt_is_Some_2; lia.
Qed.

Lemma sort_by_date_sorted (df : list (daily_row F)) :
StronglySorted Z.le (map ds_date (sort_by_date df)).
Proof.
apply (StronglySorted_fmap _ (fun a b => (ds_date a <=? ds_date b) = true)).
- intros a b. apply Z.leb_le.
- apply stable_sort_sorted.
  + intros a b. rewrite !Z.leb_le. lia.
  + intros a b c. rewrite !Z.leb_le. lia.
Qed.

Lemma features_dates (df : list (daily_row F)) :
map zf_date (features df) = map ds_date (sort_by_date df).
Proof. rewrite <- make_zone_features_daily. by rewrite map_map. Qed.

(** The frame of a zone.  For a zone whose daily rows have distinct dates
  and their three means, [dropna] removes the fourteen earliest rows and
  no other; the row at position [j] of the frame is the row at position
  [14 + j] in date order, and its lags of 1, 7 and 14 are the trip counts
  at positions [13 + j], [7 + j] and [j]: the lags go by rows, not by
  calendar days. *)
Theorem zone_frame_rows (daily : list (daily_row F)) (z : Z) :
let rows := filter (fun d => zone d = z) daily in
let trips := map daily_trips (sort_by_date rows) in
NoDup (map ds_date rows) ->
Forall (means_present isna) rows ->
length (frame_of daily z) = (length rows - 14)%nat
/\ forall j r, frame_of daily z !! j = Some r ->
     sort_by_date rows !! (14 + j)%nat = Some (zf_daily r)
     /\ lag_1 r = trips !! (13 + j)%nat
     /\ lag_7 r = trips !! (7 + j)%nat
     /\ lag_14 r = trips !! j.
Proof.
intros rows trips _ Hmeans. subst rows trips.
rewrite zone_frame_drop by done.
split; [by rewrite length_drop, make_zone_features_length|].
intros j r Hr. rewrite lookup_drop in Hr.
destruct (make_zone_features_lags _ _ _ Hr) as (Hd & H1 & H7 & H14).
rewrite decide_True in H1 by lia. rewrite decide_True in H7 by lia.
rewrite decide_True in H14 by lia.
replace (14 + j - 1)%nat with (13 + j)%nat in H1 by lia.
replace (14 + j - 7)%nat with (7 + j)%nat in H7 by lia.
replace (14 + j - 14)%nat with j in H14 by lia.
done.
Qed.

(** The walk-forward split of a zone.  For a zone whose daily rows have
  distinct dates, all of them midnights more than thirteen days after the
  first pandas timestamp, and their three means: with fewer than 43 daily
  rows the zone is skipped; with 43 or more the frame is split, never
  skipped, into the rows before the cut-off followed by the rows from it
  on, the test rows being between 1 and 14 and the training rows 15 at
  least. *)
Theorem walk_forward_split_of_zone (daily : list (daily_row F)) (z : Z) :
let rows := filter (fun d => zone d = z) daily in
NoDup (map ds_date rows) ->
Forall (means_present isna) rows ->
Forall (fun d => ds_date d mod Pd.day_ns = 0
                 /\ Int.is_timestamp (ds_date d - 13 * Pd.day_ns)) rows ->
((length rows < 43)%nat -> walk_forward_split (frame_of daily z) = Skipped)
/\ ((43 <= length rows)%nat ->
     exists _train _test,
       walk_forward_split (frame_of daily z) = Split _train _test
       /\ _train ++ _test = frame_of daily z
       /\ (1 <= length _test <= 14)%nat
       /\ (15 <= length _train)%nat
       /\ forall a b, a ∈ _train -> b ∈ _test -> zf_date a < zf_date b).
Proof.
intros rows Hnd Hmeans Hdates.
pose proof (zone_frame_rows daily z Hnd Hmeans) as [Hlen _]. fold rows in Hlen.
assert (map zf_date (frame_of daily z) = drop 14 (map ds_date (sort_by_date rows)))
  as Hzd.
{ rewrite zone_frame_drop by done. fold rows.
  change map with (@fmap list _). rewrite fmap_drop.
  change (@fmap list _) with (@map). by rewrite features_dates. }
set (zdf := frame_of daily z) in *.
assert (map ds_date (sort_by_date rows) ≡ₚ map ds_date rows) as Hperm.
{ unfold sort_by_date. change map with (@fmap list _). by rewrite stable_sort_perm. }
assert (StronglySorted Z.le (map zf_date zdf)) as Hsorted.
{ rewrite Hzd. apply sorted_drop, sort_by_date_sorted. }
assert (NoDup (map zf_date zdf)) as Hnd'.
{ rewrite Hzd. eapply sublist_NoDup; [|apply sublist_drop]. by rewrite Hperm. }
assert (Forall (fun d => d mod Pd.day_ns = 0
                         /\ Int.is_timestamp (d - 13 * Pd.day_ns)) (map zf_date zdf))
  as Hrange.
{ rewrite Hzd. apply Forall_drop. rewrite Hperm.
  change map with (@fmap list _). by apply Forall_fmap. }
unfold walk_forward_split. change (TEST_DAYS + 15)%nat with 29%nat.
change (Z.of_nat (TEST_DAYS - 1)) with 13.
split.
- intros Hn. destruct (Nat.ltb_spec (length zdf) 29) as [|Hge]; [done|lia].
- intros Hn. destruct (Nat.ltb_spec (length zdf) 29) as [Hlt|_]; [lia|].
  set (M := foldr Z.max Int.min_int64 (map zf_date zdf)).
  assert (M ∈ map zf_date zdf) as HM.
  { apply foldr_max_elem.
    - intros Hnil. apply (f_equal length) in Hnil. rewrite length_map in Hnil.
      simpl in Hnil. lia.
    - eapply Forall_impl; [exact Hrange|]. intros d [_ Hd].
      unfold Int.is_timestamp, Int.min_int64, Pd.day_ns in *. lia. }
  pose proof (proj2 (foldr_max_ge Int.min_int64 (map zf_date zdf))) as Hmax.
  fold M in Hmax.
  rewrite Forall_forall in Hrange. destruct (Hrange M HM) as [HMday HMts].
  rewrite bool_decide_eq_true_2 by done.
  set (_cutoff := M - 13 * Pd.day_ns) in *.
  pose proof (sorted_filter_split zf_date _cutoff zdf Hsorted) as Hsplit.
  set (_train := filter (fun r => zf_date r < _cutoff) zdf) in *.
  set (_test := filter (fun r => _cutoff <= zf_date r) zdf) in *.
  assert (1 <= length _test)%nat as Htest1.
  { change map with (@fmap list _) in HM.
    apply list_elem_of_fmap in HM as (r & HrM & Hr).
    assert (r ∈ _test) as Hin.
    { apply list_elem_of_filter. split; [|done]. rewrite <- HrM.
      subst _cutoff. unfold Pd.day_ns. lia. }
    destruct _test; [by apply elem_of_nil in Hin|simpl; lia]. }
  assert (length _test <= 14)%nat as Htest14.
  { subst _test. rewrite <- filter_length_fmap.
    apply (distinct_days_in_a_fortnight _cutoff).
    - by apply NoDup_filter.
    - apply Forall_forall. intros d Hd.
      apply list_elem_of_filter in Hd as [Hd1 Hd2].
      destruct (Hrange d Hd2) as [Hday _].
      rewrite Forall_forall in Hmax. specialize (Hmax d Hd2).
      split; [done|]. subst _cutoff. lia.
    - subst _cutoff. unfold Pd.day_ns in *.
      rewrite Zminus_mod, HMday.
      by replace (13 * 86400000000000 mod 86400000000000) with 0
        by (symmetry; apply Z_mod_mult). }
  assert (length _train + length _test = length zdf)%nat as Hsum.
  { rewrite <- length_app. by rewrite Hsplit. }
  destruct (Nat.ltb_spec (length _train) 10) as [Hbad|_]; [lia|].
  destruct (Nat.ltb_spec (length _test) 1) as [Hbad|_]; [lia|].
  simpl. exists _train, _test.
  split; [done|]. split; [done|]. split; [lia|]. split; [lia|].
  intros a b Ha Hb.
  apply list_elem_of_filter in Ha as [Ha _].
  apply list_elem_of_filter in Hb as [Hb _]. lia.
Qed.
End forecast_facts.

Lemma forty_five_days_rows :
  filter (fun d : daily_row unit => zone d = 132) forty_five_days = forty_five_days.
Proof. vm_compute. reflexivity. Qed.

Lemma forty_five_days_distinct :
  NoDup (map ds_date (filter (fun d : daily_row unit => zone d = 132) forty_five_days)).
Proof.
  rewrite forty_five_days_rows. unfold forty_five_days. rewrite map_map.
  change map with (@fmap list _). apply NoDup_fmap_2_strong; [|apply NoDup_seq].
  intros i j _ _ Hij. simpl in Hij. unfold Pd.day_ns in Hij. lia.
Qed.

Lemma forty_five_days_means :
  Forall (means_present (fun _ : unit => false))
    (filter (fun d : daily_row unit => zone d = 132) forty_five_days).
Proof. apply Forall_forall. intros d _. by repeat split. Qed.

Lemma forty_five_days_midnights :
  Forall (fun d : daily_row unit =>
            ds_date d mod Pd.day_ns = 0
            /\ Int.is_timestamp (ds_date d - 13 * Pd.day_ns))
    (filter (fun d : daily_row unit => zone d = 132) forty_five_days).
Proof.
  rewrite forty_five_days_rows. unfold forty_five_days.
  change map with (@fmap list _). apply Forall_fmap, Forall_seq. intros i Hi. simpl.
  split; [apply Z_mod_mult|].
  unfold Int.is_timestamp, Int.min_int64, Int.max_int64, Pd.day_ns. lia.
Qed.

Lemma zone_frame_rows_witness :
  length (zone_frame (fun _ : unit => false) (fun _ => 0) (fun _ => 0) (fun _ => 0)
            (fun _ => 0) forty_five_days 132) = 31%nat.
Proof.
  rewrite (proj1 (zone_frame_rows (fun _ : unit => false) (fun _ => 0) (fun _ => 0)
                    (fun _ => 0) (fun _ => 0) forty_five_days 132
                    forty_five_days_distinct forty_five_days_means)).
  vm_compute. reflexivity.
Defined.

Lemma walk_forward_split_of_zone_witness :
  exists _train _test,
    walk_forward_split
      (zone_frame (fun _ : unit => false) (fun _ => 0) (fun _ => 0) (fun _ => 0)
         (fun _ => 0) forty_five_days 132) = Split _train _test
    /\ _train ++ _test
       = zone_frame (fun _ : unit => false) (fun _ => 0) (fun _ => 0) (fun _ => 0)
           (fun _ => 0) forty_five_days 132
    /\ (1 <= length _test <= 14)%nat
    /\ (15 <= length _train)%nat
    /\ forall a b, a ∈ _train -> b ∈ _test -> zf_date a < zf_date b.
Proof.
  apply (proj2 (walk_forward_split_of_zone (fun _ : unit => false) (fun _ => 0)
                  (fun _ => 0) (fun _ => 0) (fun _ => 0) forty_five_days 132
                  forty_five_days_distinct forty_five_days_means
                  forty_five_days_midnights)).
  vm_compute. lia.
Defined.


(** * The zone polygons of [build_animated_choropleth.py] *)

Lemma slice_app {A : Type} (l : list A) a b c :
  (a <= b <= c)%nat ->
  Np.slice a b l ++ Np.slice b c l = Np.slice a c l.
Proof.
  intros H. unfold Np.slice.
  replace (c - a)%nat with ((b - a) + (c - b))%nat by lia.
  rewrite <- take_take_drop, drop_drop. do 3 f_equal. lia.
Qed.

Lemma chain_slices {A : Type} (l : list A) a rs c :
  chain a rs c ->
  concat (map (fun se : nat * nat => Np.slice se.1 se.2 l) rs) = Np.slice a c l.
Proof.
  induction 1 as [a|a b rs c Hab Hch IH]; simpl.
  - unfold Np.slice. by rewrite Nat.sub_diag.
  - rewrite IH. apply slice_app. pose proof (chain_cover _ _ _ Hch). lia.
Qed.

(** Cutting at consecutive elements of a list, by position. *)
Lemma map_consecutive {B : Type} (g : nat -> nat -> B) (a : nat) (l : list nat) (n : nat) :
  map (fun i => g (nth i ((a :: l) ++ [n]) O) (nth (S i) ((a :: l) ++ [n]) O))
      (seq 0 (S (length l)))
  = map (fun se : nat * nat => g se.1 se.2) (zip (a :: l) (l ++ [n])).
Proof.
  revert a. induction l as [|b l IH]; intros a; [done|].
  cbn [length]. rewrite <- cons_seq, <- seq_shift, map_cons, map_map.
  cbn [app zip zip_with map fst snd nth]. f_equal. apply IH.
Qed.

Lemma dict_get_set {V : Type} (k k' : Z) (v : V) (d : list (Z * V)) :
  dict_get k (dict_set k' v d) = if decide (k = k') then Some v else dict_get k d.
Proof.
  induction d as [|[k0 v0] d IH]; simpl.
  - destruct (decide (k = k')); done.
  - destruct (decide (k' = k0)) as [->|Hne]; simpl.
    + destruct (decide (k = k0)); done.
    + destruct (decide (k = k0)) as [->|]; [by rewrite decide_False by done|].
      apply IH.
Qed.

Lemma dict_set_keys {V : Type} (k : Z) (v : V) (d : list (Z * V)) :
  map fst (dict_set k v d)
  = if decide (k ∈ map fst d) then map fst d else map fst d ++ [k].
Proof.
  induction d as [|[k0 v0] d IH].
  - simpl. destruct (decide (k ∈ [])) as [Hin|]; [by apply elem_of_nil in Hin|done].
  - cbn [dict_set map fst].
    destruct (decide (k = k0)) as [->|Hne]; cbn [map fst].
    + destruct (decide (k0 ∈ k0 :: map fst d)) as [|Hn]; [done|].
      exfalso. apply Hn. by left.
    + rewrite IH. destruct (decide (k ∈ map fst d)) as [Hin|Hnin].
      * destruct (decide (k ∈ k0 :: map fst d)) as [|Hn]; [done|].
        exfalso. apply Hn. by right.
      * destruct (decide (k ∈ k0 :: map fst d)) as [Hin|]; [|done].
        apply elem_of_cons in Hin as [|]; done.
Qed.

Lemma dict_set_values {V : Type} (Q : V -> Prop) (k : Z) (v : V) (d : list (Z * V)) :
  Q v -> Forall (fun kv => Q kv.2) d -> Forall (fun kv => Q kv.2) (dict_set k v d).
Proof.
  intros Hv. induction 1 as [|[k0 v0] d H0 Hd IH]; simpl; [by repeat constructor|].
  destruct (decide (k = k0)); by constructor.
Qed.

Section choropleth_facts.
Context {P : Type}.

Lemma shape_rings_length (sr : shape_record P) :
length (shape_rings sr) = length (shape_parts sr).
Proof.
unfold shape_rings. rewrite length_map, length_seq, length_app. simpl. lia.
Qed.

(** The rings of a shape.  When the parts of a shape start at 0, ascend
  strictly and stay below the number of its points, the rings are as
  many as the parts, none of them is empty, and laid end to end they are
  the points of the shape: no point is lost and none is repeated. *)
Theorem shape_rings_cover (sr : shape_record P) :
head (shape_parts sr) = Some O ->
StronglySorted lt (shape_parts sr) ->
Forall (fun p => p < length (shape_points sr))%nat (shape_parts sr) ->
concat (shape_rings sr) = shape_points sr
/\ length (shape_rings sr) = length (shape_parts sr)
/\ Forall (fun ring => (0 < length ring)%nat) (shape_rings sr).
Proof.
intros Hhead Hs Hb.
split; [|split; [apply shape_rings_length|]].
- unfold shape_rings.
  destruct (shape_parts sr) as [|a hs] eqn:Hparts; [done|].
  simpl in Hhead. simplify_eq.
  replace (length ((0%nat :: hs) ++ [length (shape_points sr)]) - 1)%nat
    with (S (length hs)) by (rewrite length_app; simpl; lia).
  rewrite (map_consecutive (fun s e => Np.slice s e (shape_points sr))).
  rewrite (chain_slices _ 0 _ (length (shape_points sr))) by (by apply starts_chain).
  unfold Np.slice. by rewrite drop_0, Nat.sub_0_r, firstn_all.
- unfold shape_rings.
  destruct (shape_parts sr) as [|a hs] eqn:Hparts; [constructor|].
  replace (length ((a :: hs) ++ [length (shape_points sr)]) - 1)%nat
    with (S (length hs)) by (rewrite length_app; simpl; lia).
  rewrite (map_consecutive (fun s e => Np.slice s e (shape_points sr))).
  pose proof (starts_chain a hs (length (shape_points sr)) Hs Hb) as Hch.
  apply Forall_fmap, Forall_forall. intros [s e] Hin. simpl.
  pose proof (chain_elem _ _ _ s e Hch Hin). rewrite slice_length; lia.
Qed.

Lemma loc_id_stored (sr : shape_record P) id :
loc_id sr = Ok id <-> stored_under id sr.
Proof.
unfold loc_id, stored_under. destruct (rec_LocationID sr) as [| |z]; split.
- intros H. right. by simplify_eq.
- intros [H|[_ ->]]; [done|done].
- done.
- intros [H|[H _]]; done.
- intros H. left. by simplify_eq.
- intros [H|[H _]]; [by simplify_eq|done].
Qed.

(** One turn of the loop on a record whose [LocationID] is not empty. *)
Lemma add_shape_spec d (sr : shape_record P) :
rec_LocationID sr <> Null ->
exists d', add_shape d sr = Ok d'
  /\ (forall id, dict_get id d'
        = if decide (stored_under id sr /\ shape_parts sr <> [])
          then Some (shape_rings sr) else dict_get id d)
  /\ (NoDup (map fst d) -> NoDup (map fst d'))
  /\ (Forall (fun kv => (0 < length kv.2)%nat) d ->
      Forall (fun kv => (0 < length kv.2)%nat) d').
Proof.
intros Hnull. unfold add_shape.
destruct (loc_id sr) as [id0|e n] eqn:Hid.
2:{ unfold loc_id in Hid. by destruct (rec_LocationID sr). }
apply loc_id_stored in Hid.
pose proof (shape_rings_length sr) as Hl.
destruct (shape_rings sr) as [|ring rings] eqn:Hrings.
- exists d. split; [done|]. split; [|done].
  intros id. rewrite decide_False; [done|].
  intros [_ Hp]. destruct (shape_parts sr); [done|]. simpl in Hl. lia.
- exists (dict_set id0 (ring :: rings) d). split; [done|].
  assert (shape_parts sr <> []) as Hp by (intros Hp; rewrite Hp in Hl; simpl in Hl; lia).
  split; [|split].
  + intros id. rewrite dict_get_set.
    destruct (decide (id = id0)) as [->|Hne].
    * by rewrite decide_True.
    * rewrite decide_False; [done|]. intros [Hst _]. apply Hne.
      unfold stored_under in Hid, Hst.
      destruct Hid as [Hid|[Hid ->]], Hst as [Hst|[Hst ->]]; congruence.
  + intros Hnd. rewrite dict_set_keys. destruct (decide _) as [|Hnin]; [done|].
    apply NoDup_app. split; [done|]. split; [|apply NoDup_singleton].
    intros k Hk Hk'. apply list_elem_of_singleton in Hk' as ->. done.
  + intros Hne. apply (dict_set_values (fun v => (0 < length v)%nat)); [|done].
    simpl. lia.
Qed.

Lemma add_shape_null d (sr : shape_record P) :
rec_LocationID sr = Null -> add_shape d sr = Raise TypeError 31.
Proof. intros Hnull. unfold add_shape, loc_id. by rewrite Hnull. Qed.

Lemma add_shapes_spec (srs : list (shape_record P)) d0 :
match add_shapes d0 srs with
| Raise e n =>
    e = TypeError /\ n = 31%nat /\ Exists (fun sr => rec_LocationID sr = Null) srs
| Ok d =>
    Forall (fun sr => rec_LocationID sr <> Null) srs
    /\ (forall id,
          dict_get id d
          = match last (filter (fun sr => stored_under id sr /\ shape_parts sr <> []) srs) with
            | Some sr => Some (shape_rings sr)
            | None => dict_get id d0
            end)
    /\ (NoDup (map fst d0) -> NoDup (map fst d))
    /\ (Forall (fun kv => (0 < length kv.2)%nat) d0 ->
        Forall (fun kv => (0 < length kv.2)%nat) d)
end.
Proof.
revert d0. induction srs as [|sr srs IH]; intros d0.
- simpl. split; [constructor|]. done.
- cbn [add_shapes].
  destruct (decide (rec_LocationID sr = Null)) as [Hnull|Hnull].
  { rewrite add_shape_null by done. split; [done|]. split; [done|]. by left. }
  destruct (add_shape_spec d0 sr Hnull) as (d1 & -> & Hget1 & Hnd1 & Hne1).
  specialize (IH d1). destruct (add_shapes d1 srs) as [d|e n].
  + destruct IH as (Hall & Hget & Hnd & Hne).
    split; [by constructor|]. split; [|split; [tauto|tauto]].
    intros id. rewrite Hget, Hget1, filter_cons.
    destruct (decide (stored_under id sr /\ shape_parts sr <> [])) as [Hsr|Hsr].
    * rewrite last_cons. by destruct (last _).
    * done.
  + destruct IH as (-> & -> & Hex). split; [done|]. split; [done|]. by right.
Qed.

(** The dictionary of the polygons.  The loop stops at line 31 with a
  [TypeError] exactly when a record has an empty [LocationID].
  Otherwise a zone id is looked up to the rings of the last shape record
  that carries it and has parts - a record with no [LocationID] field at
  all is found under the id 0 - and to nothing when there is no such
  record; no id occurs twice and no zone has an empty list of rings. *)
Theorem zone_polygons_lookup (srs : list (shape_record P)) :
match zone_polygons srs with
| Raise e n =>
    e = TypeError /\ n = 31%nat /\ Exists (fun sr => rec_LocationID sr = Null) srs
| Ok d =>
    Forall (fun sr => rec_LocationID sr <> Null) srs
    /\ (forall id,
          dict_get id d
          = shape_rings
              <$> last (filter (fun sr => stored_under id sr /\ shape_parts sr <> []) srs))
    /\ NoDup (map fst d)
    /\ Forall (fun kv => (0 < length kv.2)%nat) d
end.
Proof.
unfold zone_polygons. pose proof (add_shapes_spec srs []) as H.
destruct (add_shapes [] srs) as [d|e n]; [|done].
destruct H as (Hall & Hget & Hnd & Hne).
split; [done|]. split; [|split; [apply Hnd; constructor|apply Hne; constructor]].
intros id. rewrite Hget. by destruct (last _).
Qed.
End choropleth_facts.

Lemma shape_rings_cover_witness :
  concat (shape_rings (P := Z * Z) {| rec_LocationID := Number 4; shape_points := [(0, 0); (4, 0); (0, 3); (9, 9); (8, 8)];
                         shape_parts := [0; 3]%nat |})
  = [(0, 0); (4, 0); (0, 3); (9, 9); (8, 8)]
  /\ length (shape_rings {| rec_LocationID := Number 4; shape_points := [(0, 0); (4, 0); (0, 3); (9, 9); (8, 8)];
                            shape_parts := [0; 3]%nat |})
     = 2%nat
  /\ Forall (fun ring => (0 < length ring)%nat)
       (shape_rings {| rec_LocationID := Number 4; shape_points := [(0, 0); (4, 0); (0, 3); (9, 9); (8, 8)];
                       shape_parts := [0; 3]%nat |}).
Proof.
  apply (shape_rings_cover (P := Z * Z) {| rec_LocationID := Number 4; shape_points := [(0, 0); (4, 0); (0, 3); (9, 9); (8, 8)];
                              shape_parts := [0; 3]%nat |}).
  - reflexivity.
  - repeat constructor.
  - repeat constructor.
Defined.


(** * The order of the raw table *)

Lemma clean_trip_keys d (raw : list raw_trip) off :
  map trip_key (Pd.astype_int32 d (Pd.dropna (zip (seq off (length raw)) raw)))
  = omap (raw_trip_key d) raw.
Proof.
  revert off. induction raw as [|[t z] raw IH]; intros off; [done|].
  cbn [length seq zip zip_with]. rewrite dropna_cons.
  cbn [omap list_omap]. unfold raw_trip_key at 1. simpl.
  destruct t as [t|], z as [z|]; try apply IH.
  specialize (IH (S off)). unfold Pd.astype_int32 in *.
  cbn [map]. by rewrite IH.
Qed.

Lemma zone_dtype_perm (raw1 raw2 : list raw_trip) :
  raw1 ≡ₚ raw2 ->
  Pd.zone_dtype (map raw_PULocationID raw1) = Pd.zone_dtype (map raw_PULocationID raw2).
Proof.
  intros Hp. unfold Pd.zone_dtype. change map with (@fmap list _).
  destruct (decide (None ∈ raw_PULocationID <$> raw1)) as [H1|H1];
    destruct (decide (None ∈ raw_PULocationID <$> raw2)) as [H2|H2]; try done.
  - rewrite Hp in H1. done.
  - rewrite <- Hp in H2. done.
Qed.

Lemma sorted_frame_of_keys (df1 df2 : list trip) :
  map trip_key df1 ≡ₚ map trip_key df2 ->
  sort_by_zone_and_time df1 = sort_by_zone_and_time df2.
Proof.
  intros Hp. unfold sort_by_zone_and_time.
  rewrite !reset_index_of_keys, !sort_values_keys.
  by rewrite (stable_sort_keys_perm _ _ Hp).
Qed.

(** The order of the records in the raw table has no effect: two raw
    tables with the same records in any order give the same sorted frame
    (the sort is by zone and pickup time, and the index is reset after
    it), hence the same rolling counts, the same printed numbers and the
    same daily table. *)
Theorem pipeline_ignores_raw_order {F : Type} (mean : list Z -> F) (round2 : F -> F)
    (junk1 junk6 junk24 : nat -> Z) (raw1 raw2 : list raw_trip) :
  raw1 ≡ₚ raw2 ->
  sort_by_zone_and_time (load_and_clean raw1).2
  = sort_by_zone_and_time (load_and_clean raw2).2
  /\ pipeline mean round2 junk1 junk6 junk24 raw1
     = pipeline mean round2 junk1 junk6 junk24 raw2.
Proof.
  intros Hp.
  assert (sort_by_zone_and_time (load_and_clean raw1).2
          = sort_by_zone_and_time (load_and_clean raw2).2) as Hframe.
  { apply sorted_frame_of_keys.
    rewrite !load_and_clean_eq. unfold Pd.ignore_index.
    rewrite !clean_trip_keys, (zone_dtype_perm _ _ Hp). by rewrite Hp. }
  split; [done|].
  rewrite !pipeline_eq, Hframe. by rewrite Hp.
Qed.

Lemma pipeline_ignores_raw_order_witness :
  let a := {| raw_pickup_datetime := Some 1735693200000000000; raw_PULocationID := Some 132 |} in
  let b := {| raw_pickup_datetime := None; raw_PULocationID := Some 79 |} in
  let c := {| raw_pickup_datetime := Some 1735689600000000000; raw_PULocationID := Some 132 |} in
  sort_by_zone_and_time (load_and_clean [a; b; c]).2
  = sort_by_zone_and_time (load_and_clean [c; a; b]).2
  /\ pipeline (fun _ : list Z => tt) (fun u => u) (fun _ => 0) (fun _ => 0) (fun _ => 0)
       [a; b; c]
     = pipeline (fun _ : list Z => tt) (fun u => u) (fun _ => 0) (fun _ => 0) (fun _ => 0)
         [c; a; b].
Proof.
  intros a b c.
  apply (pipeline_ignores_raw_order (fun _ : list Z => tt) (fun u => u)
           (fun _ => 0) (fun _ => 0) (fun _ => 0) [a; b; c] [c; a; b]).
  change [c; a; b] with ([c] ++ [a; b]). change [a; b; c] with ([a; b] ++ [c]).
  apply Permutation_app_comm.
Defined.
